(** * The fluorescence task of TAPE: dataset pipeline and attention-pooling head

    A shallow embedding of [tape/tasks/fluorescence_task.py].

    Conventions.
    - Python exceptions are values of [exn]; a call that may raise returns a
      [result].
    - Methods that touch the file system run in the monad [M], which threads a
      [world] (the disk and a log of effects) and keeps the world reached when
      an exception is raised.
    - Collaborators that the task file imports but does not define
      ([TAPETokenizer], [parse_fasta], [hhfilter_sequences], the base model,
      Biopython's alignment algorithm, the BLOSUM62 table) are parameters;
      [pad_sequences] and [seqlen_mask] are modelled from the specification.
    - Floats are idealised as real numbers. *)

From Stdlib Require Import ZArith List String Ascii Bool Arith Lia.
From Stdlib Require Import DecimalString DecimalZ DecimalPos Reals Lra.
Import ListNotations.

Set Implicit Arguments.

(** ** Python results *)

Inductive exn : Type :=
| IndexError
| KeyError
| AttributeError
| ValueError
| ZeroDivisionError
| RuntimeError
| StopIteration
| FileNotFoundError
| FileExistsError
| NotADirectoryError
| IsADirectoryError
| UnpicklingError.

Inductive result (A : Type) : Type :=
| Ok (a : A)
| Raise (e : exn).

Arguments Ok {A} a.
Arguments Raise {A} e.

Definition rbind {A B : Type} (r : result A) (k : A -> result B) : result B :=
  match r with
  | Ok a => k a
  | Raise e => Raise e
  end.

Definition is_ok {A : Type} (r : result A) : bool :=
  match r with Ok _ => true | Raise _ => false end.

(** [l[i]] for a non-negative index. *)
Definition py_index {A : Type} (l : list A) (i : nat) : result A :=
  match nth_error l i with
  | Some a => Ok a
  | None => Raise IndexError
  end.

(** [l[:n]]: the first [n] items, or all but the last [-n] when [n] is
    negative. *)
Definition py_slice_to {A : Type} (l : list A) (n : Z) : list A :=
  if (0 <=? n)%Z then firstn (Z.to_nat n) l
  else firstn (List.length l - Z.to_nat (- n)) l.

(** [s.split(sep)] for a one-character separator. *)
Fixpoint split_on (sep : ascii) (s : string) : list string :=
  match s with
  | EmptyString => [EmptyString]
  | String c r =>
      if Ascii.eqb c sep then EmptyString :: split_on sep r
      else match split_on sep r with
           | [] => [String c EmptyString]
           | h :: t => String c h :: t
           end
  end.

Definition newline : ascii := Ascii.ascii_of_nat 10.

Fixpoint no_newline (s : string) : bool :=
  match s with
  | EmptyString => true
  | String c r => negb (Ascii.eqb c newline) && no_newline r
  end.

(** ** Pairwise alignment, as [Bio.Align.PairwiseAligner] presents it *)

Module Align.

(** One column of a pairwise alignment. *)
Inductive column : Type :=
| Both (t q : ascii)        (* a target letter over a query letter *)
| GapInTarget (q : ascii)   (* "-" in the target row *)
| GapInQuery (t : ascii).   (* "-" in the query row *)

Definition alignment := list column.

Definition gap : ascii := "-"%char.

Fixpoint target_row (a : alignment) : string :=
  match a with
  | [] => EmptyString
  | Both t _ :: r => String t (target_row r)
  | GapInTarget _ :: r => String gap (target_row r)
  | GapInQuery t :: r => String t (target_row r)
  end.

Fixpoint query_row (a : alignment) : string :=
  match a with
  | [] => EmptyString
  | Both _ q :: r => String q (query_row r)
  | GapInTarget q :: r => String q (query_row r)
  | GapInQuery _ :: r => String gap (query_row r)
  end.

Fixpoint pattern_row (a : alignment) : string :=
  match a with
  | [] => EmptyString
  | Both t q :: r =>
      String (if Ascii.eqb t q then "|"%char else "."%char) (pattern_row r)
  | GapInTarget _ :: r => String gap (pattern_row r)
  | GapInQuery _ :: r => String gap (pattern_row r)
  end.

(** The sequences an alignment aligns: its rows with the gaps removed. *)
Fixpoint target_seq (a : alignment) : string :=
  match a with
  | [] => EmptyString
  | Both t _ :: r => String t (target_seq r)
  | GapInTarget _ :: r => target_seq r
  | GapInQuery t :: r => String t (target_seq r)
  end.

Fixpoint query_seq (a : alignment) : string :=
  match a with
  | [] => EmptyString
  | Both _ q :: r => String q (query_seq r)
  | GapInTarget q :: r => String q (query_seq r)
  | GapInQuery _ :: r => query_seq r
  end.

Fixpoint target_gaps (a : alignment) : nat :=
  match a with
  | [] => 0
  | GapInTarget _ :: r => S (target_gaps r)
  | _ :: r => target_gaps r
  end.

(** [str(alignment)]: the target row, the match pattern and the query row,
    one per line (the three-line layout the task's [split("\n")[2]] is
    written against). *)
Definition str (a : alignment) : string :=
  (target_row a ++ String newline
     (pattern_row a ++ String newline
        (query_row a ++ String newline EmptyString)))%string.

(** Scores: integers extended with minus infinity. *)
Inductive score : Type :=
| NegInf
| Fin (z : Z).

Definition add (x y : score) : score :=
  match x, y with
  | Fin a, Fin b => Fin (a + b)
  | _, _ => NegInf
  end.

Definition le (x y : score) : Prop :=
  match x, y with
  | NegInf, _ => True
  | Fin _, NegInf => False
  | Fin a, Fin b => (a <= b)%Z
  end.

(** The scoring settings of a [PairwiseAligner]; the mode is always
    "global" here. *)
Record scoring : Type := {
  substitution_matrix : ascii -> ascii -> Z;
  target_open_gap_score : score;
  target_extend_gap_score : score;
  query_open_gap_score : score;
  query_extend_gap_score : score
}.

(** An aligner object: its settings and its [align] method, which returns
    the alignments of a target and a query in the library's order. *)
Record PairwiseAligner : Type := {
  settings : scoring;
  align : string -> string -> list alignment
}.

(** [PairwiseAligner(substitution_matrix=m, mode="global",
    target_open_gap_score=-inf)]: every gap score not given keeps the
    library default, zero.  [algorithm] is the library's alignment
    procedure. *)
Definition make (algorithm : scoring -> string -> string -> list alignment)
           (m : ascii -> ascii -> Z) : PairwiseAligner :=
  let s := {| substitution_matrix := m;
              target_open_gap_score := NegInf;
              target_extend_gap_score := Fin 0;
              query_open_gap_score := Fin 0;
              query_extend_gap_score := Fin 0 |} in
  {| settings := s; align := algorithm s |}.

Inductive last_column : Type := NoGap | InTargetGap | InQueryGap.

(** Affine gap scoring: the first column of a run of gaps pays the open
    score, each further one the extend score. *)
Fixpoint score_from (s : scoring) (prev : last_column)
         (a : alignment) : score :=
  match a with
  | [] => Fin 0
  | Both t q :: r =>
      add (Fin (substitution_matrix s t q)) (score_from s NoGap r)
  | GapInTarget _ :: r =>
      add (match prev with
           | InTargetGap => target_extend_gap_score s
           | _ => target_open_gap_score s
           end) (score_from s InTargetGap r)
  | GapInQuery _ :: r =>
      add (match prev with
           | InQueryGap => query_extend_gap_score s
           | _ => query_open_gap_score s
           end) (score_from s InQueryGap r)
  end.

Definition score_of (s : scoring) (a : alignment) : score :=
  score_from s NoGap a.

(** A global alignment of [t] and [q] uses both sequences entirely. *)
Definition global (t q : string) (a : alignment) : Prop :=
  target_seq a = t /\ query_seq a = q.

(** What the task relies on from the library's [align]: the alignments it
    returns are global and of the best score under the aligner's settings,
    and there is one whenever some global alignment has a finite score. *)
Record optimal_global (al : PairwiseAligner) : Prop := {
  align_global : forall t q a, In a (align al t q) -> global t q a;
  align_best : forall t q a a',
      In a (align al t q) -> global t q a' ->
      le (score_of (settings al) a') (score_of (settings al) a);
  align_some : forall t q a' z,
      global t q a' -> score_of (settings al) a' = Fin z ->
      align al t q <> []
}.

(** The alignment that pairs the query with the start of the target and
    fills the rest of the query row with gaps. *)
Fixpoint left_justified (t q : string) : alignment :=
  match t with
  | EmptyString => []
  | String a t' =>
      match q with
      | String b q' => Both a b :: left_justified t' q'
      | EmptyString => GapInQuery a :: left_justified t' EmptyString
      end
  end.

(** Settings under which no gap may be opened in the target, while gaps in
    the query have finite scores. *)
Definition forbids_target_gaps (s : scoring) : Prop :=
  target_open_gap_score s = NegInf
  /\ (exists o, query_open_gap_score s = Fin o)
  /\ (exists e, query_extend_gap_score s = Fin e).

End Align.

(** ** Tensors *)

Module Torch.

Inductive device : Type :=
| CPU
| CUDA (ordinal : nat).

(** A tensor: its shape, its entries by multi-index (read only inside the
    shape), and the two attributes the task touches. *)
Record tensor (A : Type) : Type := {
  shape : list nat;
  item : list nat -> A;
  requires_grad : bool;
  on_device : device
}.

Definition ndim {A : Type} (t : tensor A) : nat := List.length (shape t).

Definition shape_eqb (s1 s2 : list nat) : bool :=
  if list_eq_dec Nat.eq_dec s1 s2 then true else false.

(** Is the multi-index [ix] inside a tensor of shape [sh]? *)
Fixpoint in_bounds (ix sh : list nat) : bool :=
  match ix, sh with
  | [], [] => true
  | i :: ix', n :: sh' => (i <? n) && in_bounds ix' sh'
  | _, _ => false
  end.

(** [torch.from_numpy(a)] for a one-dimensional array. *)
Definition from_list {A : Type} (d : A) (l : list A) : tensor A :=
  {| shape := [List.length l];
     item := fun ix => match ix with [i] => nth i l d | _ => d end;
     requires_grad := false;
     on_device := CPU |}.

(** [torch.tensor(x)] for a number: a zero-dimensional tensor. *)
Definition scalar {A : Type} (x : A) : tensor A :=
  {| shape := []; item := fun _ => x;
     requires_grad := false; on_device := CPU |}.

(** [t.size(-1)]. *)
Definition size_last {A : Type} (t : tensor A) : result nat :=
  match rev (shape t) with
  | n :: _ => Ok n
  | [] => Raise IndexError
  end.

(** [t.unsqueeze(0)]. *)
Definition unsqueeze0 {A : Type} (t : tensor A) : tensor A :=
  {| shape := 1 :: shape t;
     item := fun ix => item t (tl ix);
     requires_grad := requires_grad t;
     on_device := on_device t |}.

(** [t.unsqueeze(1)] for a tensor of at least one dimension. *)
Definition unsqueeze1 {A : Type} (t : tensor A) : result (tensor A) :=
  match shape t with
  | n :: sh =>
      Ok {| shape := n :: 1 :: sh;
            item := fun ix => match ix with
                              | i :: _ :: r => item t (i :: r)
                              | _ => item t ix
                              end;
            requires_grad := requires_grad t;
            on_device := on_device t |}
  | [] => Raise IndexError
  end.

(** [torch.cat([a, b], 0)]: the tensors must agree on every dimension but
    the first. *)
Definition cat0 {A : Type} (a b : tensor A) : result (tensor A) :=
  match shape a, shape b with
  | n :: sa, m :: sb =>
      if shape_eqb sa sb then
        Ok {| shape := (n + m) :: sa;
              item := fun ix => match ix with
                                | i :: r => if i <? n then item a (i :: r)
                                            else item b ((i - n) :: r)
                                | [] => item a []
                                end;
              requires_grad := requires_grad a || requires_grad b;
              on_device := on_device a |}
      else Raise RuntimeError
  | _, _ => Raise RuntimeError
  end.

(** [torch.stack(ts, 0)]: a non-empty list of tensors of one shape. *)
Definition stack0 {A : Type} (ts : list (tensor A)) : result (tensor A) :=
  match ts with
  | [] => Raise RuntimeError
  | t0 :: _ =>
      if forallb (fun t => shape_eqb (shape t) (shape t0)) ts then
        Ok {| shape := List.length ts :: shape t0;
              item := fun ix => match ix with
                                | i :: r => item (nth i ts t0) r
                                | [] => item t0 []
                                end;
              requires_grad := existsb (@requires_grad A) ts;
              on_device := on_device t0 |}
      else Raise RuntimeError
  end.

(** [t[0]]: the first slice along the first dimension. *)
Definition select0 {A : Type} (t : tensor A) : result (tensor A) :=
  match shape t with
  | S _ :: sh =>
      Ok {| shape := sh;
            item := fun ix => item t (0 :: ix);
            requires_grad := requires_grad t;
            on_device := on_device t |}
  | _ => Raise IndexError
  end.

(** [t.to(device)]. *)
Definition to {A : Type} (d : device) (t : tensor A) : tensor A :=
  {| shape := shape t; item := item t;
     requires_grad := requires_grad t; on_device := d |}.

(** [t.cpu().clone()]. *)
Definition cpu_clone {A : Type} (t : tensor A) : tensor A := to CPU t.

(** [t.requires_grad_(False)]. *)
Definition requires_grad_false {A : Type} (t : tensor A) : tensor A :=
  {| shape := shape t; item := item t;
     requires_grad := false; on_device := on_device t |}.

(** Entry-wise maximum of two shapes of one length. *)
Fixpoint max_shape (s1 s2 : list nat) : list nat :=
  match s1, s2 with
  | n :: r1, m :: r2 => Nat.max n m :: max_shape r1 r2
  | _, _ => []
  end.

(** Modelled from the spec: [pad_sequences] of [tape/utils] is not part of
    the task file.  The specification says it right-pads all arrays of a
    batch to the batch's maximum length with a constant; this model pads
    along every axis to the largest extent in the batch, writes each array
    into the leading corner of its slot, and rejects an empty batch or
    arrays of different numbers of dimensions. *)
Definition pad_sequences {A : Type} (sequences : list (tensor A))
           (constant_value : A) : result (tensor A) :=
  match sequences with
  | [] => Raise ValueError
  | s0 :: rest =>
      if forallb (fun s => ndim s =? ndim s0) rest then
        Ok {| shape := List.length sequences
                         :: fold_left (fun acc s => max_shape acc (shape s))
                                      rest (shape s0);
              item := fun ix =>
                        match ix with
                        | b :: r =>
                            match nth_error sequences b with
                            | Some s => if in_bounds r (shape s)
                                        then item s r else constant_value
                            | None => constant_value
                            end
                        | [] => constant_value
                        end;
              requires_grad := false;
              on_device := CPU |}
      else Raise ValueError
  end.

End Torch.

Import Torch.

(** ** The file system and the effects of a call *)

Definition path := list string.

(** What a regular file holds, as far as [torch.load] can tell. *)
Inductive file_content : Type :=
| Saved (t : tensor R)   (* the complete image written by [torch.save t] *)
| Torn (t : tensor R)    (* [torch.save t] opened the file and did not finish *)
| Text (s : string).     (* anything else *)

#[warnings="-register-all"]
Inductive node : Type :=
| File (c : file_content)
| Dir (entries : list (string * node)).

Fixpoint assoc {V : Type} (k : string) (es : list (string * V)) : option V :=
  match es with
  | [] => None
  | (k', v) :: r => if String.eqb k k' then Some v else assoc k r
  end.

Fixpoint set_assoc {V : Type} (k : string) (v : V) (es : list (string * V))
  : list (string * V) :=
  match es with
  | [] => [(k, v)]
  | (k', v') :: r =>
      if String.eqb k k' then (k, v) :: r else (k', v') :: set_assoc k v r
  end.

(** The node a path leads to from [n], if any. *)
Fixpoint resolve (n : node) (p : path) : option node :=
  match p with
  | [] => Some n
  | c :: p' =>
      match n with
      | Dir es => match assoc c es with
                  | Some n' => resolve n' p'
                  | None => None
                  end
      | File _ => None
      end
  end.

(** Put [new] at path [p] below [n]; the parent of [p] has to be a
    directory. *)
Fixpoint put (n : node) (p : path) (new : node) : option node :=
  match p with
  | [] => Some new
  | c :: p' =>
      match n with
      | Dir es =>
          match p' with
          | [] => Some (Dir (set_assoc c new es))
          | _ :: _ =>
              match assoc c es with
              | Some n' =>
                  match put n' p' new with
                  | Some n'' => Some (Dir (set_assoc c n'' es))
                  | None => None
                  end
              | None => None
              end
          end
      | File _ => None
      end
  end.

Definition parent (p : path) : path := removelast p.

Inductive event : Type :=
| Mkdir (p : path)            (* a directory was created *)
| OpenForWriting (p : path)   (* a file was created or truncated *)
| Written (p : path)          (* the file was written completely and closed *)
| Loaded (p : path)           (* a file was read by [torch.load] *)
| Forward.                    (* the base model extracted features *)

(** The world a call runs in: the disk, the disk states it went through
    before (most recent first), and the effects so far (most recent
    first). *)
Record world : Type := {
  disk : node;
  earlier : list node;
  log : list event
}.

Definition M (A : Type) : Type := world -> result A * world.

Definition ret {A : Type} (a : A) : M A := fun w => (Ok a, w).

Definition bind {A B : Type} (m : M A) (k : A -> M B) : M B :=
  fun w => match m w with
           | (Ok a, w') => k a w'
           | (Raise e, w') => (Raise e, w')
           end.

Definition lift {A : Type} (r : result A) : M A := fun w => (r, w).

Definition raise {A : Type} (e : exn) : M A := fun w => (Raise e, w).

Declare Scope py_scope.
Delimit Scope py_scope with py.
Notation "x <- m ;; k" := (bind m (fun x => k))
  (at level 100, m at next level, right associativity) : py_scope.
Notation "m ;;; k" := (bind m (fun _ => k))
  (at level 100, right associativity) : py_scope.
Notation "'do' x <- r ; k" := (rbind r (fun x => k))
  (at level 100, r at next level, x name, right associativity) : py_scope.
Open Scope py_scope.

Definition get_disk : M node := fun w => (Ok (disk w), w).

Definition emit (e : event) : M unit :=
  fun w => (Ok tt, {| disk := disk w; earlier := earlier w;
                      log := e :: log w |}).

(** Replace the disk, remembering the state it had. *)
Definition set_disk (d : node) : M unit :=
  fun w => (Ok tt, {| disk := d; earlier := disk w :: earlier w;
                      log := log w |}).

(** [p.exists()]. *)
Definition path_exists (p : path) : M bool :=
  d <- get_disk ;;
  ret (match resolve d p with Some _ => true | None => false end).

(** Create or replace the node at [p], whose parent has to be a directory. *)
Definition write_node (p : path) (new : node) : M unit :=
  d <- get_disk ;;
  match resolve d (parent p) with
  | Some (Dir _) =>
      match put d p new with
      | Some d' => set_disk d'
      | None => raise FileNotFoundError
      end
  | Some (File _) => raise NotADirectoryError
  | None => raise FileNotFoundError
  end.

(** [p.mkdir(exist_ok=True)]: nothing happens when [p] is a directory
    already; the parents are not created. *)
Definition mkdir_exist_ok (p : path) : M unit :=
  d <- get_disk ;;
  match resolve d p with
  | Some (Dir _) => ret tt
  | Some (File _) => raise FileExistsError
  | None => write_node p (Dir []) ;;; emit (Mkdir p)
  end.

(** [torch.save(t, str(p))]: the file is opened for writing at its final
    path, then filled and closed. *)
Definition torch_save (t : tensor R) (p : path) : M unit :=
  d <- get_disk ;;
  match resolve d p with
  | Some (Dir _) => raise IsADirectoryError
  | _ =>
      write_node p (File (Torn t)) ;;;
      emit (OpenForWriting p) ;;;
      write_node p (File (Saved t)) ;;;
      emit (Written p)
  end.

(** [torch.load(p)]. *)
Definition torch_load (p : path) : M (tensor R) :=
  d <- get_disk ;;
  match resolve d p with
  | Some (File (Saved t)) => emit (Loaded p) ;;; ret t
  | Some (File (Torn _)) => raise RuntimeError
  | Some (File (Text _)) => raise UnpicklingError
  | Some (Dir _) => raise IsADirectoryError
  | None => raise FileNotFoundError
  end.

(** The disk states a process interrupted somewhere between [w] and [w'] can
    leave behind: every state of the disk from [w] to [w'], the latest
    first. *)
Definition states_since (w w' : world) : list node :=
  firstn (S (List.length (earlier w') - List.length (earlier w)))
         (disk w' :: earlier w').

(** ** Collaborators of the dataset *)

(** The tokenizer: [encode] and the padding index. *)
Record TAPETokenizer : Type := {
  encode : string -> list Z;
  tok_pad_idx : Z
}.

(** What [tape/utils] provides to the constructor.  [parse_fasta] reads the
    alignment file from the disk and returns the headers and the sequences;
    [hhfilter_sequences] selects (header, sequence) pairs. *)
Record Utils : Type := {
  parse_fasta : node -> path -> bool -> result (list string * list string);
  hhfilter_sequences : list string -> Z -> list (string * string)
}.

(** What Biopython provides: the BLOSUM62 table and the alignment
    procedure. *)
Record Biopython : Type := {
  BLOSUM62 : ascii -> ascii -> Z;
  align_algorithm : Align.scoring -> string -> string -> list Align.alignment
}.

(** A record of the data file. *)
Record Item : Type := {
  primary : string;
  log_fluorescence : list R
}.

(** The state [TAPEDataset.__init__] establishes. *)
Record TAPEDataset : Type := {
  data_path : path;
  split : string;
  tokenizer : TAPETokenizer;
  use_msa : bool;
  data : list Item
}.

(** The attributes the constructor assigns in MSA mode only. *)
Record MsaAttrs : Type := {
  reference : string;
  msa : tensor Z;
  aligner : Align.PairwiseAligner
}.

Record FluorescenceDataset : Type := {
  super :> TAPEDataset;
  return_cached_embeddings : bool;
  msa_attrs : option MsaAttrs
}.

(** Reading one of the MSA attributes of [self]. *)
Definition attr {A : Type} (self : FluorescenceDataset) (f : MsaAttrs -> A)
  : result A :=
  match msa_attrs self with
  | Some a => Ok (f a)
  | None => Raise AttributeError
  end.

(** Modelled from the spec: [TAPEDataset.pad_idx] is not part of the task
    file; the specification names it the tokenizer's padding index. *)
Definition pad_idx (self : FluorescenceDataset) : Z :=
  tok_pad_idx (tokenizer self).

(** [self.data[index]]; the valid indices are [0 .. len(self.data) - 1]. *)
Definition data_at (self : FluorescenceDataset) (index : Z) : result Item :=
  if (index <? 0)%Z then Raise IndexError
  else py_index (data self) (Z.to_nat index).

Definition task_name : string := "fluorescence".

(** What [__getitem__] returns: a dictionary with the keys "src_tokens" and
    "log_fluorescence" and, optionally, "features". *)
Record Bundle : Type := {
  b_src_tokens : tensor Z;
  b_log_fluorescence : tensor R;
  b_features : option (tensor R)
}.

Record NetInput : Type := {
  src_tokens : tensor Z;
  src_lengths : tensor Z;
  features : option (tensor R)
}.

Record Batch : Type := {
  net_input : NetInput;
  target : tensor R
}.

(** The base model, as the dataset uses it. *)
Record ProteinModel : Type := {
  parameters : list device;
  extract_features : NetInput -> result (tensor R)
}.

(** ** FluorescenceDataset *)

Definition init (utils : Utils) (bio : Biopython) (base : TAPEDataset)
           (max_tokens_per_msa : Z) (return_cached : bool)
  : M FluorescenceDataset :=
  if use_msa base then
    let msa_path := data_path base ++ ["fluorescence"; "wtGFP.a3m"]%string in
    d <- get_disk ;;
    parsed <- lift (parse_fasta utils d msa_path true) ;;
    let msa_seqs := snd parsed in
    ref <- lift (py_index msa_seqs 0) ;;
    first <- lift (py_index (data base) 0) ;;
    let seqlen := Z.of_nat (List.length (encode (tokenizer base) (primary first))) in
    if (seqlen =? 0)%Z then raise ZeroDivisionError
    else
      let max_num_sequences := (max_tokens_per_msa / seqlen)%Z in
      let sequences_from_msa := (max_num_sequences - 1)%Z in
      let sequences := hhfilter_sequences utils msa_seqs sequences_from_msa in
      tokens <- lift (stack0
                        (map (fun hs => from_list 0%Z
                                          (encode (tokenizer base) (snd hs)))
                             (py_slice_to sequences sequences_from_msa))) ;;
      ret {| super := base;
             return_cached_embeddings := return_cached;
             msa_attrs :=
               Some {| reference := ref;
                       msa := tokens;
                       aligner := Align.make (align_algorithm bio)
                                             (BLOSUM62 bio) |} |}
  else
    ret {| super := base;
           return_cached_embeddings := return_cached;
           msa_attrs := None |}.

Definition maybe_align_sequence (self : FluorescenceDataset)
           (sequence : string) : result string :=
  if negb (use_msa self) then Ok sequence
  else
    do ref <- attr self reference ;
    if String.length sequence =? String.length ref then Ok sequence
    else
      do al <- attr self aligner ;
      do first <- py_index (Align.align al ref sequence) 0 ;
      py_index (split_on newline (Align.str first)) 2.

(** [self.data_path / self.task_name / "embeddings"]. *)
Definition embedding_dir (self : FluorescenceDataset) : path :=
  data_path self ++ [task_name; "embeddings"%string].

(** The file name of a cached embedding; [str(index)] is the decimal
    numeral. *)
Definition embedding_name (self : FluorescenceDataset) (index : Z) : string :=
  (split self ++ "_" ++ NilZero.string_of_int (Z.to_int index)
     ++ (if use_msa self then "_msa" else "") ++ ".pt")%string.

Definition embedding_file (self : FluorescenceDataset) (index : Z) : path :=
  embedding_dir self ++ [embedding_name self index].

Definition cached_embedding_path (self : FluorescenceDataset) (index : Z)
  : M path :=
  mkdir_exist_ok (embedding_dir self) ;;;
  ret (embedding_file self index).

Definition load_cached_embedding (self : FluorescenceDataset) (index : Z)
  : M (tensor R) :=
  p <- cached_embedding_path self index ;;
  embed <- torch_load p ;;
  ret (requires_grad_false embed).

Definition getitem (self : FluorescenceDataset) (index : Z) : M Bundle :=
  item <- lift (data_at self index) ;;
  sequence <- lift (maybe_align_sequence self (primary item)) ;;
  let query := from_list 0%Z (encode (tokenizer self) sequence) in
  tokens <- (if use_msa self then
               lift (do block <- attr self msa ;
                     cat0 (unsqueeze0 query) block)
             else ret query) ;;
  value <- lift (py_index (log_fluorescence item) 0) ;;
  if return_cached_embeddings self then
    embed <- load_cached_embedding self index ;;
    ret {| b_src_tokens := tokens;
           b_log_fluorescence := scalar value;
           b_features := Some embed |}
  else
    ret {| b_src_tokens := tokens;
           b_log_fluorescence := scalar value;
           b_features := None |}.

(** [[f(el) for el in batch]] where [f] may raise. *)
Fixpoint map_result {A B : Type} (f : A -> result B) (l : list A)
  : result (list B) :=
  match l with
  | [] => Ok []
  | a :: r => do b <- f a ; do bs <- map_result f r ; Ok (b :: bs)
  end.

Definition collate_fn (self : FluorescenceDataset) (batch : list Bundle)
  : result Batch :=
  do tokens <- pad_sequences (map b_src_tokens batch) (pad_idx self) ;
  do widths <- map_result (fun el => size_last (b_src_tokens el)) batch ;
  let lengths := from_list 0%Z (map Z.of_nat widths) in
  do stacked <- stack0 (map b_log_fluorescence batch) ;
  do column <- unsqueeze1 stacked ;
  if return_cached_embeddings self then
    do feats <- map_result
                  (fun el => match b_features el with
                             | Some f => Ok f
                             | None => Raise KeyError
                             end) batch ;
    do padded <- pad_sequences feats 0%R ;
    Ok {| net_input := {| src_tokens := tokens;
                          src_lengths := lengths;
                          features := Some padded |};
          target := column |}
  else
    Ok {| net_input := {| src_tokens := tokens;
                          src_lengths := lengths;
                          features := None |};
          target := column |}.

(** Moving every tensor of the network input to a device. *)
Definition net_input_to (d : device) (n : NetInput) : NetInput :=
  {| src_tokens := to d (src_tokens n);
     src_lengths := to d (src_lengths n);
     features := option_map (to d) (features n) |}.

(** A call of the base model's feature extraction. *)
Definition run_extract_features (base_model : ProteinModel) (n : NetInput)
  : M (tensor R) :=
  emit Forward ;;; lift (extract_features base_model n).

Definition make_embedding (self : FluorescenceDataset)
           (base_model : ProteinModel) (index : Z) : M unit :=
  dev <- lift (match parameters base_model with
               | p :: _ => Ok p
               | [] => Raise StopIteration
               end) ;;
  p <- cached_embedding_path self index ;;
  present <- path_exists p ;;
  if negb present then
    el <- getitem self index ;;
    batch <- lift (collate_fn self [el]) ;;
    let inputs := net_input_to dev (net_input batch) in
    out <- run_extract_features base_model inputs ;;
    embed <- lift (select0 out) ;;
    torch_save (cpu_clone embed) p
  else ret tt.

(** The loop of [make_all_embeddings] over the indices from [index] on. *)
Fixpoint make_embeddings_from (self : FluorescenceDataset)
         (base_model : ProteinModel) (index : Z) (count : nat) : M unit :=
  match count with
  | O => ret tt
  | S n =>
      make_embedding self base_model index ;;;
      make_embeddings_from self base_model (index + 1)%Z n
  end.

(** Modelled from the spec: [TAPEDataset.__len__] is not part of the task
    file; the specification iterates every index of the data. *)
Definition make_all_embeddings (self : FluorescenceDataset)
           (base_model : ProteinModel) : M unit :=
  make_embeddings_from self base_model 0%Z (List.length (data self)).

(** ** FluorescencePredictor *)

Module Predictor.

Local Open Scope R_scope.

(** The parts of the predictor that [forward] uses.  The attention layer is
    [nn.Linear(embedding_dim, 1)]: a weight per feature and a bias.  The
    dropout layer and the two-layer head are kept as functions. *)
Record FluorescencePredictor : Type := {
  base_model : ProteinModel;
  embedding_dim : nat;
  attention_weight : nat -> R;
  attention_bias : R;
  dropout : tensor R -> tensor R;
  mlp : tensor R -> tensor R
}.

(** The sum of [f 0 .. f (n - 1)]. *)
Definition sum_upto (n : nat) (f : nat -> R) : R :=
  fold_right Rplus 0 (map f (seq 0 n)).

(** [self.compute_attention_weights(features)] on features laid out as
    B x L x D, the layout [forward] documents; the result is B x L x 1. *)
Definition compute_attention_weights (self : FluorescencePredictor)
           (x : tensor R) : result (tensor R) :=
  match shape x with
  | [b; l; d] =>
      if (d =? embedding_dim self)%nat then
        Ok {| shape := [b; l; 1%nat];
              item := fun ix =>
                        match ix with
                        | i :: j :: _ =>
                            sum_upto d (fun k => attention_weight self k
                                                 * item x [i; j; k])
                            + attention_bias self
                        | _ => 0
                        end;
              requires_grad := true;
              on_device := on_device x |}
      else Raise RuntimeError
  | _ => Raise RuntimeError
  end.

(** [a /= c]. *)
Definition div_scalar (a : tensor R) (c : R) : tensor R :=
  {| shape := shape a; item := fun ix => item a ix / c;
     requires_grad := requires_grad a; on_device := on_device a |}.

(** [src_lengths - (src_tokens.size(1) - features.size(1))]. *)
Definition effective_lengths (tokens lengths : tensor Z) (feats : tensor R)
  : result (tensor Z) :=
  match shape tokens, shape feats with
  | _ :: t :: _, _ :: l :: _ =>
      Ok {| shape := shape lengths;
            item := fun ix => (item lengths ix
                               - (Z.of_nat t - Z.of_nat l))%Z;
            requires_grad := false;
            on_device := on_device lengths |}
  | _, _ => Raise IndexError
  end.

(** Modelled from the spec: [seqlen_mask] of [tape/utils] is not part of the
    task file.  The specification describes a boolean mask of the valid
    positions, sized to the feature length: position [j] of example [i] is
    valid when [j] is below the example's length. *)
Definition seqlen_mask (x : tensor R) (seqlens : tensor Z)
  : result (tensor bool) :=
  match shape x, shape seqlens with
  | _ :: l :: _, [b] =>
      Ok {| shape := [b; l];
            item := fun ix => match ix with
                              | [i; j] => (Z.of_nat j <? item seqlens [i])%Z
                              | _ => false
                              end;
            requires_grad := false;
            on_device := on_device seqlens |}
  | _, _ => Raise RuntimeError
  end.

(** [a.masked_fill(~mask.unsqueeze(2), v)] for [a] of shape B x L x 1 and
    [mask] of shape B x L. *)
Definition masked_fill_invalid (a : tensor R) (mask : tensor bool) (v : R)
  : result (tensor R) :=
  match shape a, shape mask with
  | [b; l; _], [b'; l'] =>
      if ((b =? b') && (l =? l'))%nat then
        Ok {| shape := shape a;
              item := fun ix =>
                        match ix with
                        | i :: j :: _ =>
                            if item mask [i; j] then item a ix else v
                        | _ => item a ix
                        end;
              requires_grad := requires_grad a;
              on_device := on_device a |}
      else Raise RuntimeError
  | _, _ => Raise RuntimeError
  end.

(** [a.softmax(1)] for [a] of shape B x L x 1. *)
Definition softmax1 (a : tensor R) : tensor R :=
  {| shape := shape a;
     item := fun ix =>
               match ix with
               | i :: j :: r =>
                   exp (item a (i :: j :: r))
                   / sum_upto (nth 1 (shape a) 0%nat)
                              (fun j' => exp (item a (i :: j' :: r)))
               | _ => item a ix
               end;
     requires_grad := requires_grad a;
     on_device := on_device a |}.

(** [(features.transpose(1, 2) @ weights).squeeze(2)]: B x D. *)
Definition pool (feats weights : tensor R) : tensor R :=
  {| shape := [nth 0 (shape feats) 0%nat; nth 2 (shape feats) 0%nat];
     item := fun ix =>
               match ix with
               | [i; k] =>
                   sum_upto (nth 1 (shape feats) 0%nat)
                            (fun j => item feats [i; j; k]
                                      * item weights [i; j; 0%nat])
               | _ => 0
               end;
     requires_grad := requires_grad feats || requires_grad weights;
     on_device := on_device feats |}.

(** The features [forward] works on: those given, or the base model's. *)
Definition forward_features (self : FluorescencePredictor)
           (tokens lengths : tensor Z) (feats : option (tensor R))
  : result (tensor R) :=
  match feats with
  | Some f => Ok f
  | None => extract_features (base_model self)
              {| src_tokens := tokens; src_lengths := lengths;
                 features := None |}
  end.

(** The mask [forward] builds. *)
Definition forward_mask (tokens lengths : tensor Z) (f : tensor R)
  : result (tensor bool) :=
  do eff <- effective_lengths tokens lengths f ;
  seqlen_mask f eff.

(** The scores after [masked_fill], before the softmax. *)
Definition masked_scores (self : FluorescencePredictor)
           (tokens lengths : tensor Z) (f : tensor R) : result (tensor R) :=
  do raw <- compute_attention_weights self f ;
  let scaled := div_scalar raw (sqrt (INR (nth 2 (shape f) 0%nat))) in
  do mask <- forward_mask tokens lengths f ;
  masked_fill_invalid scaled mask (-10000).

(** The attention weights after the softmax, before the dropout. *)
Definition attention (self : FluorescencePredictor)
           (tokens lengths : tensor Z) (f : tensor R) : result (tensor R) :=
  do scores <- masked_scores self tokens lengths f ;
  Ok (softmax1 scores).

Definition forward (self : FluorescencePredictor)
           (tokens lengths : tensor Z) (feats : option (tensor R))
  : result (tensor R) :=
  do f <- forward_features self tokens lengths feats ;
  do weights <- attention self tokens lengths f ;
  let weights := dropout self weights in
  let pooled := pool f weights in
  Ok (mlp self pooled).

End Predictor.

(** ** The training steps of the predictor *)

Module Training.
Import Predictor.

Local Open Scope R_scope.

(** Broadcasting of two shapes, read from the last axis: extents must agree
    or one of them be 1. *)
Fixpoint broadcast_rev (s1 s2 : list nat) : result (list nat) :=
  match s1, s2 with
  | [], s => Ok s
  | s, [] => Ok s
  | n :: r1, m :: r2 =>
      do r <- broadcast_rev r1 r2 ;
      if (n =? m)%nat then Ok (n :: r)
      else if (n =? 1)%nat then Ok (m :: r)
      else if (m =? 1)%nat then Ok (n :: r)
      else Raise RuntimeError
  end.

Definition broadcast_shapes (s1 s2 : list nat) : result (list nat) :=
  do r <- broadcast_rev (rev s1) (rev s2) ;
  Ok (rev r).

(** The index a broadcast index reads in an array of shape [sh], both read
    from the last axis: axes of extent 1 are read at 0, leading axes that the
    array does not have are dropped. *)
Fixpoint project_rev (sh ix : list nat) : list nat :=
  match sh, ix with
  | n :: r, i :: rix => (if (n =? 1)%nat then 0%nat else i) :: project_rev r rix
  | _, _ => []
  end.

Definition project (sh ix : list nat) : list nat :=
  rev (project_rev (rev sh) (rev ix)).

(** All indices of an array of shape [sh], in row-major order. *)
Fixpoint indices (sh : list nat) : list (list nat) :=
  match sh with
  | [] => [[]]
  | n :: r => flat_map (fun i => map (cons i) (indices r)) (seq 0 n)
  end.

Definition sum_over (ixs : list (list nat)) (g : list nat -> R) : R :=
  fold_right Rplus 0 (map g ixs).

(** [nn.MSELoss()(input, target)]: the mean, over the elements of the
    broadcast of the two arrays, of the squared difference.  Floats are
    reals here; for arrays without elements torch returns nan, which has no
    counterpart in the reals.  The arrays of a step are taken to be on one
    device. *)
Definition mse_loss (input target : tensor R) : result R :=
  do sh <- broadcast_shapes (shape input) (shape target) ;
  Ok (sum_over (indices sh)
               (fun ix => (item input (project (shape input) ix)
                           - item target (project (shape target) ix)) ^ 2)
      / INR (List.length (indices sh))).

(** The parameters of the head that [__init__] builds:
    [nn.Sequential(nn.Linear(embedding_dim, hidden_size), nn.ReLU(),
    nn.Linear(hidden_size, 1))]. *)
Record Head : Type := {
  hidden_size : nat;
  weight1 : nat -> nat -> R;
  bias1 : nat -> R;
  weight2 : nat -> R;
  bias2 : R
}.

Definition relu (x : R) : R := Rmax 0 x.

(** The head applied to an array whose last axis has [d] entries. *)
Definition head (d : nat) (h : Head) (x : tensor R) : result (tensor R) :=
  match rev (shape x) with
  | n :: lead =>
      if (n =? d)%nat then
        Ok {| shape := rev (1%nat :: lead);
              item := fun ix =>
                        sum_upto (hidden_size h)
                          (fun u =>
                             weight2 h u
                             * relu (sum_upto d
                                       (fun k => weight1 h u k
                                                 * item x (removelast ix
                                                           ++ [k]))
                                     + bias1 h u))
                        + bias2 h;
              requires_grad := true;
              on_device := on_device x |}
      else Raise RuntimeError
  | [] => Raise RuntimeError
  end.

(** What a step returns. *)
Record Outputs : Type := {
  loss : R;
  o_log_fluorescence : tensor R;
  o_target : Batch
}.

(** The values logged with [self.log], latest first. *)
Definition logs : Type := list (string * R).

Definition compute_loss (self : FluorescencePredictor) (batch : Batch)
           (mode : string) (l : logs) : result Outputs * logs :=
  match forward self (src_tokens (net_input batch))
                (src_lengths (net_input batch))
                (features (net_input batch)) with
  | Raise e => (Raise e, l)
  | Ok log_fluorescence =>
      match mse_loss log_fluorescence (target batch) with
      | Raise e => (Raise e, l)
      | Ok loss =>
          (Ok {| loss := loss;
                 o_log_fluorescence := log_fluorescence;
                 o_target := batch |},
           (("loss/" ++ mode)%string, loss) :: l)
      end
  end.

Definition training_step (self : FluorescencePredictor) (batch : Batch)
           (batch_idx : nat) : logs -> result Outputs * logs :=
  compute_loss self batch "train".

Definition validation_step (self : FluorescencePredictor) (batch : Batch)
           (batch_idx : nat) : logs -> result Outputs * logs :=
  compute_loss self batch "valid".

Definition test_step (self : FluorescencePredictor) (batch : Batch)
           (batch_idx : nat) : logs -> result Outputs * logs :=
  compute_loss self batch "test".

(** [torch.cat(ts, 0)] on a list. *)
Fixpoint cat0_list {A : Type} (ts : list (tensor A)) : result (tensor A) :=
  match ts with
  | [] => Raise RuntimeError
  | [t] => match shape t with
           | [] => Raise RuntimeError
           | _ => Ok t
           end
  | t :: r => do rest <- cat0_list r ; cat0 t rest
  end.

(** [scipy.stats.spearmanr] on two arrays; the first component of its
    result. *)
Record Scipy : Type := {
  spearmanr : tensor R -> tensor R -> result R
}.

(** The first three lines of [validation_epoch_end] and of
    [test_epoch_end]. *)
Definition epoch_correlation (scipy : Scipy) (outputs : list Outputs)
  : result R :=
  do predictions <- cat0_list (map o_log_fluorescence outputs) ;
  do targets <- cat0_list (map (fun step => target (o_target step)) outputs) ;
  spearmanr scipy (to CPU predictions) (to CPU targets).

Definition validation_epoch_end (scipy : Scipy) (outputs : list Outputs)
           (l : logs) : result unit * logs :=
  match epoch_correlation scipy outputs with
  | Raise e => (Raise e, l)
  | Ok corr => (Ok tt, ("spearmanr/valid"%string, corr) :: l)
  end.

Definition test_epoch_end (scipy : Scipy) (outputs : list Outputs)
           (l : logs) : result unit * logs :=
  match epoch_correlation scipy outputs with
  | Raise e => (Raise e, l)
  | Ok corr => (Ok tt, ("spearmanr/test"%string, corr) :: l)
  end.

End Training.

(** ** Vocabulary of the statements *)

(** The extent of a tensor along its last axis ([size(-1)]). *)
Definition width {A : Type} (t : tensor A) : nat := last (shape t) 0.

(** A bundle as [__getitem__] of [self] builds them: token arrays of
    [S rank] dimensions, a zero-dimensional target and, when cached embeddings
    are returned, features of [S frank] dimensions. *)
Definition bundle_ok (self : FluorescenceDataset) (rank frank : nat)
           (el : Bundle) : Prop :=
  ndim (b_src_tokens el) = S rank
  /\ shape (b_log_fluorescence el) = []
  /\ (return_cached_embeddings self = true ->
      exists f, b_features el = Some f /\ ndim f = S frank).

(** The world after a disk change. *)
Definition changed (w : world) (d : node) : world :=
  {| disk := d; earlier := disk w :: earlier w; log := log w |}.

(** The world after an effect was logged. *)
Definition logged (w : world) (e : event) : world :=
  {| disk := disk w; earlier := earlier w; log := e :: log w |}.

(** A property of worlds that a computation never breaks. *)
Definition preserves {A : Type} (P : world -> Prop) (m : M A) : Prop :=
  forall w, P w -> P (snd (m w)).

(** The embeddings directory of [self] exists in [w]. *)
Definition has_embedding_dir (self : FluorescenceDataset) (w : world) : Prop :=
  exists es, resolve (disk w) (embedding_dir self) = Some (Dir es).

(** The disk and its history are those of [w0]. *)
Definition same_disk (w0 w : world) : Prop :=
  disk w = disk w0 /\ earlier w = earlier w0.

(** A property of the disk and its history, which logging cannot break. *)
Definition log_blind (P : world -> Prop) : Prop :=
  forall w e, P w -> P (logged w e).

(** On the disk [d], the entries of the embeddings directory other than the
    one of [index] are as they are in [w0]. *)
Definition other_entries_kept (self : FluorescenceDataset) (index : Z)
           (w0 : world) (d : node) : Prop :=
  forall c, c <> embedding_name self index ->
            resolve d (embedding_dir self ++ [c])
            = resolve (disk w0) (embedding_dir self ++ [c]).

(** On the disk [d], the cache entry of [index] is as it is in [w0], or
    absent, or partially written, or complete. *)
Definition entry_state (self : FluorescenceDataset) (index : Z)
           (w0 : world) (d : node) : Prop :=
  resolve d (embedding_file self index)
  = resolve (disk w0) (embedding_file self index)
  \/ resolve d (embedding_file self index) = None
  \/ exists t,
      resolve d (embedding_file self index) = Some (File (Torn t))
      \/ resolve d (embedding_file self index) = Some (File (Saved t)).

(** The world [w] was reached from [w0] through disk states that are all
    [good]. *)
Definition history_all (good : node -> Prop) (w0 w : world) : Prop :=
  exists k, disk w :: earlier w = k ++ disk w0 :: earlier w0
            /\ Forall good k.

(** Is every character of [s] a decimal digit or a minus sign? *)
Definition decimal_char (c : ascii) : bool :=
  let n := nat_of_ascii c in
  ((48 <=? n) && (n <=? 57)) || (n =? 45).

Fixpoint all_decimal (s : string) : bool :=
  match s with
  | EmptyString => true
  | String c r => decimal_char c && all_decimal r
  end.

(** How often [c] occurs in [s]. *)
Fixpoint occurrences (c : ascii) (s : string) : nat :=
  match s with
  | EmptyString => 0
  | String c' r => (if Ascii.eqb c' c then 1 else 0) + occurrences c r
  end.

(** The cache entry of [index] is on the disk of [w]. *)
Definition cached (self : FluorescenceDataset) (index : Z) (w : world) : Prop :=
  exists n, resolve (disk w) (embedding_file self index) = Some n.

(** The path of the alignment file the constructor reads. *)
Definition msa_path (base : TAPEDataset) : path :=
  data_path base ++ ["fluorescence"; "wtGFP.a3m"]%string.

(** The head of [self] is the two-layer network with the parameters [h]. *)
Definition has_head (self : Predictor.FluorescencePredictor)
           (h : Training.Head) : Prop :=
  forall x y,
    Training.head (Predictor.embedding_dim self) h x = Ok y ->
    Predictor.mlp self x = y.

(** The mean squared error of the rows of [pred] against the targets of the
    bundles of [batch]. *)
Definition batch_mean_squared_error (pred : tensor R) (batch : list Bundle)
  : R :=
  (Predictor.sum_upto (List.length batch)
     (fun i : nat => (item pred [i; 0%nat]
                - item (b_log_fluorescence
                          (nth i batch {| b_src_tokens := scalar 0%Z;
                                          b_log_fluorescence := scalar 0%R;
                                          b_features := None |})) []) ^ 2)
   / INR (List.length batch))%R.

(** The extents of arrays along their first axis. *)
Definition heights {A : Type} (ts : list (tensor A)) : list nat :=
  map (fun t => hd 0 (shape t)) ts.

(** The number of examples in the steps of an epoch. *)
Definition examples (outputs : list Training.Outputs) : nat :=
  fold_right Nat.add 0
             (map (fun step => hd 0 (shape (Training.o_log_fluorescence step)))
                  outputs).

(** The row of the epoch's arrays that holds example [i] of step [k]. *)
Definition epoch_row (outputs : list Training.Outputs) (k i : nat) : nat :=
  examples (firstn k outputs) + i.

(** ** Concrete collaborators

    Small stand-ins for the collaborators, used to run the model on concrete
    inputs. *)

Module Demo.

(** An alignment procedure for settings that forbid gaps in the target: it
    lists every global alignment without such a gap and keeps those of the
    best score. *)
Fixpoint gapless (t q : string) : list Align.alignment :=
  match t with
  | EmptyString =>
      match q with
      | EmptyString => [[]]
      | String _ _ => []
      end
  | String a t' =>
      map (cons (Align.GapInQuery a)) (gapless t' q)
      ++ match q with
         | String b q' => map (cons (Align.Both a b)) (gapless t' q')
         | EmptyString => []
         end
  end.

Definition score_leb (x y : Align.score) : bool :=
  match x, y with
  | Align.NegInf, _ => true
  | Align.Fin _, Align.NegInf => false
  | Align.Fin a, Align.Fin b => (a <=? b)%Z
  end.

Definition best_of (s : Align.scoring) (cands : list Align.alignment)
  : list Align.alignment :=
  filter (fun a => forallb (fun c => score_leb (Align.score_of s c)
                                               (Align.score_of s a)) cands)
         cands.

Definition no_target_gap_algorithm (s : Align.scoring) (t q : string)
  : list Align.alignment :=
  best_of s (gapless t q).

(** A substitution table: 4 for equal letters, -1 otherwise. *)
Definition identity_matrix (a b : ascii) : Z :=
  if Ascii.eqb a b then 4%Z else (-1)%Z.

Definition bio : Biopython :=
  {| BLOSUM62 := identity_matrix;
     align_algorithm := no_target_gap_algorithm |}.

(** A character-level tokenizer: a start token, one token per letter, a stop
    token; the padding index is 0. *)
Definition char_tokenizer : TAPETokenizer :=
  {| encode := fun s => 2%Z :: map (fun c => Z.of_nat (nat_of_ascii c))
                                   (list_ascii_of_string s) ++ [3%Z];
     tok_pad_idx := 0%Z |}.

Definition record (s : string) (v : R) : Item :=
  {| primary := s; log_fluorescence := [v] |}.

Definition base (msa_mode : bool) (items : list Item) : TAPEDataset :=
  {| data_path := ["data"%string];
     split := "train"%string;
     tokenizer := char_tokenizer;
     use_msa := msa_mode;
     data := items |}.

(** A dataset in MSA mode with reference [ref] and context rows [rows]. *)
Definition msa_dataset (items : list Item) (cached : bool) (ref : string)
           (block : tensor Z) : FluorescenceDataset :=
  {| super := base true items;
     return_cached_embeddings := cached;
     msa_attrs := Some {| reference := ref;
                          msa := block;
                          aligner := Align.make no_target_gap_algorithm
                                                identity_matrix |} |}.

(** A dataset without MSA. *)
Definition plain_dataset (items : list Item) (cached : bool)
  : FluorescenceDataset :=
  {| super := base false items;
     return_cached_embeddings := cached;
     msa_attrs := None |}.

Definition empty_block : tensor Z :=
  {| shape := [0; 0]; item := fun _ => 0%Z;
     requires_grad := false; on_device := CPU |}.

(** A dataset in MSA mode whose reference is "MSK". *)
Definition gfp_msa : FluorescenceDataset :=
  msa_dataset [record "MSK" 1%R; record "MK" 2%R] false "MSK" empty_block.

(** A dataset without MSA. *)
Definition gfp_plain : FluorescenceDataset :=
  plain_dataset [record "MSK" 1%R; record "MK" 2%R] false.

(** A reader for alignment files that hold one sequence per line and no
    headers, and a filter that keeps the whole alignment. *)
Definition utils : Utils :=
  {| parse_fasta := fun d p _ =>
                      match resolve d p with
                      | Some (File (Text s)) => Ok ([], split_on newline s)
                      | _ => Raise FileNotFoundError
                      end;
     hhfilter_sequences := fun seqs _ => map (fun s => (EmptyString, s)) seqs |}.

(** A disk with the task directory and an alignment of four sequences. *)
Definition gfp_alignment : string :=
  ("MSKGE" ++ String newline ("MSKGA" ++ String newline
     ("MTKGE" ++ String newline "MSRGE")))%string.

Definition task_dir : node :=
  Dir [("wtGFP.a3m"%string, File (Text gfp_alignment))].

Definition disk0 : node :=
  Dir [("data"%string, Dir [("fluorescence"%string, task_dir)])].

Definition world0 : world :=
  {| disk := disk0; earlier := []; log := [] |}.

(** A dataset without MSA that returns cached embeddings. *)
Definition gfp_cached : FluorescenceDataset :=
  plain_dataset [record "MSK" 1%R; record "MK" 2%R] true.

(** Features of [n] positions and two channels, all equal to [v]. *)
Definition constant_features (n : nat) (v : R) : tensor R :=
  {| shape := [n; 2]; item := fun _ => v;
     requires_grad := false; on_device := CPU |}.

(** A bundle of [n] tokens, all 7, with its features. *)
Definition bundle (n : nat) (v : R) : Bundle :=
  {| b_src_tokens := from_list 0%Z (repeat 7%Z n);
     b_log_fluorescence := scalar v;
     b_features := Some (constant_features n v) |}.

(** Three bundles of 10, 15 and 12 tokens. *)
Definition batch3 : list Bundle :=
  [bundle 10 1%R; bundle 15 2%R; bundle 12 3%R].

(** A context block of two encoded sequences, and a dataset in MSA mode that
    uses it. *)
Definition context_block : tensor Z :=
  {| shape := [2; 5];
     item := fun ix =>
               match ix with
               | [i; j] => nth j (encode char_tokenizer
                                         (nth i ["MSK"; "MTK"]%string
                                              EmptyString)) 0%Z
               | _ => 0%Z
               end;
     requires_grad := false;
     on_device := CPU |}.

Definition gfp_msa_context : FluorescenceDataset :=
  msa_dataset [record "MSK" 1%R; record "MK" 2%R] false "MSK" context_block.

(** A base model on the CPU whose features have two channels, all 1. *)
Definition model : ProteinModel :=
  {| parameters := [CPU];
     extract_features := fun n =>
       Ok {| shape := [hd 0 (shape (src_tokens n));
                       last (shape (src_tokens n)) 0; 2];
             item := fun _ => 1%R;
             requires_grad := true;
             on_device := CPU |} |}.

(** A disk whose cache holds the embedding of the first training record. *)
Definition cached_disk : node :=
  Dir [("data"%string,
        Dir [("fluorescence"%string,
              Dir [("wtGFP.a3m"%string, File (Text gfp_alignment));
                   ("embeddings"%string,
                    Dir [("train_0.pt"%string,
                          File (Saved (constant_features 5 1%R)))])])])].

Definition cached_world : world :=
  {| disk := cached_disk; earlier := []; log := [] |}.

(** A disk without the data directory. *)
Definition bare_world : world :=
  {| disk := Dir []; earlier := []; log := [] |}.

(** A process that starts on the disk [d]. *)
Definition restart (d : node) : world :=
  {| disk := d; earlier := []; log := [] |}.

(** A predictor over two channels: unit attention weights, no bias, and the
    identity for the dropout layer and the head. *)
Definition predictor : Predictor.FluorescencePredictor :=
  {| Predictor.base_model := model;
     Predictor.embedding_dim := 2;
     Predictor.attention_weight := fun _ => 1%R;
     Predictor.attention_bias := 0%R;
     Predictor.dropout := fun t => t;
     Predictor.mlp := fun t => t |}.

(** A batch of one example of two tokens, padded to three, whose features
    cover one position. *)
Definition short_tokens : tensor Z :=
  {| shape := [1; 3];
     item := fun ix => match ix with
                       | [_; 0] => 2%Z
                       | [_; 1] => 3%Z
                       | _ => 0%Z
                       end;
     requires_grad := false; on_device := CPU |}.

Definition short_lengths : tensor Z := from_list 0%Z [2%Z].

Definition short_features : tensor R :=
  {| shape := [1; 1; 2]; item := fun _ => 1%R;
     requires_grad := false; on_device := CPU |}.

End Demo.

(** ** Further concrete inputs *)

Module Demo2.

(** A bundle in MSA mode: two rows of [n] tokens. *)
Definition msa_bundle (n : nat) (v : R) : Bundle :=
  {| b_src_tokens := {| shape := [2; n]; item := fun _ => 7%Z;
                        requires_grad := false; on_device := CPU |};
     b_log_fluorescence := scalar v;
     b_features := None |}.

(** A head with one hidden unit that adds the two channels. *)
Definition adding_head : Training.Head :=
  {| Training.hidden_size := 1;
     Training.weight1 := fun _ _ => 1%R;
     Training.bias1 := fun _ => 0%R;
     Training.weight2 := fun _ => 1%R;
     Training.bias2 := 0%R |}.

(** The predictor of [Demo] with that head. *)
Definition head_predictor : Predictor.FluorescencePredictor :=
  {| Predictor.base_model := Demo.model;
     Predictor.embedding_dim := 2;
     Predictor.attention_weight := fun _ => 1%R;
     Predictor.attention_bias := 0%R;
     Predictor.dropout := fun t => t;
     Predictor.mlp := fun x => match Training.head 2 adding_head x with
                               | Ok y => y
                               | Raise _ => x
                               end |}.

(** The outputs of a step over [n] examples: predictions [p], targets [y]. *)
Definition step_outputs (n : nat) (p y : R) : Training.Outputs :=
  {| Training.loss := ((p - y) ^ 2)%R;
     Training.o_log_fluorescence :=
       {| shape := [n; 1]; item := fun _ => p;
          requires_grad := false; on_device := CPU |};
     Training.o_target :=
       {| net_input := {| src_tokens := from_list 0%Z [];
                          src_lengths := from_list 0%Z [];
                          features := None |};
          target := {| shape := [n; 1]; item := fun _ => y;
                       requires_grad := false; on_device := CPU |} |} |}.

(** Rank correlation replaced by the difference of the first entries. *)
Definition first_difference : Training.Scipy :=
  {| Training.spearmanr := fun a b =>
       if shape_eqb (shape a) (shape b)
       then Ok (item a [0%nat; 0%nat] - item b [0%nat; 0%nat])%R
       else Raise ValueError |}.

(** A disk on which the cache file of the first training record was only
    partly written. *)
Definition torn_disk : node :=
  Dir [("data"%string,
        Dir [("fluorescence"%string,
              Dir [("wtGFP.a3m"%string, File (Text Demo.gfp_alignment));
                   ("embeddings"%string,
                    Dir [("train_0.pt"%string,
                          File (Torn (Demo.constant_features 5 1%R)))])])])].

Definition torn_world : world :=
  {| disk := torn_disk; earlier := []; log := [] |}.

(** Records for a dataset in MSA mode: one as long as the reference of
    [Demo.gfp_alignment], one shorter, one longer. *)
Definition msa_records : list Item :=
  [Demo.record "MSKGE" 1%R; Demo.record "MSKG" 2%R;
   Demo.record "MSKGEEL" 3%R].

End Demo2.

(** * Properties *)

Unset Implicit Arguments.

(** ** Strings and lines *)

Lemma split_on_line (r rest : string) :
  no_newline r = true ->
  split_on newline (r ++ String newline rest) = r :: split_on newline rest.
Proof.
  induction r as [|c r IH]; simpl; intro H.
  - reflexivity.
  - apply andb_true_iff in H as [Hc Hr].
    apply negb_true_iff in Hc. rewrite Hc, (IH Hr). reflexivity.
Qed.

(** ** Alignments *)

Module AlignFacts.
Import Align.

Lemma query_row_length (a : alignment) :
  String.length (query_row a) = List.length a.
Proof. induction a as [|[] a IH]; simpl; congruence. Qed.

Lemma columns_by_target (a : alignment) :
  List.length a = String.length (target_seq a) + target_gaps a.
Proof. induction a as [|[] a IH]; simpl; lia. Qed.

Lemma columns_cover_query (a : alignment) :
  String.length (query_seq a) <= List.length a.
Proof. induction a as [|[] a IH]; simpl; lia. Qed.

Lemma target_row_gapless (a : alignment) :
  target_gaps a = 0 -> target_row a = target_seq a.
Proof.
  induction a as [|[] a IH]; simpl; intro H;
    try discriminate; try rewrite IH; auto.
Qed.

Lemma target_row_no_newline (a : alignment) :
  no_newline (target_seq a) = true -> no_newline (target_row a) = true.
Proof.
  induction a as [|[] a IH]; simpl; auto.
  - intro H. apply andb_true_iff in H as [-> H]. simpl. auto.
  - intro H. apply andb_true_iff in H as [-> H]. simpl. auto.
Qed.

Lemma query_row_no_newline (a : alignment) :
  no_newline (query_seq a) = true -> no_newline (query_row a) = true.
Proof.
  induction a as [|[] a IH]; simpl; auto.
  - intro H. apply andb_true_iff in H as [-> H]. simpl. auto.
  - intro H. apply andb_true_iff in H as [-> H]. simpl. auto.
Qed.

Lemma pattern_row_no_newline (a : alignment) :
  no_newline (pattern_row a) = true.
Proof.
  induction a as [|[t q| |] a IH]; simpl; auto.
  destruct (Ascii.eqb t q); simpl; auto.
Qed.

(** The third line of [str a] is the query row. *)
Lemma str_third_line (a : alignment) :
  no_newline (target_seq a) = true ->
  no_newline (query_seq a) = true ->
  py_index (split_on newline (str a)) 2 = Ok (query_row a).
Proof.
  intros Ht Hq. unfold str.
  rewrite split_on_line by (apply target_row_no_newline; assumption).
  rewrite split_on_line by apply pattern_row_no_newline.
  rewrite split_on_line by (apply query_row_no_newline; assumption).
  reflexivity.
Qed.

(** With an infinite penalty for opening a gap in the target, an alignment
    with such a gap has no finite score. *)
Lemma target_gap_is_fatal (s : scoring) (a : alignment) (prev : last_column) :
  target_open_gap_score s = NegInf ->
  prev <> InTargetGap ->
  0 < target_gaps a ->
  score_from s prev a = NegInf.
Proof.
  intros Hopen. revert prev.
  induction a as [|c a IH]; simpl; intros prev Hprev Hgaps.
  - lia.
  - destruct c.
    + rewrite (IH NoGap) by (congruence || assumption).
      destruct (substitution_matrix s t q); reflexivity.
    + destruct prev; try congruence; rewrite Hopen; reflexivity.
    + rewrite (IH InQueryGap) by (congruence || assumption).
      destruct prev; destruct (query_extend_gap_score s);
        destruct (query_open_gap_score s); reflexivity.
Qed.

(** Without a gap in the target, and finite gap scores for the query, the
    score is finite. *)
Lemma gapless_score_finite (s : scoring) (a : alignment) (prev : last_column) :
  (exists o, query_open_gap_score s = Fin o) ->
  (exists e, query_extend_gap_score s = Fin e) ->
  target_gaps a = 0 ->
  exists z, score_from s prev a = Fin z.
Proof.
  intros [o Ho] [e He]. revert prev.
  induction a as [|c a IH]; simpl; intros prev Hgaps.
  - eauto.
  - destruct c.
    + destruct (IH NoGap Hgaps) as [z ->]. simpl. eauto.
    + discriminate.
    + destruct (IH InQueryGap Hgaps) as [z ->].
      rewrite Ho, He. destruct prev; simpl; eauto.
Qed.

Lemma left_justified_global (t q : string) :
  String.length q <= String.length t ->
  global t q (left_justified t q) /\ target_gaps (left_justified t q) = 0.
Proof.
  revert q. induction t as [|a t IH]; intros q Hlen.
  - destruct q; simpl in *; [repeat split | lia].
  - destruct q as [|b q]; simpl in *.
    + destruct (IH EmptyString) as [[Ht Hq] Hg]; [simpl; lia|].
      unfold global. simpl. rewrite Ht, Hq. auto.
    + destruct (IH q) as [[Ht Hq] Hg]; [lia|].
      unfold global. simpl. rewrite Ht, Hq. auto.
Qed.

Lemma make_forbids_target_gaps algorithm m :
  forbids_target_gaps (settings (make algorithm m)).
Proof. unfold forbids_target_gaps; simpl; eauto. Qed.

(** A query no longer than the target: the first alignment exists and its
    query row is as long as the target. *)
Lemma first_alignment_fits (al : PairwiseAligner) (t q : string) :
  optimal_global al ->
  forbids_target_gaps (settings al) ->
  String.length q <= String.length t ->
  exists a rest,
    align al t q = a :: rest
    /\ global t q a
    /\ target_gaps a = 0
    /\ String.length (query_row a) = String.length t.
Proof.
  intros Hopt (Hopen & Hqo & Hqe) Hlen.
  destruct (left_justified_global t q Hlen) as [Hglob Hgaps].
  destruct (gapless_score_finite (settings al) (left_justified t q) NoGap
              Hqo Hqe Hgaps) as [z Hz].
  destruct (align al t q) as [|a rest] eqn:Hal.
  - exfalso. eapply (align_some Hopt); eauto.
  - exists a, rest. split; [reflexivity|].
    assert (Hin : In a (align al t q)) by (rewrite Hal; left; reflexivity).
    assert (Hga : global t q a) by (eapply (align_global Hopt); eauto).
    split; [exact Hga|].
    assert (Hbest : le (score_of (settings al) (left_justified t q))
                       (score_of (settings al) a))
      by (eapply (align_best Hopt); eauto).
    unfold score_of in Hbest, Hz. rewrite Hz in Hbest.
    destruct (Nat.eq_dec (target_gaps a) 0) as [H0|Hpos].
    + split; [exact H0|].
      rewrite query_row_length, columns_by_target, H0.
      destruct Hga as [-> _]. lia.
    + rewrite (target_gap_is_fatal (settings al) a NoGap)
        in Hbest by (assumption || congruence || lia).
      contradiction.
Qed.

End AlignFacts.

(** ** The concrete alignment procedure meets the library's contract *)

Module DemoFacts.
Import Align AlignFacts Demo.

Lemma score_leb_le (x y : score) : score_leb x y = true <-> le x y.
Proof.
  destruct x, y; simpl; try tauto; try (split; [discriminate | tauto]).
  apply Z.leb_le.
Qed.

Lemma score_leb_total (x y : score) :
  score_leb x y = true \/ score_leb y x = true.
Proof. destruct x, y; simpl; auto. lia. Qed.

Lemma score_leb_trans (x y z : score) :
  score_leb x y = true -> score_leb y z = true -> score_leb x z = true.
Proof. destruct x, y, z; simpl; auto; try discriminate. lia. Qed.

Lemma gapless_sound (t q : string) (a : alignment) :
  In a (gapless t q) -> global t q a /\ target_gaps a = 0.
Proof.
  revert q a. induction t as [|c t IH]; intros q a Hin.
  - destruct q; simpl in Hin; [|contradiction].
    destruct Hin as [<-|[]]. repeat split.
  - simpl in Hin. apply in_app_or in Hin as [Hin|Hin].
    + apply in_map_iff in Hin as (a0 & <- & Hin).
      destruct (IH _ _ Hin) as [[Ht Hq] Hg].
      unfold global. simpl. rewrite Ht, Hq. auto.
    + destruct q as [|b q]; [contradiction|].
      apply in_map_iff in Hin as (a0 & <- & Hin).
      destruct (IH _ _ Hin) as [[Ht Hq] Hg].
      unfold global. simpl. rewrite Ht, Hq. auto.
Qed.

Lemma gapless_complete (a : alignment) :
  target_gaps a = 0 -> In a (gapless (target_seq a) (query_seq a)).
Proof.
  induction a as [|c a IH]; simpl; intro Hg.
  - left; reflexivity.
  - destruct c; simpl.
    + apply in_or_app. right. apply in_map. auto.
    + discriminate.
    + apply in_or_app. left. apply in_map. auto.
Qed.

Lemma best_of_spec (s : scoring) (cands : list alignment) (a : alignment) :
  In a (best_of s cands) <->
  In a cands /\ forall c, In c cands -> le (score_of s c) (score_of s a).
Proof.
  unfold best_of. rewrite filter_In, forallb_forall.
  split; intros [Hin H]; split; auto; intros c Hc.
  - apply score_leb_le. auto.
  - apply score_leb_le. auto.
Qed.

(** A non-empty list of candidates has one of the best score. *)
Lemma best_exists (s : scoring) (cands : list alignment) :
  cands <> [] ->
  exists a, In a cands
            /\ forall c, In c cands ->
                         score_leb (score_of s c) (score_of s a) = true.
Proof.
  induction cands as [|c0 cands IH]; [congruence|]. intros _.
  destruct cands as [|c1 cands].
  - exists c0. split; [left; reflexivity|].
    intros c [<-|[]]. destruct (score_leb_total (score_of s c0) (score_of s c0)); auto.
  - destruct IH as (m & Hm & Hmax); [discriminate|].
    destruct (score_leb_total (score_of s c0) (score_of s m)) as [Hle|Hle].
    + exists m. split; [right; exact Hm|].
      intros c [<-|Hc]; auto.
    + exists c0. split; [left; reflexivity|].
      intros c [<-|Hc].
      * destruct (score_leb_total (score_of s c0) (score_of s c0)); auto.
      * eapply score_leb_trans; [apply Hmax; exact Hc | exact Hle].
Qed.

Lemma no_target_gap_algorithm_optimal (m : ascii -> ascii -> Z) :
  optimal_global (make no_target_gap_algorithm m).
Proof.
  pose proof (make_forbids_target_gaps no_target_gap_algorithm m)
    as (Hopen & Hqo & Hqe).
  constructor; simpl align; unfold no_target_gap_algorithm.
  - intros t q a Hin. apply best_of_spec in Hin as [Hin _].
    apply gapless_sound in Hin. tauto.
  - intros t q a a' Hin [Ht Hq]. apply best_of_spec in Hin as [Hin Hbest].
    destruct (Nat.eq_dec (target_gaps a') 0) as [H0|Hpos].
    + apply Hbest. subst t q. apply gapless_complete. exact H0.
    + unfold score_of at 1.
      rewrite (target_gap_is_fatal _ a' NoGap)
        by (assumption || congruence || lia).
      exact I.
  - intros t q a' z [Ht Hq] Hz Hnil.
    destruct (Nat.eq_dec (target_gaps a') 0) as [H0|Hpos].
    + pose proof (gapless_complete a' H0) as Hin. rewrite Ht, Hq in Hin.
      destruct (best_exists (make no_target_gap_algorithm m).(settings)
                  (gapless t q)) as (b & Hb & Hmax).
      { intro Hc. rewrite Hc in Hin. contradiction. }
      assert (Hbest : In b (best_of (settings (make no_target_gap_algorithm m))
                                    (gapless t q))).
      { apply best_of_spec. split; [exact Hb|].
        intros c Hc. apply score_leb_le. auto. }
      cbn [settings make] in Hbest. rewrite Hnil in Hbest. contradiction.
    + unfold score_of in Hz.
      rewrite (target_gap_is_fatal _ a' NoGap) in Hz
        by (assumption || congruence || lia).
      discriminate.
Qed.

End DemoFacts.

(** ** maybe_align_sequence *)

(** C5.  A query as long as the reference, and any query when MSA mode is
    off, is returned unchanged. *)
Theorem maybe_align_sequence_identity
        (self : FluorescenceDataset) (sequence : string) :
  use_msa self = false
  \/ (exists a, msa_attrs self = Some a
                /\ String.length sequence = String.length (reference a)) ->
  maybe_align_sequence self sequence = Ok sequence.
Proof.
  unfold maybe_align_sequence, attr.
  intros [Hoff | (a & Ha & Hlen)].
  - rewrite Hoff. reflexivity.
  - destruct (use_msa self); [|reflexivity]. simpl.
    rewrite Ha. simpl. rewrite Hlen, Nat.eqb_refl. reflexivity.
Qed.

Lemma maybe_align_sequence_identity_witness :
  maybe_align_sequence Demo.gfp_msa "MTK" = Ok "MTK"%string
  /\ maybe_align_sequence Demo.gfp_plain "MK" = Ok "MK"%string.
Proof.
  split.
  - apply maybe_align_sequence_identity. right.
    eexists. split; reflexivity.
  - apply maybe_align_sequence_identity. left. reflexivity.
Defined.

(** What a call on a query of another length returns is the query row of the
    first alignment. *)
Lemma maybe_align_sequence_first_row
      (self : FluorescenceDataset) (a : MsaAttrs) (sequence : string)
      (first : Align.alignment) (rest : list Align.alignment) :
  use_msa self = true ->
  msa_attrs self = Some a ->
  String.length sequence <> String.length (reference a) ->
  Align.align (aligner a) (reference a) sequence = first :: rest ->
  Align.global (reference a) sequence first ->
  no_newline (reference a) = true ->
  no_newline sequence = true ->
  maybe_align_sequence self sequence = Ok (Align.query_row first).
Proof.
  intros Hmsa Ha Hlen Hal [Ht Hq] Hnr Hns.
  unfold maybe_align_sequence, attr. rewrite Hmsa, Ha. simpl.
  apply Nat.eqb_neq in Hlen. rewrite Hlen, Hal. simpl.
  apply AlignFacts.str_third_line; congruence.
Qed.

(** A query longer than the reference never comes back with the reference's
    length: the call raises, or the row it returns is longer. *)
Lemma maybe_align_sequence_longer
      (self : FluorescenceDataset) (a : MsaAttrs) (sequence s : string) :
  use_msa self = true ->
  msa_attrs self = Some a ->
  Align.optimal_global (aligner a) ->
  no_newline (reference a) = true ->
  no_newline sequence = true ->
  String.length (reference a) < String.length sequence ->
  maybe_align_sequence self sequence = Ok s ->
  String.length (reference a) < String.length s.
Proof.
  intros Hmsa Ha Hopt Hnr Hns Hlen Hres.
  destruct (Align.align (aligner a) (reference a) sequence)
    as [|first rest] eqn:Hal.
  - unfold maybe_align_sequence, attr in Hres. rewrite Hmsa, Ha in Hres.
    simpl in Hres.
    replace (String.length sequence =? String.length (reference a))
      with false in Hres by (symmetry; apply Nat.eqb_neq; lia).
    rewrite Hal in Hres. discriminate.
  - assert (Hg : Align.global (reference a) sequence first).
    { eapply (Align.align_global Hopt). rewrite Hal. left. reflexivity. }
    rewrite (maybe_align_sequence_first_row self a sequence first rest
               Hmsa Ha ltac:(lia) Hal Hg Hnr Hns) in Hres.
    injection Hres as <-.
    rewrite AlignFacts.query_row_length.
    pose proof (AlignFacts.columns_cover_query first) as Hc.
    destruct Hg as [_ Hq]. rewrite Hq in Hc. lia.
Qed.

(** C1, amended.  In MSA mode, with an aligner that returns optimal global
    alignments and may not open gaps in the target, a query shorter than the
    reference comes back with exactly the reference's length: it is the query
    row of an alignment whose target row is the reference itself and whose
    query row, gaps removed, is the query.  A query longer than the reference
    never comes back with the reference's length. *)
Theorem maybe_align_sequence_reference_length
        (self : FluorescenceDataset) (a : MsaAttrs) (sequence : string) :
  use_msa self = true ->
  msa_attrs self = Some a ->
  Align.optimal_global (aligner a) ->
  Align.forbids_target_gaps (Align.settings (aligner a)) ->
  no_newline (reference a) = true ->
  no_newline sequence = true ->
  (String.length sequence < String.length (reference a) ->
   exists s first,
     maybe_align_sequence self sequence = Ok s
     /\ String.length s = String.length (reference a)
     /\ s = Align.query_row first
     /\ Align.query_seq first = sequence
     /\ Align.target_row first = reference a)
  /\ (String.length (reference a) < String.length sequence ->
      forall s, maybe_align_sequence self sequence = Ok s ->
                String.length (reference a) < String.length s).
Proof.
  intros Hmsa Ha Hopt Hforbid Hnr Hns. split.
  - intro Hlen.
    destruct (AlignFacts.first_alignment_fits (aligner a) (reference a)
                sequence Hopt Hforbid ltac:(lia))
      as (first & rest & Hal & Hg & Hgaps & Hrow).
    exists (Align.query_row first), first.
    split; [|split; [exact Hrow|]].
    + eapply maybe_align_sequence_first_row; eauto. lia.
    + split; [reflexivity|]. destruct Hg as [Ht Hq]. split; [exact Hq|].
      rewrite (AlignFacts.target_row_gapless first Hgaps). exact Ht.
  - intros Hlen s Hres.
    eapply maybe_align_sequence_longer; eauto.
Qed.

Lemma maybe_align_sequence_reference_length_witness :
  exists s first,
    maybe_align_sequence Demo.gfp_msa "MK" = Ok s
    /\ String.length s = 3
    /\ s = Align.query_row first
    /\ Align.query_seq first = "MK"%string
    /\ Align.target_row first = "MSK"%string.
Proof.
  refine (proj1 (maybe_align_sequence_reference_length
                   Demo.gfp_msa
                   {| reference := "MSK";
                      msa := Demo.empty_block;
                      aligner := Align.make Demo.no_target_gap_algorithm
                                            Demo.identity_matrix |}
                   "MK" _ _ _ _ _ _) _).
  - reflexivity.
  - reflexivity.
  - apply DemoFacts.no_target_gap_algorithm_optimal.
  - apply AlignFacts.make_forbids_target_gaps.
  - reflexivity.
  - reflexivity.
  - simpl. lia.
Defined.

(** The concrete aligner places the gap where the letters match best. *)
Example maybe_align_sequence_gapped :
  maybe_align_sequence Demo.gfp_msa "MK" = Ok "M-K"%string.
Proof. reflexivity. Qed.

(** C1 as stated fails: a query longer than the reference does not come back
    with the reference's length. *)
Lemma maybe_align_sequence_longer_query_counterexample :
  use_msa Demo.gfp_msa = true
  /\ String.length "MSKGE" <> String.length "MSK"
  /\ ~ (exists s, maybe_align_sequence Demo.gfp_msa "MSKGE" = Ok s
                  /\ String.length s = String.length "MSK").
Proof.
  split; [reflexivity|]. split; [simpl; lia|].
  intros (s & Hs & _). vm_compute in Hs. discriminate.
Qed.

(** ** Padding and collation *)

Lemma map_result_ok {A B : Type} (f : A -> result B) (g : A -> B)
      (l : list A) :
  (forall a, In a l -> f a = Ok (g a)) ->
  map_result f l = Ok (map g l).
Proof.
  induction l as [|a l IH]; simpl; intro H.
  - reflexivity.
  - rewrite (H a) by (left; reflexivity). simpl.
    rewrite IH by (intros; apply H; right; assumption). reflexivity.
Qed.

Module TorchFacts.

Lemma size_last_width {A : Type} (t : tensor A) :
  shape t <> [] -> size_last t = Ok (width t).
Proof.
  unfold size_last, width. intro Hne.
  destruct (shape t) as [|n sh] using rev_ind; [congruence|].
  rewrite rev_app_distr, last_last. reflexivity.
Qed.

Lemma max_shape_length (s1 s2 : list nat) :
  List.length s1 = List.length s2 ->
  List.length (max_shape s1 s2) = List.length s1.
Proof.
  revert s2. induction s1 as [|n s1 IH]; intros [|m s2] H; simpl in *;
    try congruence. f_equal. apply IH. lia.
Qed.

Lemma max_shape_last (s1 s2 : list nat) :
  List.length s1 = List.length s2 ->
  last (max_shape s1 s2) 0 = Nat.max (last s1 0) (last s2 0).
Proof.
  revert s2. induction s1 as [|n s1 IH]; intros [|m s2] H; simpl in *;
    try congruence; try reflexivity.
  destruct s1 as [|n' s1], s2 as [|m' s2]; simpl in *; try congruence.
  apply (IH (m' :: s2)). simpl. lia.
Qed.

Lemma last_cons {A : Type} (a : A) (l : list A) (d : A) :
  l <> [] -> last (a :: l) d = last l d.
Proof. destruct l; [congruence | reflexivity]. Qed.

Lemma fold_max_shape {A : Type} (rest : list (tensor A)) (acc : list nat) :
  (forall s, In s rest -> ndim s = List.length acc) ->
  List.length (fold_left (fun acc s => max_shape acc (shape s)) rest acc)
  = List.length acc
  /\ last (fold_left (fun acc s => max_shape acc (shape s)) rest acc) 0
     = Nat.max (last acc 0) (list_max (map width rest)).
Proof.
  revert acc. induction rest as [|s rest IH]; simpl; intros acc H.
  - split; [reflexivity | lia].
  - assert (Hs : List.length acc = List.length (shape s)).
    { symmetry. apply (H s). left. reflexivity. }
    destruct (IH (max_shape acc (shape s))) as [Hlen Hlast].
    { intros s' Hin. rewrite max_shape_length by exact Hs.
      apply H. right. exact Hin. }
    rewrite Hlen, Hlast, max_shape_length, max_shape_last by exact Hs.
    split; [reflexivity|]. unfold width. lia.
Qed.

(** [pad_sequences] on arrays of one number of dimensions. *)
Lemma pad_sequences_ok {A : Type} (sequences : list (tensor A)) (c : A)
      (rank : nat) :
  sequences <> [] ->
  (forall s, In s sequences -> ndim s = S rank) ->
  exists out,
    pad_sequences sequences c = Ok out
    /\ hd 0 (shape out) = List.length sequences
    /\ List.length (shape out) = S (S rank)
    /\ width out = list_max (map width sequences)
    /\ (forall b s ix, nth_error sequences b = Some s ->
                       item out (b :: ix)
                       = if in_bounds ix (shape s) then item s ix else c).
Proof.
  intros Hne Hrank. destruct sequences as [|s0 rest]; [congruence|].
  unfold pad_sequences.
  assert (Hall : forallb (fun s => ndim s =? ndim s0) rest = true).
  { apply forallb_forall. intros s Hs. apply Nat.eqb_eq.
    rewrite (Hrank s), (Hrank s0); auto; [left | right]; auto. }
  rewrite Hall. eexists. split; [reflexivity|]. simpl shape. simpl item.
  destruct (fold_max_shape rest (shape s0)) as [Hlen Hlast].
  { intros s Hs. fold (ndim s0). rewrite (Hrank s), (Hrank s0); auto;
      [left | right]; auto. }
  assert (Hs0 : List.length (shape s0) = S rank)
    by (apply (Hrank s0); left; reflexivity).
  repeat split.
  - simpl. rewrite Hlen. congruence.
  - unfold width. simpl shape.
    rewrite last_cons, Hlast; [reflexivity|].
    intro E. rewrite E in Hlen. simpl in Hlen. lia.
  - intros b s ix Hb. rewrite Hb. reflexivity.
Qed.

Lemma in_bounds_last (ix sh : list nat) :
  in_bounds ix sh = true -> sh <> [] -> last ix 0 < last sh 0.
Proof.
  revert sh. induction ix as [|i ix IH]; intros [|n sh] H Hne; simpl in H;
    try congruence.
  apply andb_true_iff in H as [Hi Hrest]. apply Nat.ltb_lt in Hi.
  destruct ix as [|i' ix], sh as [|n' sh]; simpl in Hrest; try congruence.
  - simpl. exact Hi.
  - change (last (i' :: ix) 0 < last (n' :: sh) 0).
    apply IH; [exact Hrest | discriminate].
Qed.

(** [torch.stack] of zero-dimensional tensors, made a column. *)
Lemma stack_scalars_column {A : Type} (ts : list (tensor A)) :
  ts <> [] ->
  (forall t, In t ts -> shape t = []) ->
  exists stacked column,
    stack0 ts = Ok stacked
    /\ unsqueeze1 stacked = Ok column
    /\ shape column = [List.length ts; 1]
    /\ (forall i t, nth_error ts i = Some t ->
                    item column [i; 0] = item t []).
Proof.
  intros Hne Hsh. destruct ts as [|t0 ts]; [congruence|].
  unfold stack0.
  assert (Hall : forallb (fun t => shape_eqb (shape t) (shape t0)) (t0 :: ts)
                 = true).
  { apply forallb_forall. intros t Ht. unfold shape_eqb.
    rewrite (Hsh t Ht), (Hsh t0) by (left; reflexivity).
    destruct (list_eq_dec Nat.eq_dec [] []); congruence. }
  rewrite Hall. eexists. eexists. split; [reflexivity|].
  unfold unsqueeze1. simpl shape.
  split; [reflexivity|]. simpl shape.
  rewrite (Hsh t0) by (left; reflexivity).
  split; [reflexivity|].
  intros i t Hi. cbn [item]. f_equal.
  apply (nth_error_nth (t0 :: ts) i t0 Hi).
Qed.

End TorchFacts.



(** The scenario of three bundles of 10, 15 and 12 tokens with padding index
    0: a 3 x 15 token array and the lengths 10, 15, 12. *)
Example collate_fn_three_bundles :
  exists out,
    collate_fn Demo.gfp_cached Demo.batch3 = Ok out
    /\ shape (src_tokens (net_input out)) = [3; 15]
    /\ map (fun i => item (src_lengths (net_input out)) [i]) [0; 1; 2]
       = [10%Z; 15%Z; 12%Z]
    /\ item (src_tokens (net_input out)) [0; 9] = 7%Z
    /\ item (src_tokens (net_input out)) [0; 10] = 0%Z
    /\ shape (target out) = [3; 1]
    /\ option_map (@shape R) (features (net_input out)) = Some [3; 15; 2].
Proof. eexists. repeat split. Qed.

(** ** The constructor *)

Lemma stack0_ok {A : Type} (ts : list (tensor A)) (sh : list nat) :
  ts <> [] ->
  (forall t, In t ts -> shape t = sh) ->
  exists out,
    stack0 ts = Ok out
    /\ shape out = List.length ts :: sh
    /\ (forall i t ix, nth_error ts i = Some t ->
                       item out (i :: ix) = item t ix).
Proof.
  intros Hne Hsh. destruct ts as [|t0 ts]; [congruence|].
  unfold stack0.
  assert (Hall : forallb (fun t => shape_eqb (shape t) (shape t0)) (t0 :: ts)
                 = true).
  { apply forallb_forall. intros t Ht. unfold shape_eqb.
    rewrite (Hsh t Ht), (Hsh t0) by (left; reflexivity).
    destruct (list_eq_dec Nat.eq_dec sh sh); congruence. }
  rewrite Hall. eexists. split; [reflexivity|].
  cbn [shape item]. rewrite (Hsh t0) by (left; reflexivity).
  split; [reflexivity|].
  intros i t ix Hi. f_equal. apply (nth_error_nth (t0 :: ts) i t0 Hi).
Qed.

Lemma in_firstn {A : Type} (n : nat) (l : list A) (x : A) :
  In x (firstn n l) -> In x l.
Proof.
  revert l. induction n as [|n IH]; intros [|a l]; simpl; try tauto.
  intros [H|H]; [left; exact H | right; apply IH, H].
Qed.

Lemma py_slice_to_firstn {A : Type} (l : list A) (n : Z) :
  (0 <= n)%Z -> py_slice_to l n = firstn (Z.to_nat n) l.
Proof.
  intro H. unfold py_slice_to.
  destruct (0 <=? n)%Z eqn:E; [reflexivity|].
  apply Z.leb_gt in E. lia.
Qed.

(** C3, amended.  In MSA mode, when [max_tokens_per_msa // seqlen - 1] is at
    least one, where [seqlen] is the token length of the first data record
    (not of the reference), the constructor keeps at most that many context
    rows; with an aligned MSA and a filter that returns sequences of it, each
    row is the encoding of a selected sequence and has the reference's token
    length. *)
Theorem init_msa_block
        (utils : Utils) (bio : Biopython) (base : TAPEDataset)
        (max_tokens_per_msa : Z) (cached : bool) (w : world)
        (headers seqs : list string) (ref : string) (first : Item)
        (items : list Item) :
  let tok := tokenizer base in
  let seqlen := Z.of_nat (List.length (encode tok (primary first))) in
  let wanted := (max_tokens_per_msa / seqlen - 1)%Z in
  let sequences := hhfilter_sequences utils (ref :: seqs) wanted in
  use_msa base = true ->
  parse_fasta utils (disk w)
              (data_path base ++ ["fluorescence"; "wtGFP.a3m"]%string) true
  = Ok (headers, ref :: seqs) ->
  data base = first :: items ->
  seqlen <> 0%Z ->
  (1 <= wanted)%Z ->
  sequences <> [] ->
  (forall s, In s seqs -> String.length s = String.length ref) ->
  (forall h s, In (h, s) sequences -> In s (ref :: seqs)) ->
  (forall s1 s2, String.length s1 = String.length s2 ->
                 List.length (encode tok s1) = List.length (encode tok s2)) ->
  exists self block,
    init utils bio base max_tokens_per_msa cached w = (Ok self, w)
    /\ msa_attrs self
       = Some {| reference := ref;
                 msa := block;
                 aligner := Align.make (align_algorithm bio) (BLOSUM62 bio) |}
    /\ shape block = [Nat.min (Z.to_nat wanted) (List.length sequences);
                      List.length (encode tok ref)]
    /\ (Z.of_nat (hd 0%nat (shape block)) <= max_tokens_per_msa / seqlen - 1)%Z
    /\ (forall i h s j,
           nth_error sequences i = Some (h, s) ->
           i < Z.to_nat wanted ->
           item block [i; j] = nth j (encode tok s) 0%Z).
Proof.
  intros tok seqlen wanted sequences
         Hmsa Hparse Hdata Hseqlen Hwanted Hsome Haligned Hsub Htok.
  set (rows := map (fun hs : string * string =>
                      from_list 0%Z (encode tok (snd hs)))
                   (py_slice_to sequences wanted)).
  assert (Hslice : py_slice_to sequences wanted
                   = firstn (Z.to_nat wanted) sequences)
    by (apply py_slice_to_firstn; lia).
  destruct (stack0_ok rows [List.length (encode tok ref)])
    as (block & Hstack & Hshape & Hitem).
  { unfold rows. rewrite Hslice.
    destruct sequences as [|p l]; [congruence|].
    destruct (Z.to_nat wanted) eqn:E; [lia | discriminate]. }
  { intros t Ht. unfold rows in Ht.
    apply in_map_iff in Ht as ([h s] & <- & Hin).
    rewrite Hslice in Hin. apply in_firstn in Hin.
    cbn [shape from_list snd]. f_equal. apply Htok.
    destruct (Hsub h s Hin) as [<-|Hs]; [reflexivity | apply Haligned, Hs]. }
  unfold rows in Hshape. rewrite length_map, Hslice, length_firstn in Hshape.
  exists {| super := base;
            return_cached_embeddings := cached;
            msa_attrs :=
              Some {| reference := ref;
                      msa := block;
                      aligner := Align.make (align_algorithm bio)
                                            (BLOSUM62 bio) |} |}, block.
  split.
  - unfold init. rewrite Hmsa. unfold bind, get_disk, lift.
    rewrite Hparse. cbn [snd py_index nth_error]. rewrite Hdata.
    cbn [py_index nth_error].
    fold tok. fold seqlen.
    destruct (seqlen =? 0)%Z eqn:E; [apply Z.eqb_eq in E; congruence|].
    fold wanted. fold sequences. fold rows. rewrite Hstack. reflexivity.
  - split; [reflexivity|]. split; [exact Hshape|]. split.
    + rewrite Hshape. cbn [hd]. fold seqlen. fold wanted. lia.
    + intros i h s j Hi Hlt.
      rewrite (Hitem i (from_list 0%Z (encode tok s)) [j]); [reflexivity|].
      unfold rows. rewrite Hslice.
      change (from_list 0%Z (encode tok s))
        with ((fun hs : string * string =>
                 from_list 0%Z (encode tok (snd hs))) (h, s)).
      apply map_nth_error. rewrite nth_error_firstn.
      destruct (i <? Z.to_nat wanted) eqn:E; [exact Hi|].
      apply Nat.ltb_ge in E. lia.
Qed.

Lemma char_tokenizer_length (s : string) :
  List.length (encode Demo.char_tokenizer s) = S (S (String.length s)).
Proof.
  cbn [encode Demo.char_tokenizer List.length].
  rewrite length_app, length_map. cbn [List.length].
  assert (H : List.length (list_ascii_of_string s) = String.length s)
    by (induction s; simpl; congruence).
  rewrite H. lia.
Qed.

Lemma init_msa_block_witness :
  exists self block,
    init Demo.utils Demo.bio (Demo.base true [Demo.record "MSKGE" 1%R])
         21 false Demo.world0 = (Ok self, Demo.world0)
    /\ option_map reference (msa_attrs self) = Some "MSKGE"%string
    /\ option_map msa (msa_attrs self) = Some block
    /\ shape block = [2; 7]
    /\ item block [1; 5] = 65%Z.
Proof.
  destruct (init_msa_block Demo.utils Demo.bio
              (Demo.base true [Demo.record "MSKGE" 1%R]) 21 false Demo.world0
              [] ["MSKGA"; "MTKGE"; "MSRGE"]%string "MSKGE"
              (Demo.record "MSKGE" 1%R) [])
    as (self & block & Hinit & Hattrs & Hshape & _ & Hitem).
  - reflexivity.
  - reflexivity.
  - reflexivity.
  - vm_compute. discriminate.
  - vm_compute. discriminate.
  - vm_compute. discriminate.
  - intros s [<-|[<-|[<-|[]]]]; reflexivity.
  - intros h s Hin. cbn [hhfilter_sequences Demo.utils] in Hin.
    apply in_map_iff in Hin as (s' & Heq & Hin). congruence.
  - intros s1 s2 Hlen. cbn [tokenizer Demo.base].
    rewrite !char_tokenizer_length. congruence.
  - exists self, block. split; [exact Hinit|].
    rewrite Hattrs. split; [reflexivity|]. split; [reflexivity|].
    split; [exact Hshape|].
    exact (Hitem 1 EmptyString "MSKGA"%string 5 eq_refl ltac:(vm_compute; lia)).
Defined.

(** C3 as stated fails: the bound is computed from the first data record.
    With a budget of 21 tokens, a reference of 7 tokens and a first record of
    3 tokens, the block keeps 4 rows, more than [21 // 7 - 1 = 2]. *)
Lemma init_msa_block_counterexample :
  exists self a,
    fst (init Demo.utils Demo.bio (Demo.base true [Demo.record "M" 1%R])
              21 false Demo.world0) = Ok self
    /\ msa_attrs self = Some a
    /\ reference a = "MSKGE"%string
    /\ List.length (encode Demo.char_tokenizer (reference a)) = 7
    /\ (21 / 7 - 1 = 2)%Z
    /\ shape (msa a) = [4; 7].
Proof.
  eexists. eexists. split; [reflexivity|]. split; [reflexivity|].
  repeat split.
Qed.

(** A budget below the first record's token length makes the number of
    wanted rows negative; the slice then drops the last sequence only. *)
Example init_negative_slice :
  exists self a,
    fst (init Demo.utils Demo.bio (Demo.base true [Demo.record "MSKGE" 1%R])
              2 false Demo.world0) = Ok self
    /\ msa_attrs self = Some a
    /\ (2 / 7 - 1 = -1)%Z
    /\ shape (msa a) = [3; 7].
Proof.
  eexists. eexists. split; [reflexivity|]. split; [reflexivity|].
  repeat split.
Qed.

(** ** The file system *)

Module DiskFacts.

Lemma assoc_set_same {V : Type} (k : string) (v : V)
      (es : list (string * V)) :
  assoc k (set_assoc k v es) = Some v.
Proof.
  induction es as [|[k' v'] es IH]; simpl.
  - rewrite String.eqb_refl. reflexivity.
  - destruct (String.eqb k k') eqn:E; simpl.
    + rewrite String.eqb_refl. reflexivity.
    + rewrite E. exact IH.
Qed.

Lemma assoc_set_other {V : Type} (k k' : string) (v : V)
      (es : list (string * V)) :
  k <> k' -> assoc k' (set_assoc k v es) = assoc k' es.
Proof.
  intro Hne. induction es as [|[k0 v0] es IH]; simpl.
  - destruct (String.eqb k' k) eqn:E; [|reflexivity].
    apply String.eqb_eq in E. congruence.
  - destruct (String.eqb k k0) eqn:E; simpl.
    + apply String.eqb_eq in E. subst k0.
      destruct (String.eqb k' k) eqn:E'; [|reflexivity].
      apply String.eqb_eq in E'. congruence.
    + destruct (String.eqb k' k0); [reflexivity | exact IH].
Qed.

Lemma resolve_app (d : node) (p q : path) :
  resolve d (p ++ q)
  = match resolve d p with
    | Some n => resolve n q
    | None => None
    end.
Proof.
  revert d. induction p as [|c p IH]; intro d; simpl.
  - reflexivity.
  - destruct d as [f|es]; [reflexivity|].
    destruct (assoc c es); [apply IH | reflexivity].
Qed.

Lemma parent_snoc (p : path) (c : string) : parent (p ++ [c]) = p.
Proof. unfold parent. apply removelast_last. Qed.

(** Whatever lies below a path lies in a directory. *)
Lemma resolve_below_is_dir (d : node) (p : path) (c : string) (n : node) :
  resolve d (p ++ [c]) = Some n ->
  exists es, resolve d p = Some (Dir es).
Proof.
  rewrite resolve_app. destruct (resolve d p) as [[f|es]|]; simpl.
  - discriminate.
  - eauto.
  - discriminate.
Qed.

Lemma put_below_dir (d : node) (p : path) (c : string) (new : node)
      (es : list (string * node)) :
  resolve d p = Some (Dir es) ->
  exists d', put d (p ++ [c]) new = Some d'.
Proof.
  revert d. induction p as [|c0 p IH]; intros d H; simpl in *.
  - injection H as ->. eauto.
  - destruct d as [f|es0]; [discriminate|].
    destruct (assoc c0 es0) as [n'|] eqn:E; [|discriminate].
    destruct (IH n' H) as [d' Hd']. rewrite Hd'.
    destruct (p ++ [c]) eqn:Hp; [destruct p; discriminate|]. eauto.
Qed.

Lemma put_resolve (d : node) (p : path) (new d' : node) :
  put d p new = Some d' -> resolve d' p = Some new.
Proof.
  revert d d'. induction p as [|c p IH]; intros d d' H; simpl in *.
  - congruence.
  - destruct d as [f|es]; [discriminate|].
    destruct p as [|c1 p].
    + injection H as <-. simpl. rewrite assoc_set_same. reflexivity.
    + destruct (assoc c es) as [n'|]; [|discriminate].
      destruct (put n' (c1 :: p) new) as [n''|] eqn:E; [|discriminate].
      injection H as <-. cbn [resolve]. rewrite assoc_set_same.
      apply (IH n' n'' E).
Qed.

(** Writing below a directory leaves it a directory. *)
Lemma put_keeps_dir (d : node) (p : path) (c : string) (new d' : node)
      (es : list (string * node)) :
  resolve d p = Some (Dir es) ->
  put d (p ++ [c]) new = Some d' ->
  exists es', resolve d' p = Some (Dir es').
Proof.
  revert d d'. induction p as [|c0 p IH]; intros d d' Hd Hput; simpl in *.
  - injection Hd as ->. injection Hput as <-. eauto.
  - destruct d as [f|es0]; [discriminate|].
    destruct (assoc c0 es0) as [n'|] eqn:E; [|discriminate].
    destruct (p ++ [c]) as [|c1 rest] eqn:Hp; [destruct p; discriminate|].
    destruct (put n' (c1 :: rest) new) as [n''|] eqn:E'; [|discriminate].
    injection Hput as <-. cbn [resolve]. rewrite assoc_set_same.
    apply (IH n' n'' Hd E').
Qed.

End DiskFacts.

(** ** The embedding cache *)

Module CacheFacts.
Import DiskFacts.

Lemma write_node_below (w : world) (p : path) (c : string) (new : node)
      (es : list (string * node)) :
  resolve (disk w) p = Some (Dir es) ->
  exists d',
    put (disk w) (p ++ [c]) new = Some d'
    /\ write_node (p ++ [c]) new w = (Ok tt, changed w d').
Proof.
  intro Hdir. destruct (put_below_dir (disk w) p c new es Hdir) as [d' Hput].
  exists d'. split; [exact Hput|].
  unfold write_node, bind, get_disk. rewrite parent_snoc, Hdir, Hput.
  reflexivity.
Qed.

Lemma write_node_no_parent (w : world) (p : path) (c : string) (new : node) :
  (forall es, resolve (disk w) p <> Some (Dir es)) ->
  exists e, write_node (p ++ [c]) new w = (Raise e, w).
Proof.
  intro Hno. unfold write_node, bind, get_disk. rewrite parent_snoc.
  destruct (resolve (disk w) p) as [[f|es]|].
  - eexists; reflexivity.
  - exfalso. exact (Hno es eq_refl).
  - eexists; reflexivity.
Qed.

Lemma mkdir_existing (w : world) (p : path) (es : list (string * node)) :
  resolve (disk w) p = Some (Dir es) -> mkdir_exist_ok p w = (Ok tt, w).
Proof.
  intro H. unfold mkdir_exist_ok, bind, get_disk. rewrite H. reflexivity.
Qed.

Lemma mkdir_over_file (w : world) (p : path) (c : file_content) :
  resolve (disk w) p = Some (File c) ->
  mkdir_exist_ok p w = (Raise FileExistsError, w).
Proof.
  intro H. unfold mkdir_exist_ok, bind, get_disk. rewrite H. reflexivity.
Qed.

Lemma mkdir_creates (w : world) (p : path) (c : string)
      (es : list (string * node)) :
  resolve (disk w) (p ++ [c]) = None ->
  resolve (disk w) p = Some (Dir es) ->
  exists d',
    put (disk w) (p ++ [c]) (Dir []) = Some d'
    /\ mkdir_exist_ok (p ++ [c]) w
       = (Ok tt, logged (changed w d') (Mkdir (p ++ [c]))).
Proof.
  intros Habs Hdir.
  destruct (write_node_below w p c (Dir []) es Hdir) as (d' & Hput & Hw).
  exists d'. split; [exact Hput|].
  unfold mkdir_exist_ok, bind, get_disk. rewrite Habs.
  fold (bind (write_node (p ++ [c]) (Dir []))
             (fun _ => emit (Mkdir (p ++ [c])))).
  unfold bind. rewrite Hw. reflexivity.
Qed.

Lemma mkdir_no_parent (w : world) (p : path) (c : string) :
  resolve (disk w) (p ++ [c]) = None ->
  (forall es, resolve (disk w) p <> Some (Dir es)) ->
  exists e, mkdir_exist_ok (p ++ [c]) w = (Raise e, w).
Proof.
  intros Habs Hno.
  destruct (write_node_no_parent w p c (Dir []) Hno) as [e He].
  exists e. unfold mkdir_exist_ok, bind, get_disk. rewrite Habs.
  fold (bind (write_node (p ++ [c]) (Dir []))
             (fun _ => emit (Mkdir (p ++ [c])))).
  unfold bind. rewrite He. reflexivity.
Qed.

Lemma embedding_dir_snoc (self : FluorescenceDataset) :
  embedding_dir self = (data_path self ++ [task_name]) ++ ["embeddings"%string].
Proof. unfold embedding_dir. rewrite <- app_assoc. reflexivity. Qed.

(** The three ways a call of [cached_embedding_path] can go. *)
Lemma cached_embedding_path_cases (self : FluorescenceDataset) (index : Z)
      (w : world) :
  (exists es,
      resolve (disk w) (embedding_dir self) = Some (Dir es)
      /\ cached_embedding_path self index w
         = (Ok (embedding_file self index), w))
  \/ (exists d',
         resolve (disk w) (embedding_dir self) = None
         /\ put (disk w) (embedding_dir self) (Dir []) = Some d'
         /\ cached_embedding_path self index w
            = (Ok (embedding_file self index),
               logged (changed w d') (Mkdir (embedding_dir self))))
  \/ (exists e,
         (forall es, resolve (disk w) (embedding_dir self) <> Some (Dir es))
         /\ cached_embedding_path self index w = (Raise e, w)).
Proof.
  unfold cached_embedding_path.
  fold (bind (mkdir_exist_ok (embedding_dir self))
             (fun _ => ret (embedding_file self index))).
  unfold bind.
  destruct (resolve (disk w) (embedding_dir self)) as [[c|es]|] eqn:Hdir.
  - right. right. exists FileExistsError. split; [congruence|].
    rewrite (mkdir_over_file w _ c Hdir). reflexivity.
  - left. exists es. split; [reflexivity|].
    rewrite (mkdir_existing w _ es Hdir). reflexivity.
  - rewrite embedding_dir_snoc in Hdir |- *.
    destruct (resolve (disk w) (data_path self ++ [task_name]))
      as [[c|es]|] eqn:Hparent.
    + right. right.
      destruct (mkdir_no_parent w (data_path self ++ [task_name])
                                "embeddings" Hdir) as [e He]; [congruence|].
      exists e. split; [congruence|]. rewrite He. reflexivity.
    + right. left.
      destruct (mkdir_creates w (data_path self ++ [task_name])
                              "embeddings" es Hdir Hparent)
        as (d' & Hput & Hmk).
      exists d'. split; [reflexivity|]. split; [exact Hput|].
      rewrite Hmk. reflexivity.
    + right. right.
      destruct (mkdir_no_parent w (data_path self ++ [task_name])
                                "embeddings" Hdir) as [e He]; [congruence|].
      exists e. split; [congruence|]. rewrite He. reflexivity.
Qed.

End CacheFacts.

(** ** load_cached_embedding *)

Lemma torch_load_saved (w : world) (p : path) (t : tensor R) :
  resolve (disk w) p = Some (File (Saved t)) ->
  torch_load p w = (Ok t, logged w (Loaded p)).
Proof.
  intro H. unfold torch_load, bind, get_disk. rewrite H. reflexivity.
Qed.

Lemma torch_load_not_saved (w : world) (p : path) :
  (forall t, resolve (disk w) p <> Some (File (Saved t))) ->
  exists e, torch_load p w = (Raise e, w).
Proof.
  intro H. unfold torch_load, bind, get_disk.
  destruct (resolve (disk w) p) as [[[t|t|s]|es]|]; try (eexists; reflexivity).
  exfalso. exact (H t eq_refl).
Qed.

(** Nothing lies in a directory that was just created. *)
Lemma fresh_dir_is_empty (d d' : node) (p : path) (c : string) :
  put d p (Dir []) = Some d' -> resolve d' (p ++ [c]) = None.
Proof.
  intro H. rewrite DiskFacts.resolve_app, (DiskFacts.put_resolve d p _ d' H).
  reflexivity.
Qed.

Lemma load_cached_embedding_absent
      (self : FluorescenceDataset) (index : Z) (w : world) :
  resolve (disk w) (embedding_file self index) = None ->
  exists e w',
    load_cached_embedding self index w = (Raise e, w')
    /\ (log w' = log w \/ log w' = Mkdir (embedding_dir self) :: log w).
Proof.
  intro Habsent. unfold load_cached_embedding.
  fold (bind (cached_embedding_path self index)
             (fun p => bind (torch_load p)
                            (fun embed => ret (requires_grad_false embed)))).
  unfold bind at 1.
  destruct (CacheFacts.cached_embedding_path_cases self index w)
    as [(es & Hdir & ->) | [(d' & Hdir & Hput & ->) | (e & Hno & ->)]].
  - destruct (torch_load_not_saved w (embedding_file self index)) as [e He].
    { intros t Ht. congruence. }
    exists e, w. unfold bind. rewrite He. auto.
  - set (w' := logged (changed w d') (Mkdir (embedding_dir self))).
    destruct (torch_load_not_saved w' (embedding_file self index)) as [e He].
    { intros t Ht. unfold embedding_file in Ht. cbn [disk w' logged] in Ht.
      cbn [disk changed] in Ht.
      rewrite (fresh_dir_is_empty (disk w) d' _ _ Hput) in Ht.
      discriminate. }
    exists e, w'. unfold bind. rewrite He. split; [reflexivity|].
    right. reflexivity.
  - exists e, w. auto.
Qed.

Lemma load_cached_embedding_saved
      (self : FluorescenceDataset) (index : Z) (w : world) (t : tensor R) :
  resolve (disk w) (embedding_file self index) = Some (File (Saved t)) ->
  load_cached_embedding self index w
  = (Ok (requires_grad_false t),
     logged w (Loaded (embedding_file self index))).
Proof.
  intro Hsaved.
  destruct (DiskFacts.resolve_below_is_dir (disk w) (embedding_dir self)
              (embedding_name self index) _ Hsaved) as [es Hdir].
  unfold load_cached_embedding.
  fold (bind (cached_embedding_path self index)
             (fun p => bind (torch_load p)
                            (fun embed => ret (requires_grad_false embed)))).
  unfold bind at 1.
  destruct (CacheFacts.cached_embedding_path_cases self index w)
    as [(es' & _ & ->) | [(d' & Hnone & _) | (e & Hno & _)]].
  - unfold bind. rewrite (torch_load_saved w _ t Hsaved). reflexivity.
  - congruence.
  - exfalso. exact (Hno es Hdir).
Qed.

(** A path that leads to something other than a saved tensor: the load
    raises and nothing changes. *)
Lemma load_cached_embedding_unreadable
      (self : FluorescenceDataset) (index : Z) (w : world) (n : node) :
  resolve (disk w) (embedding_file self index) = Some n ->
  (forall t, n <> File (Saved t)) ->
  load_cached_embedding self index w
  = (Raise match n with
           | File (Torn _) => RuntimeError
           | File (Text _) => UnpicklingError
           | Dir _ => IsADirectoryError
           | File (Saved _) => RuntimeError
           end, w).
Proof.
  intros Hn Hnot.
  destruct (DiskFacts.resolve_below_is_dir (disk w) (embedding_dir self)
              (embedding_name self index) _ Hn) as [es Hdir].
  unfold load_cached_embedding.
  fold (bind (cached_embedding_path self index)
             (fun p => bind (torch_load p)
                            (fun embed => ret (requires_grad_false embed)))).
  unfold bind at 1.
  destruct (CacheFacts.cached_embedding_path_cases self index w)
    as [(es' & _ & ->) | [(d' & Hnone & _) | (e & Hno & _)]].
  - unfold bind, torch_load, bind, get_disk. rewrite Hn.
    destruct n as [[t|t|c]|es'']; try reflexivity.
    exfalso. exact (Hnot t eq_refl).
  - congruence.
  - exfalso. exact (Hno es Hdir).
Qed.

(** C7, amended.  [load_cached_embedding] returns exactly when the cached
    file holds a completely saved tensor: that tensor is returned with
    gradient tracking off and the disk is left as it was.  When the file is
    absent it raises, and the only effect it may have had is creating the
    embeddings directory.  When something else lies at the path (a partially
    written file, a file of other content, a directory) it raises as well and
    changes nothing.  In no case is the base model called. *)
Theorem load_cached_embedding_reads_cache
        (self : FluorescenceDataset) (index : Z) (w : world) :
  (resolve (disk w) (embedding_file self index) = None ->
   exists e w',
     load_cached_embedding self index w = (Raise e, w')
     /\ (log w' = log w \/ log w' = Mkdir (embedding_dir self) :: log w))
  /\ (forall t,
         resolve (disk w) (embedding_file self index) = Some (File (Saved t)) ->
         load_cached_embedding self index w
         = (Ok (requires_grad_false t),
            logged w (Loaded (embedding_file self index)))
         /\ requires_grad (requires_grad_false t) = false
         /\ shape (requires_grad_false t) = shape t
         /\ item (requires_grad_false t) = item t)
  /\ (forall n,
         resolve (disk w) (embedding_file self index) = Some n ->
         (forall t, n <> File (Saved t)) ->
         exists e, load_cached_embedding self index w = (Raise e, w))
  /\ (forall t w',
         load_cached_embedding self index w = (Ok t, w') ->
         exists t0,
           resolve (disk w) (embedding_file self index)
           = Some (File (Saved t0))
           /\ t = requires_grad_false t0).
Proof.
  split; [|split; [|split]].
  - apply load_cached_embedding_absent.
  - intros t Hsaved. split; [|repeat split].
    apply load_cached_embedding_saved. exact Hsaved.
  - intros n Hn Hnot. eexists.
    apply (load_cached_embedding_unreadable self index w n Hn Hnot).
  - intros t w' Hok.
    destruct (resolve (disk w) (embedding_file self index)) as [n|] eqn:Hn.
    + destruct n as [[t0|t0|c]|es].
      * exists t0. split; [reflexivity|].
        rewrite (load_cached_embedding_saved self index w t0 Hn) in Hok.
        injection Hok as <- _. reflexivity.
      * rewrite (load_cached_embedding_unreadable self index w _ Hn) in Hok
          by discriminate.
        discriminate Hok.
      * rewrite (load_cached_embedding_unreadable self index w _ Hn) in Hok
          by discriminate.
        discriminate Hok.
      * rewrite (load_cached_embedding_unreadable self index w _ Hn) in Hok
          by discriminate.
        discriminate Hok.
    + destruct (load_cached_embedding_absent self index w Hn)
        as (e & w'' & Hraise & _).
      rewrite Hraise in Hok. discriminate Hok.
Qed.

(** ** What the steps leave in place *)

Module Frame.

Lemma preserves_ret {A : Type} (P : world -> Prop) (a : A) :
  preserves P (ret a).
Proof. intros w H. exact H. Qed.

Lemma preserves_lift {A : Type} (P : world -> Prop) (r : result A) :
  preserves P (lift r).
Proof. intros w H. exact H. Qed.

Lemma preserves_raise {A : Type} (P : world -> Prop) (e : exn) :
  preserves P (@raise A e).
Proof. intros w H. exact H. Qed.

Lemma preserves_bind {A B : Type} (P : world -> Prop) (m : M A)
      (k : A -> M B) :
  preserves P m -> (forall a, preserves P (k a)) -> preserves P (bind m k).
Proof.
  intros Hm Hk w H. unfold bind. specialize (Hm w H).
  destruct (m w) as [[a|e] w']; simpl in *.
  - apply Hk. exact Hm.
  - exact Hm.
Qed.

(** The same, knowing something of the value the first step returns. *)
Lemma preserves_bind_with {A B : Type} (P : world -> Prop) (Q : A -> Prop)
      (m : M A) (k : A -> M B) :
  preserves P m ->
  (forall w a w', m w = (Ok a, w') -> Q a) ->
  (forall a, Q a -> preserves P (k a)) ->
  preserves P (bind m k).
Proof.
  intros Hm HQ Hk w H. unfold bind. specialize (Hm w H).
  destruct (m w) as [[a|e] w'] eqn:E; simpl in *.
  - apply (Hk a (HQ w a w' E)). exact Hm.
  - exact Hm.
Qed.

Lemma preserves_get_disk (P : world -> Prop) : preserves P get_disk.
Proof. intros w H. exact H. Qed.

Lemma preserves_emit (P : world -> Prop) (e : event) :
  log_blind P -> preserves P (emit e).
Proof. intros Hb w H. apply (Hb w e H). Qed.

Lemma preserves_path_exists (P : world -> Prop) (p : path) :
  preserves P (path_exists p).
Proof.
  unfold path_exists. apply preserves_bind.
  - apply preserves_get_disk.
  - intro d. apply preserves_ret.
Qed.

Lemma preserves_torch_load (P : world -> Prop) (p : path) :
  log_blind P -> preserves P (torch_load p).
Proof.
  intro Hb. unfold torch_load. apply preserves_bind.
  - apply preserves_get_disk.
  - intro d. destruct (resolve d p) as [[[t|t|s]|es]|];
      try apply preserves_raise.
    apply preserves_bind; [apply preserves_emit, Hb|].
    intros _. apply preserves_ret.
Qed.

Lemma preserves_run_extract_features (P : world -> Prop)
      (model : ProteinModel) (n : NetInput) :
  log_blind P -> preserves P (run_extract_features model n).
Proof.
  intro Hb. unfold run_extract_features. apply preserves_bind.
  - apply preserves_emit, Hb.
  - intros _. apply preserves_lift.
Qed.

Lemma has_embedding_dir_log_blind (self : FluorescenceDataset) :
  log_blind (has_embedding_dir self).
Proof. intros w e H. exact H. Qed.

Lemma same_disk_log_blind (w0 : world) : log_blind (same_disk w0).
Proof. intros w e H. exact H. Qed.

(** Once the embeddings directory exists, deriving a path changes nothing. *)
Lemma cached_embedding_path_settled (self : FluorescenceDataset) (index : Z)
      (w : world) :
  has_embedding_dir self w ->
  cached_embedding_path self index w = (Ok (embedding_file self index), w).
Proof.
  intros [es Hdir].
  destruct (CacheFacts.cached_embedding_path_cases self index w)
    as [(es' & _ & H) | [(d' & Hnone & _) | (e & Hno & _)]].
  - exact H.
  - congruence.
  - exfalso. exact (Hno es Hdir).
Qed.

(** With the directory in place, a read leaves the disk and its history
    alone. *)
Lemma load_cached_embedding_same_disk (self : FluorescenceDataset)
      (index : Z) (w : world) :
  has_embedding_dir self w ->
  same_disk w (snd (load_cached_embedding self index w)).
Proof.
  intro Hdir. unfold load_cached_embedding.
  fold (bind (cached_embedding_path self index)
             (fun p => bind (torch_load p)
                            (fun embed => ret (requires_grad_false embed)))).
  unfold bind at 1. rewrite (cached_embedding_path_settled self index w Hdir).
  apply (preserves_bind (same_disk w)).
  - apply preserves_torch_load, same_disk_log_blind.
  - intro t. apply preserves_ret.
  - split; reflexivity.
Qed.

Lemma getitem_same_disk (self : FluorescenceDataset) (index : Z) (w : world) :
  has_embedding_dir self w ->
  same_disk w (snd (getitem self index w)).
Proof.
  intro Hdir.
  assert (Hp : preserves (same_disk w) (getitem self index)).
  { unfold getitem.
    apply preserves_bind; [apply preserves_lift | intro item].
    apply preserves_bind; [apply preserves_lift | intro sequence].
    apply preserves_bind;
      [destruct (use_msa self); [apply preserves_lift | apply preserves_ret]
      | intro tokens].
    apply preserves_bind; [apply preserves_lift | intro value].
    destruct (return_cached_embeddings self); [|apply preserves_ret].
    apply preserves_bind; [|intro t; apply preserves_ret].
    intros w' [Hd He].
    destruct (load_cached_embedding_same_disk self index w') as [Hd' He'].
    { destruct Hdir as [es Hes]. exists es. rewrite Hd. exact Hes. }
    split; congruence. }
  apply Hp. split; reflexivity.
Qed.

End Frame.

(** ** Running and inverting monadic steps *)

Module Steps.

Lemma bind_ok_inv {A B : Type} (m : M A) (k : A -> M B) (w w' : world)
      (b : B) :
  bind m k w = (Ok b, w') ->
  exists a w1, m w = (Ok a, w1) /\ k a w1 = (Ok b, w').
Proof.
  unfold bind. destruct (m w) as [[a|e] w1]; intro H.
  - eauto.
  - discriminate.
Qed.

Lemma bind_run {A B : Type} (m : M A) (k : A -> M B) (w w1 : world) (a : A) :
  m w = (Ok a, w1) -> bind m k w = k a w1.
Proof. intro H. unfold bind. rewrite H. reflexivity. Qed.

Lemma bind_raise {A B : Type} (m : M A) (k : A -> M B) (w w1 : world)
      (e : exn) :
  m w = (Raise e, w1) -> bind m k w = (Raise e, w1).
Proof. intro H. unfold bind. rewrite H. reflexivity. Qed.

Lemma write_node_ok_inv (p : path) (new : node) (w w' : world) :
  write_node p new w = (Ok tt, w') ->
  exists d', put (disk w) p new = Some d' /\ w' = changed w d'.
Proof.
  unfold write_node, bind, get_disk, raise, set_disk.
  destruct (resolve (disk w) (parent p)) as [[c|es]|]; try discriminate.
  destruct (put (disk w) p new) as [d'|]; [|discriminate].
  intro H. injection H as <-. eauto.
Qed.

(** A save that returns went through a torn file to a complete one. *)
Lemma torch_save_ok_inv (t : tensor R) (p : path) (w w' : world) :
  torch_save t p w = (Ok tt, w') ->
  exists dT dS,
    put (disk w) p (File (Torn t)) = Some dT
    /\ put dT p (File (Saved t)) = Some dS
    /\ w' = logged (changed (logged (changed w dT) (OpenForWriting p)) dS)
                   (Written p).
Proof.
  unfold torch_save. intro H.
  apply bind_ok_inv in H as (d & w0 & Hd & H).
  unfold get_disk in Hd. injection Hd as <- <-.
  assert (Hrun : bind (write_node p (File (Torn t)))
                      (fun _ => bind (emit (OpenForWriting p))
                         (fun _ => bind (write_node p (File (Saved t)))
                            (fun _ => emit (Written p)))) w = (Ok tt, w')).
  { destruct (resolve (disk w) p) as [[c|es]|]; try exact H. discriminate. }
  clear H.
  apply bind_ok_inv in Hrun as ([] & w1 & H1 & Hrun).
  apply write_node_ok_inv in H1 as (dT & HdT & ->).
  apply bind_ok_inv in Hrun as ([] & w2 & H2 & Hrun).
  unfold emit in H2. injection H2 as <-.
  apply bind_ok_inv in Hrun as ([] & w3 & H3 & Hrun).
  apply write_node_ok_inv in H3 as (dS & HdS & ->).
  unfold emit in Hrun. injection Hrun as <-.
  exists dT, dS. repeat split; assumption.
Qed.

Lemma torch_save_ok_saved (t : tensor R) (p : path) (w w' : world) :
  torch_save t p w = (Ok tt, w') ->
  resolve (disk w') p = Some (File (Saved t)).
Proof.
  intro H. apply torch_save_ok_inv in H as (dT & dS & _ & HdS & ->).
  cbn [disk logged changed]. apply (DiskFacts.put_resolve dT p _ dS HdS).
Qed.

Lemma cached_embedding_path_ok_inv (self : FluorescenceDataset) (index : Z)
      (w w' : world) (p : path) :
  cached_embedding_path self index w = (Ok p, w') ->
  p = embedding_file self index
  /\ has_embedding_dir self w'
  /\ (w' = w
      \/ exists d', resolve (disk w) (embedding_dir self) = None
                    /\ put (disk w) (embedding_dir self) (Dir []) = Some d'
                    /\ w' = logged (changed w d') (Mkdir (embedding_dir self))).
Proof.
  intro H.
  destruct (CacheFacts.cached_embedding_path_cases self index w)
    as [(es & Hdir & E) | [(d' & Hnone & Hput & E) | (e & _ & E)]];
    rewrite E in H; try discriminate; injection H as <- <-.
  - split; [reflexivity|]. split; [exists es; exact Hdir | left; reflexivity].
  - split; [reflexivity|]. split.
    + exists []. cbn [disk logged changed].
      apply (DiskFacts.put_resolve (disk w) _ _ d' Hput).
    + right. exists d'. auto.
Qed.

(** A call that finds the cached file changes nothing at all. *)
Lemma make_embedding_present (self : FluorescenceDataset)
      (model : ProteinModel) (index : Z) (w : world) (n : node) :
  parameters model <> [] ->
  resolve (disk w) (embedding_file self index) = Some n ->
  make_embedding self model index w = (Ok tt, w).
Proof.
  intros Hparams Hfile. unfold make_embedding.
  destruct (parameters model) as [|dev rest]; [congruence|].
  erewrite bind_run by reflexivity.
  destruct (DiskFacts.resolve_below_is_dir (disk w) (embedding_dir self)
              (embedding_name self index) n Hfile) as [es Hdir].
  erewrite bind_run
    by (apply Frame.cached_embedding_path_settled; exists es; exact Hdir).
  erewrite bind_run
    by (unfold path_exists, bind, get_disk, ret; rewrite Hfile; reflexivity).
  reflexivity.
Qed.

(** After a call that returned, the cached file is there. *)
Lemma make_embedding_ok_present (self : FluorescenceDataset)
      (model : ProteinModel) (index : Z) (w w' : world) :
  make_embedding self model index w = (Ok tt, w') ->
  parameters model <> []
  /\ exists n, resolve (disk w') (embedding_file self index) = Some n.
Proof.
  unfold make_embedding. intro H.
  apply bind_ok_inv in H as (dev & w0 & Hdev & H).
  split.
  { destruct (parameters model); [discriminate Hdev | discriminate]. }
  unfold lift in Hdev. injection Hdev as _ <-.
  apply bind_ok_inv in H as (p & w1 & Hp & H).
  apply cached_embedding_path_ok_inv in Hp as (-> & _ & _).
  apply bind_ok_inv in H as (present & w2 & Hpres & H).
  unfold path_exists, bind, get_disk, ret in Hpres.
  injection Hpres as <- <-.
  destruct (resolve (disk w1) (embedding_file self index)) as [n|] eqn:Hfile.
  - cbn [negb] in H. unfold ret in H. injection H as <-. eauto.
  - cbn [negb] in H.
    apply bind_ok_inv in H as (el & w3 & _ & H).
    apply bind_ok_inv in H as (batch & w4 & _ & H).
    apply bind_ok_inv in H as (out & w5 & _ & H).
    apply bind_ok_inv in H as (embed & w6 & _ & H).
    apply torch_save_ok_saved in H. eauto.
Qed.

End Steps.

(** ** make_embedding *)

(** C6.  After a call of [make_embedding] that returned, a second call with
    the same index returns too and leaves the world as it is: the cached file
    keeps its content, no feature is extracted and nothing is written. *)
Theorem make_embedding_idempotent
        (self : FluorescenceDataset) (model : ProteinModel) (index : Z)
        (w w1 : world) :
  make_embedding self model index w = (Ok tt, w1) ->
  make_embedding self model index w1 = (Ok tt, w1)
  /\ exists n, resolve (disk w1) (embedding_file self index) = Some n.
Proof.
  intro Hfirst.
  destruct (Steps.make_embedding_ok_present self model index w w1 Hfirst)
    as (Hparams & n & Hfile).
  split; [|exists n; exact Hfile].
  apply (Steps.make_embedding_present self model index w1 n Hparams Hfile).
Qed.

(** ** The directory of the cache *)

Module DirFacts.

Lemma preserves_write_below (self : FluorescenceDataset) (c : string)
      (new : node) :
  preserves (has_embedding_dir self)
            (write_node (embedding_dir self ++ [c]) new).
Proof.
  intros w [es Hdir].
  destruct (CacheFacts.write_node_below w (embedding_dir self) c new es Hdir)
    as (d' & Hput & ->).
  cbn [snd]. unfold has_embedding_dir. cbn [disk changed].
  apply (DiskFacts.put_keeps_dir (disk w) _ c new d' es Hdir Hput).
Qed.

Lemma preserves_torch_save (self : FluorescenceDataset) (c : string)
      (t : tensor R) :
  preserves (has_embedding_dir self)
            (torch_save t (embedding_dir self ++ [c])).
Proof.
  unfold torch_save. apply Frame.preserves_bind;
    [apply Frame.preserves_get_disk | intro d].
  assert (Hrun : preserves (has_embedding_dir self)
                   (bind (write_node (embedding_dir self ++ [c]) (File (Torn t)))
                      (fun _ => bind (emit (OpenForWriting (embedding_dir self ++ [c])))
                         (fun _ => bind (write_node (embedding_dir self ++ [c])
                                                    (File (Saved t)))
                            (fun _ => emit (Written (embedding_dir self ++ [c]))))))).
  { apply Frame.preserves_bind; [apply preserves_write_below | intros _].
    apply Frame.preserves_bind;
      [apply Frame.preserves_emit, Frame.has_embedding_dir_log_blind
      | intros _].
    apply Frame.preserves_bind; [apply preserves_write_below | intros _].
    apply Frame.preserves_emit, Frame.has_embedding_dir_log_blind. }
  destruct (resolve d (embedding_dir self ++ [c])) as [[f|es]|];
    [exact Hrun | apply Frame.preserves_raise | exact Hrun].
Qed.

Lemma preserves_getitem (self : FluorescenceDataset) (index : Z) :
  preserves (has_embedding_dir self) (getitem self index).
Proof.
  intros w Hdir.
  destruct (Frame.getitem_same_disk self index w Hdir) as [Hd _].
  destruct Hdir as [es Hes]. exists es. rewrite Hd. exact Hes.
Qed.

(** With the task directory in place, deriving a path succeeds and the
    embeddings directory exists afterwards. *)
Lemma cached_embedding_path_in_task_dir (self : FluorescenceDataset)
      (index : Z) (w : world) (es : list (string * node)) :
  resolve (disk w) (data_path self ++ [task_name]) = Some (Dir es) ->
  (forall c, resolve (disk w) (embedding_dir self) <> Some (File c)) ->
  exists w',
    cached_embedding_path self index w = (Ok (embedding_file self index), w')
    /\ has_embedding_dir self w'
    /\ (resolve (disk w) (embedding_dir self) = None ->
        exists d',
          put (disk w) (embedding_dir self) (Dir []) = Some d'
          /\ w' = logged (changed w d') (Mkdir (embedding_dir self))).
Proof.
  intros Htask Hnofile.
  destruct (CacheFacts.cached_embedding_path_cases self index w)
    as [(es' & Hdir & E) | [(d' & Hnone & Hput & E) | (e & Hno & E)]].
  - exists w. split; [exact E|]. split; [exists es'; exact Hdir|].
    intro Hnone. congruence.
  - exists (logged (changed w d') (Mkdir (embedding_dir self))).
    split; [exact E|]. split.
    + exists []. cbn [disk logged changed].
      apply (DiskFacts.put_resolve (disk w) _ _ d' Hput).
    + intros _. exists d'. auto.
  - exfalso.
    destruct (resolve (disk w) (embedding_dir self)) as [[c|es']|] eqn:Hdir.
    + exact (Hnofile c eq_refl).
    + exact (Hno es' eq_refl).
    + rewrite CacheFacts.embedding_dir_snoc in Hdir.
      destruct (CacheFacts.mkdir_creates w (data_path self ++ [task_name])
                  "embeddings" es Hdir Htask) as (d' & _ & Hmk).
      unfold cached_embedding_path in E.
      rewrite CacheFacts.embedding_dir_snoc in E.
      erewrite Steps.bind_run in E by exact Hmk. discriminate.
Qed.

End DirFacts.

(** C10, amended.  While the task directory exists and "embeddings" is not a
    regular file in it, [cached_embedding_path] returns the path and the
    embeddings directory exists afterwards, created by the call when it was
    absent; the same holds after [load_cached_embedding] and, for a model
    with parameters, after [make_embedding], whatever they return. *)
Theorem cached_embedding_path_creates_directory
        (self : FluorescenceDataset) (model : ProteinModel) (index : Z)
        (w : world) (es : list (string * node)) :
  resolve (disk w) (data_path self ++ [task_name]) = Some (Dir es) ->
  (forall c, resolve (disk w) (embedding_dir self) <> Some (File c)) ->
  (exists w',
      cached_embedding_path self index w = (Ok (embedding_file self index), w')
      /\ has_embedding_dir self w'
      /\ (resolve (disk w) (embedding_dir self) = None ->
          exists d',
            put (disk w) (embedding_dir self) (Dir []) = Some d'
            /\ w' = logged (changed w d') (Mkdir (embedding_dir self))))
  /\ has_embedding_dir self (snd (load_cached_embedding self index w))
  /\ (parameters model <> [] ->
      has_embedding_dir self (snd (make_embedding self model index w))).
Proof.
  intros Htask Hnofile.
  destruct (DirFacts.cached_embedding_path_in_task_dir self index w es
              Htask Hnofile) as (w' & Hpath & Hdir & Hcreated).
  split; [exists w'; auto|]. split.
  - unfold load_cached_embedding.
    erewrite Steps.bind_run by exact Hpath.
    apply Frame.preserves_bind; [|intro t; apply Frame.preserves_ret|exact Hdir].
    apply Frame.preserves_torch_load, Frame.has_embedding_dir_log_blind.
  - intro Hparams. unfold make_embedding.
    destruct (parameters model) as [|dev rest]; [congruence|].
    erewrite Steps.bind_run by reflexivity.
    erewrite Steps.bind_run by exact Hpath.
    apply Frame.preserves_bind; [apply Frame.preserves_path_exists | |exact Hdir].
    intros [|]; cbn [negb]; [apply Frame.preserves_ret|].
    apply Frame.preserves_bind; [apply DirFacts.preserves_getitem | intro el].
    apply Frame.preserves_bind; [apply Frame.preserves_lift | intro batch].
    apply Frame.preserves_bind;
      [apply Frame.preserves_run_extract_features,
             Frame.has_embedding_dir_log_blind | intro out].
    apply Frame.preserves_bind; [apply Frame.preserves_lift | intro embed].
    apply DirFacts.preserves_torch_save.
Qed.

Lemma load_cached_embedding_reads_cache_witness :
  (exists e w',
      load_cached_embedding Demo.gfp_cached 1 Demo.cached_world = (Raise e, w'))
  /\ load_cached_embedding Demo.gfp_cached 0 Demo.cached_world
     = (Ok (requires_grad_false (Demo.constant_features 5 1%R)),
        logged Demo.cached_world
               (Loaded (embedding_file Demo.gfp_cached 0)))
  /\ (exists e,
         load_cached_embedding Demo.gfp_cached 0 Demo2.torn_world
         = (Raise e, Demo2.torn_world)).
Proof.
  destruct (load_cached_embedding_reads_cache Demo.gfp_cached 1
              Demo.cached_world) as [Habsent _].
  destruct (load_cached_embedding_reads_cache Demo.gfp_cached 0
              Demo.cached_world) as (_ & Hsaved & _).
  destruct (load_cached_embedding_reads_cache Demo.gfp_cached 0
              Demo2.torn_world) as (_ & _ & Hother & _).
  split; [|split].
  - destruct (Habsent eq_refl) as (e & w' & H & _). exists e, w'. exact H.
  - apply (Hsaved (Demo.constant_features 5 1%R)). reflexivity.
  - apply (Hother (File (Torn (Demo.constant_features 5 1%R)))).
    + reflexivity.
    + discriminate.
Defined.

(** C7 as stated fails: a cached file that exists but was only partly
    written makes [load_cached_embedding] raise; no tensor is returned. *)
Lemma load_cached_embedding_torn_counterexample :
  (exists n, resolve (disk Demo2.torn_world)
                     (embedding_file Demo.gfp_cached 0) = Some n)
  /\ load_cached_embedding Demo.gfp_cached 0 Demo2.torn_world
     = (Raise RuntimeError, Demo2.torn_world)
  /\ ~ (exists t w',
          load_cached_embedding Demo.gfp_cached 0 Demo2.torn_world
          = (Ok t, w')).
Proof.
  split; [eexists; reflexivity|]. split; [reflexivity|].
  intros (t & w' & H). discriminate H.
Qed.

Lemma make_embedding_idempotent_witness :
  make_embedding Demo.gfp_plain Demo.model 0
                 (snd (make_embedding Demo.gfp_plain Demo.model 0 Demo.world0))
  = (Ok tt, snd (make_embedding Demo.gfp_plain Demo.model 0 Demo.world0)).
Proof.
  apply (make_embedding_idempotent Demo.gfp_plain Demo.model 0 Demo.world0).
  reflexivity.
Defined.

(** The first call of the demonstration computes the features once and
    writes the file. *)
Example make_embedding_first_call :
  log (snd (make_embedding Demo.gfp_plain Demo.model 0 Demo.world0))
  = [Written (embedding_file Demo.gfp_plain 0);
     OpenForWriting (embedding_file Demo.gfp_plain 0);
     Forward;
     Mkdir (embedding_dir Demo.gfp_plain)]
  /\ embedding_file Demo.gfp_plain 0
     = ["data"; "fluorescence"; "embeddings"; "train_0.pt"]%string.
Proof. split; reflexivity. Qed.

Lemma cached_embedding_path_creates_directory_witness :
  exists w',
    cached_embedding_path Demo.gfp_plain 0 Demo.world0
    = (Ok ["data"; "fluorescence"; "embeddings"; "train_0.pt"]%string, w')
    /\ has_embedding_dir Demo.gfp_plain w'
    /\ log w' = [Mkdir ["data"; "fluorescence"; "embeddings"]%string].
Proof.
  destruct (cached_embedding_path_creates_directory
              Demo.gfp_plain Demo.model 0 Demo.world0
              [("wtGFP.a3m"%string, File (Text Demo.gfp_alignment))])
    as ((w' & Hpath & Hdir & Hcreated) & _ & _).
  - reflexivity.
  - intros c H. discriminate H.
  - exists w'. split; [exact Hpath|]. split; [exact Hdir|].
    destruct (Hcreated eq_refl) as (d' & _ & ->). reflexivity.
Defined.

(** C10 as stated fails: without the task directory the call raises and
    creates nothing. *)
Lemma cached_embedding_path_counterexample :
  resolve (disk Demo.bare_world) (embedding_dir Demo.gfp_plain) = None
  /\ cached_embedding_path Demo.gfp_plain 0 Demo.bare_world
     = (Raise FileNotFoundError, Demo.bare_world)
  /\ fst (load_cached_embedding Demo.gfp_plain 0 Demo.bare_world)
     = Raise FileNotFoundError
  /\ make_embedding Demo.gfp_plain Demo.model 0 Demo.bare_world
     = (Raise FileNotFoundError, Demo.bare_world).
Proof. repeat split. Qed.

(** ** The disk states a call goes through *)

Module History.

Lemma put_sibling (d d' : node) (p : path) (c c' : string) (new : node) :
  put d (p ++ [c]) new = Some d' ->
  c' <> c ->
  resolve d' (p ++ [c']) = resolve d (p ++ [c']).
Proof.
  revert d d'. induction p as [|c0 p IH]; intros d d' Hput Hne; simpl in *.
  - destruct d as [f|es]; [discriminate|]. injection Hput as <-.
    rewrite DiskFacts.assoc_set_other by congruence. reflexivity.
  - destruct d as [f|es]; [discriminate|].
    destruct (p ++ [c]) as [|c1 rest] eqn:Hp; [destruct p; discriminate|].
    destruct (assoc c0 es) as [n'|] eqn:E; [|discriminate].
    destruct (put n' (c1 :: rest) new) as [n''|] eqn:E'; [|discriminate].
    injection Hput as <-. rewrite DiskFacts.assoc_set_same.
    apply (IH n' n'' E' Hne).
Qed.

Section Invariant.

(** A property of disks that holds at the start and survives the two kinds
    of change a call makes: creating the embeddings directory and writing the
    cache entry of [index]. *)
Variables (self : FluorescenceDataset) (index : Z) (w0 : world).
Variable good : node -> Prop.

Hypothesis good_start : good (disk w0).

Hypothesis good_mkdir :
  forall d d',
    good d ->
    resolve d (embedding_dir self) = None ->
    put d (embedding_dir self) (Dir []) = Some d' ->
    good d'.

Hypothesis good_write :
  forall d d' c,
    good d ->
    (exists t, c = Torn t \/ c = Saved t) ->
    put d (embedding_file self index) (File c) = Some d' ->
    good d'.

Let through : world -> Prop := history_all good w0.

Lemma through_start : through w0.
Proof. exists []. split; [reflexivity | constructor]. Qed.

Lemma through_disk (w : world) : through w -> good (disk w).
Proof.
  intros ([|d k] & Hk & Hall).
  - injection Hk as -> _. exact good_start.
  - injection Hk as -> _. apply (Forall_inv Hall).
Qed.

Lemma through_changed (w : world) (d : node) :
  through w -> good d -> through (changed w d).
Proof.
  intros (k & Hk & Hall) Hd. exists (d :: k). cbn [disk earlier changed].
  split; [rewrite Hk; reflexivity | constructor; assumption].
Qed.

Lemma through_log_blind : log_blind through.
Proof. intros w e H. exact H. Qed.

(** Every disk state from [w0] to [w] is good. *)
Lemma through_states (w : world) (d : node) :
  through w -> In d (states_since w0 w) -> good d.
Proof.
  intros (k & Hk & Hall) Hin. unfold states_since in Hin.
  assert (Hlen : List.length (earlier w)
                 = List.length k + List.length (earlier w0)).
  { apply (f_equal (@List.length node)) in Hk.
    rewrite length_app in Hk. cbn [List.length] in Hk. lia. }
  rewrite Hk, Hlen in Hin.
  replace (S (List.length k + List.length (earlier w0)
              - List.length (earlier w0)))
    with (List.length k + 1) in Hin by lia.
  rewrite firstn_app_2 in Hin. cbn [firstn] in Hin.
  apply in_app_or in Hin as [Hin | [<- | []]].
  - apply (proj1 (Forall_forall _ k) Hall d Hin).
  - exact good_start.
Qed.

Lemma through_write_entry (c : file_content) :
  (exists t, c = Torn t \/ c = Saved t) ->
  preserves through (write_node (embedding_file self index) (File c)).
Proof.
  intros Hc w H. unfold write_node, bind, get_disk, raise, set_disk.
  destruct (resolve (disk w) (parent (embedding_file self index)))
    as [[f|es]|]; try exact H.
  destruct (put (disk w) (embedding_file self index) (File c)) as [d'|]
    eqn:Hput; [|exact H].
  apply (through_changed w d' H).
  apply (good_write (disk w) d' c (through_disk w H) Hc Hput).
Qed.

Lemma through_mkdir :
  preserves through (mkdir_exist_ok (embedding_dir self)).
Proof.
  intros w H.
  unfold mkdir_exist_ok, bind, get_disk, write_node, bind, get_disk, raise,
    set_disk, emit, ret.
  destruct (resolve (disk w) (embedding_dir self)) as [[f|es]|] eqn:Hdir;
    try exact H.
  destruct (resolve (disk w) (parent (embedding_dir self)))
    as [[f|es]|]; try exact H.
  destruct (put (disk w) (embedding_dir self) (Dir [])) as [d'|] eqn:Hput;
    [|exact H].
  cbn [snd].
  apply (through_log_blind (changed w d') (Mkdir (embedding_dir self))).
  apply (through_changed w d' H).
  apply (good_mkdir (disk w) d' (through_disk w H) Hdir Hput).
Qed.

Lemma through_cached_embedding_path :
  preserves through (cached_embedding_path self index).
Proof.
  unfold cached_embedding_path.
  apply Frame.preserves_bind; [apply through_mkdir | intros _].
  apply Frame.preserves_ret.
Qed.

Lemma through_load_cached_embedding :
  preserves through (load_cached_embedding self index).
Proof.
  unfold load_cached_embedding.
  apply Frame.preserves_bind; [apply through_cached_embedding_path | intro p].
  apply Frame.preserves_bind;
    [apply Frame.preserves_torch_load, through_log_blind | intro t].
  apply Frame.preserves_ret.
Qed.

Lemma through_getitem : preserves through (getitem self index).
Proof.
  unfold getitem.
  apply Frame.preserves_bind; [apply Frame.preserves_lift | intro item].
  apply Frame.preserves_bind; [apply Frame.preserves_lift | intro sequence].
  apply Frame.preserves_bind;
    [destruct (use_msa self);
     [apply Frame.preserves_lift | apply Frame.preserves_ret]
    | intro tokens].
  apply Frame.preserves_bind; [apply Frame.preserves_lift | intro value].
  destruct (return_cached_embeddings self); [|apply Frame.preserves_ret].
  apply Frame.preserves_bind;
    [apply through_load_cached_embedding | intro t].
  apply Frame.preserves_ret.
Qed.

Lemma through_torch_save (t : tensor R) :
  preserves through (torch_save t (embedding_file self index)).
Proof.
  unfold torch_save. apply Frame.preserves_bind;
    [apply Frame.preserves_get_disk | intro d].
  assert (Hrun : preserves through
                   (bind (write_node (embedding_file self index)
                                     (File (Torn t)))
                      (fun _ => bind (emit (OpenForWriting
                                              (embedding_file self index)))
                         (fun _ => bind (write_node (embedding_file self index)
                                                    (File (Saved t)))
                            (fun _ => emit (Written
                                              (embedding_file self index))))))).
  { apply Frame.preserves_bind; [apply through_write_entry; eauto | intros _].
    apply Frame.preserves_bind;
      [apply Frame.preserves_emit, through_log_blind | intros _].
    apply Frame.preserves_bind; [apply through_write_entry; eauto | intros _].
    apply Frame.preserves_emit, through_log_blind. }
  destruct (resolve d (embedding_file self index)) as [[f|es]|];
    [exact Hrun | apply Frame.preserves_raise | exact Hrun].
Qed.

Lemma through_make_embedding (model : ProteinModel) :
  preserves through (make_embedding self model index).
Proof.
  unfold make_embedding.
  apply Frame.preserves_bind; [apply Frame.preserves_lift | intro dev].
  apply (Frame.preserves_bind_with
           through (fun p => p = embedding_file self index)).
  - apply through_cached_embedding_path.
  - intros w p w' H.
    apply (Steps.cached_embedding_path_ok_inv self index w w' p H).
  - intros p ->.
    apply Frame.preserves_bind;
      [apply Frame.preserves_path_exists | intro present].
    destruct (negb present); [|apply Frame.preserves_ret].
    apply Frame.preserves_bind; [apply through_getitem | intro el].
    apply Frame.preserves_bind; [apply Frame.preserves_lift | intro batch].
    apply Frame.preserves_bind;
      [apply Frame.preserves_run_extract_features, through_log_blind
      | intro out].
    apply Frame.preserves_bind; [apply Frame.preserves_lift | intro embed].
    apply through_torch_save.
Qed.

(** Whatever a call of [make_embedding] returns, every disk state it goes
    through is good. *)
Lemma make_embedding_states (model : ProteinModel) (d : node) :
  In d (states_since w0 (snd (make_embedding self model index w0))) ->
  good d.
Proof.
  apply through_states. apply through_make_embedding, through_start.
Qed.

End Invariant.

(** No disk state changes another entry of the cache. *)
Lemma make_embedding_keeps_others (self : FluorescenceDataset)
      (model : ProteinModel) (index : Z) (w : world) (d : node) :
  In d (states_since w (snd (make_embedding self model index w))) ->
  other_entries_kept self index w d.
Proof.
  apply (make_embedding_states self index w (other_entries_kept self index w)).
  - intros c _. reflexivity.
  - intros d0 d' Hgood Hdir Hput c Hc.
    rewrite (fresh_dir_is_empty d0 d' _ c Hput), <- (Hgood c Hc).
    rewrite DiskFacts.resolve_app, Hdir. reflexivity.
  - intros d0 d' c Hgood _ Hput c' Hc'.
    rewrite (put_sibling d0 d' _ _ c' (File c) Hput Hc').
    apply (Hgood c' Hc').
Qed.

(** In every disk state the entry being written is as it was, absent,
    partially written or complete. *)
Lemma make_embedding_entry_states (self : FluorescenceDataset)
      (model : ProteinModel) (index : Z) (w : world) (d : node) :
  In d (states_since w (snd (make_embedding self model index w))) ->
  entry_state self index w d.
Proof.
  apply (make_embedding_states self index w (entry_state self index w)).
  - left. reflexivity.
  - intros d0 d' _ _ Hput. right. left.
    apply (fresh_dir_is_empty d0 d' _ _ Hput).
  - intros d0 d' c _ [t [-> | ->]] Hput; right; right; exists t;
      [left | right]; apply (DiskFacts.put_resolve d0 _ _ d' Hput).
Qed.

End History.

(** ** Interrupted writes *)

Module Crash.

Lemma lift_ok_inv {A : Type} (r : result A) (w w' : world) (a : A) :
  lift r w = (Ok a, w') -> r = Ok a /\ w' = w.
Proof. unfold lift. intro H. injection H as -> <-. auto. Qed.

Lemma run_extract_features_ok_inv (model : ProteinModel) (n : NetInput)
      (w w' : world) (out : tensor R) :
  run_extract_features model n w = (Ok out, w') -> w' = logged w Forward.
Proof.
  unfold run_extract_features. intro H.
  apply Steps.bind_ok_inv in H as ([] & w1 & H1 & H).
  unfold emit in H1. injection H1 as <-.
  apply lift_ok_inv in H as [_ ->]. reflexivity.
Qed.

(** A call that returned after finding no cached file wrote it with
    [torch.save], from a world whose history extends the initial one. *)
Lemma make_embedding_absent_inv (self : FluorescenceDataset)
      (model : ProteinModel) (index : Z) (w w' : world) :
  make_embedding self model index w = (Ok tt, w') ->
  resolve (disk w) (embedding_file self index) = None ->
  exists k w6 t dT dS,
    earlier w6 = k ++ earlier w
    /\ put (disk w6) (embedding_file self index) (File (Torn t)) = Some dT
    /\ put dT (embedding_file self index) (File (Saved t)) = Some dS
    /\ w' = logged (changed (logged (changed w6 dT)
                                    (OpenForWriting (embedding_file self index)))
                            dS)
                   (Written (embedding_file self index)).
Proof.
  unfold make_embedding. intros H Habsent.
  apply Steps.bind_ok_inv in H as (dev & w0 & Hdev & H).
  apply lift_ok_inv in Hdev as [_ ->].
  apply Steps.bind_ok_inv in H as (p & w1 & Hp & H).
  apply Steps.cached_embedding_path_ok_inv in Hp as (-> & Hdir & Hw1).
  assert (Hk : exists k, earlier w1 = k ++ earlier w
                         /\ resolve (disk w1) (embedding_file self index) = None).
  { destruct Hw1 as [-> | (d' & _ & Hput & ->)].
    - exists []. auto.
    - exists [disk w]. split; [reflexivity|].
      cbn [disk logged changed].
      apply (fresh_dir_is_empty (disk w) d' _ _ Hput). }
  destruct Hk as (k & Hk & Habsent1).
  apply Steps.bind_ok_inv in H as (present & w2 & Hpres & H).
  unfold path_exists, bind, get_disk, ret in Hpres.
  rewrite Habsent1 in Hpres. injection Hpres as <- <-. cbn [negb] in H.
  apply Steps.bind_ok_inv in H as (el & w3 & Hel & H).
  pose proof (Frame.getitem_same_disk self index w1 Hdir) as Hsame.
  rewrite Hel in Hsame. destruct Hsame as [Hd3 He3]. cbn [snd] in Hd3, He3.
  apply Steps.bind_ok_inv in H as (batch & w4 & Hbatch & H).
  apply lift_ok_inv in Hbatch as [_ ->].
  apply Steps.bind_ok_inv in H as (out & w5 & Hout & H).
  apply run_extract_features_ok_inv in Hout as ->.
  apply Steps.bind_ok_inv in H as (embed & w6 & Hembed & H).
  apply lift_ok_inv in Hembed as [_ ->].
  apply Steps.torch_save_ok_inv in H as (dT & dS & HdT & HdS & ->).
  exists k, (logged w3 Forward), (cpu_clone embed), dT, dS.
  cbn [earlier disk logged] in *. rewrite He3, Hk. auto.
Qed.

End Crash.

(** C9, amended.  The write of [make_embedding] goes to the final path
    directly: a call that computes and saves an embedding takes the disk
    through a state in which the cached file is partially written, a state an
    interrupted process leaves behind.  A later [make_embedding] takes such a
    file as present and changes nothing, and [load_cached_embedding] raises
    on it.  In every state a call goes through, the entry it writes is as it
    was, absent, partially written or complete, and the other entries of the
    cache are as they were. *)
Theorem make_embedding_write_is_not_atomic
        (self : FluorescenceDataset) (model : ProteinModel) (index : Z)
        (w w' : world) :
  (make_embedding self model index w = (Ok tt, w') ->
   resolve (disk w) (embedding_file self index) = None ->
   exists d t,
     In d (states_since w w')
     /\ resolve d (embedding_file self index) = Some (File (Torn t)))
  /\ (forall t,
         resolve (disk w) (embedding_file self index) = Some (File (Torn t)) ->
         (parameters model <> [] ->
          make_embedding self model index w = (Ok tt, w))
         /\ exists e, load_cached_embedding self index w = (Raise e, w))
  /\ (forall d,
         In d (states_since w (snd (make_embedding self model index w))) ->
         entry_state self index w d /\ other_entries_kept self index w d).
Proof.
  split; [|split].
  - intros Hrun Habsent.
    destruct (Crash.make_embedding_absent_inv self model index w w'
                Hrun Habsent) as (k & w6 & t & dT & dS & Hk & HdT & HdS & ->).
    exists dT, t. split.
    + unfold states_since. cbn [earlier disk logged changed].
      rewrite Hk. cbn [List.length]. rewrite length_app.
      replace (S (S (List.length k + List.length (earlier w)))
               - List.length (earlier w))
        with (S (S (List.length k))) by lia.
      cbn [firstn]. right. left. reflexivity.
    + apply (DiskFacts.put_resolve (disk w6) _ _ dT HdT).
  - intros t Htorn. split.
    + intro Hparams.
      apply (Steps.make_embedding_present self model index w _ Hparams Htorn).
    + destruct (DiskFacts.resolve_below_is_dir (disk w) (embedding_dir self)
                  (embedding_name self index) _ Htorn) as [es Hdir].
      destruct (torch_load_not_saved w (embedding_file self index)) as [e He].
      { intros t' Ht'. congruence. }
      exists e. unfold load_cached_embedding.
      erewrite Steps.bind_run
        by (apply Frame.cached_embedding_path_settled; exists es; exact Hdir).
      erewrite Steps.bind_raise by exact He. reflexivity.
  - intros d Hd. split.
    + apply (History.make_embedding_entry_states self model index w d Hd).
    + apply (History.make_embedding_keeps_others self model index w d Hd).
Qed.

Lemma make_embedding_write_is_not_atomic_witness :
  exists d t,
    In d (states_since Demo.world0
            (snd (make_embedding Demo.gfp_plain Demo.model 0 Demo.world0)))
    /\ resolve d (embedding_file Demo.gfp_plain 0) = Some (File (Torn t)).
Proof.
  refine (proj1 (make_embedding_write_is_not_atomic
                   Demo.gfp_plain Demo.model 0 Demo.world0
                   (snd (make_embedding Demo.gfp_plain Demo.model 0
                                        Demo.world0))) _ _).
  - reflexivity.
  - reflexivity.
Defined.

(** C9 as stated fails: the second disk state of the demonstration's first
    call holds a partially written cache file; a process that starts on that
    disk skips the file in [make_embedding] and cannot load it. *)
Lemma make_embedding_torn_file_counterexample :
  exists d t,
    nth_error (states_since Demo.world0
                 (snd (make_embedding Demo.gfp_plain Demo.model 0
                                      Demo.world0))) 1 = Some d
    /\ resolve d (embedding_file Demo.gfp_plain 0) = Some (File (Torn t))
    /\ make_embedding Demo.gfp_plain Demo.model 0 (Demo.restart d)
       = (Ok tt, Demo.restart d)
    /\ load_cached_embedding Demo.gfp_plain 0 (Demo.restart d)
       = (Raise RuntimeError, Demo.restart d).
Proof.
  eexists. eexists. split; [reflexivity|]. repeat split.
Qed.

(** ** __getitem__ *)

(** What [__getitem__] returns once the aligned query is known and, in MSA
    mode, encodes to the width of the context block. *)
Lemma getitem_with_aligned_query
        (self : FluorescenceDataset) (index : Z) (w : world)
        (record : Item) (v : R) (others : list R) :
  data_at self index = Ok record ->
  log_fluorescence record = v :: others ->
  (return_cached_embeddings self = true ->
   exists t, resolve (disk w) (embedding_file self index)
             = Some (File (Saved t))) ->
  (use_msa self = false ->
   exists b w',
     getitem self index w = (Ok b, w')
     /\ shape (b_src_tokens b)
        = [List.length (encode (tokenizer self) (primary record))]
     /\ shape (b_log_fluorescence b) = []
     /\ item (b_log_fluorescence b) [] = v)
  /\ (use_msa self = true ->
      forall a n seq_len sequence,
        msa_attrs self = Some a ->
        shape (msa a) = [n; seq_len] ->
        maybe_align_sequence self (primary record) = Ok sequence ->
        List.length (encode (tokenizer self) sequence) = seq_len ->
        exists b w',
          getitem self index w = (Ok b, w')
          /\ shape (b_src_tokens b) = [1 + n; seq_len]
          /\ (forall j, item (b_src_tokens b) [0; j]
                        = nth j (encode (tokenizer self) sequence) 0%Z)
          /\ (forall i j, item (b_src_tokens b) [S i; j] = item (msa a) [i; j])
          /\ shape (b_log_fluorescence b) = []
          /\ item (b_log_fluorescence b) [] = v).
Proof.
  intros Hdata Hvalue Hcache. split.
  - intro Hoff. unfold getitem.
    erewrite Steps.bind_run by (unfold lift; rewrite Hdata; reflexivity).
    erewrite Steps.bind_run
      by (unfold lift, maybe_align_sequence; rewrite Hoff; reflexivity).
    rewrite Hoff.
    erewrite Steps.bind_run by reflexivity.
    erewrite Steps.bind_run by (unfold lift; rewrite Hvalue; reflexivity).
    destruct (return_cached_embeddings self).
    + destruct (Hcache eq_refl) as [t Ht].
      erewrite Steps.bind_run by (apply load_cached_embedding_saved, Ht).
      eexists. eexists. split; [reflexivity|]. repeat split.
    + eexists. eexists. split; [reflexivity|]. repeat split.
  - intros Hon a n seq_len sequence Ha Hblock Halign Hlen. unfold getitem.
    erewrite Steps.bind_run by (unfold lift; rewrite Hdata; reflexivity).
    erewrite Steps.bind_run by (unfold lift; rewrite Halign; reflexivity).
    rewrite Hon.
    assert (Hcat : cat0 (unsqueeze0 (from_list 0%Z
                                       (encode (tokenizer self) sequence)))
                        (msa a)
                   = Ok {| shape := [1 + n; seq_len];
                           item := fun ix =>
                                     match ix with
                                     | i :: r =>
                                         if i <? 1
                                         then item (unsqueeze0
                                                      (from_list 0%Z
                                                         (encode (tokenizer self)
                                                                 sequence)))
                                                   (i :: r)
                                         else item (msa a) ((i - 1) :: r)
                                     | [] => item (unsqueeze0
                                                     (from_list 0%Z
                                                        (encode (tokenizer self)
                                                                sequence))) []
                                     end;
                           requires_grad := false || requires_grad (msa a);
                           on_device := CPU |}).
    { unfold cat0. cbn [shape unsqueeze0 from_list]. rewrite Hblock, Hlen.
      unfold shape_eqb.
      destruct (list_eq_dec Nat.eq_dec [seq_len] [seq_len]); [|congruence].
      reflexivity. }
    erewrite Steps.bind_run
      by (unfold lift, attr; rewrite Ha; cbn [rbind]; rewrite Hcat;
          reflexivity).
    erewrite Steps.bind_run by (unfold lift; rewrite Hvalue; reflexivity).
    destruct (return_cached_embeddings self).
    + destruct (Hcache eq_refl) as [t Ht].
      erewrite Steps.bind_run by (apply load_cached_embedding_saved, Ht).
      eexists. eexists. split; [reflexivity|].
      cbn [b_src_tokens b_log_fluorescence shape item scalar].
      repeat split. intros i j. cbn. rewrite Nat.sub_0_r. reflexivity.
    + eexists. eexists. split; [reflexivity|].
      cbn [b_src_tokens b_log_fluorescence shape item scalar].
      repeat split. intros i j. cbn. rewrite Nat.sub_0_r. reflexivity.
Qed.

(** ** The attention mask of the predictor *)

Module PredictorFacts.
Import Predictor.

Local Open Scope R_scope.

Lemma sum_upto_ext (n : nat) (f g : nat -> R) :
  (forall j, f j = g j) -> sum_upto n f = sum_upto n g.
Proof.
  intro H. unfold sum_upto. f_equal. apply map_ext. intros j. apply H.
Qed.

Lemma sum_constant (l : list nat) (c : R) :
  fold_right Rplus 0 (map (fun _ => c) l) = INR (List.length l) * c.
Proof.
  induction l as [|a l IH].
  - simpl. lra.
  - cbn [map fold_right List.length]. rewrite IH, S_INR. lra.
Qed.

Lemma sum_upto_constant (n : nat) (c : R) :
  sum_upto n (fun _ => c) = INR n * c.
Proof. unfold sum_upto. rewrite sum_constant, length_seq. reflexivity. Qed.

(** The softmax of equal scores is uniform. *)
Lemma softmax_of_constant (n : nat) (c : R) :
  (0 < n)%nat ->
  exp c / sum_upto n (fun _ => exp c) = 1 / INR n.
Proof.
  intro Hn. rewrite sum_upto_constant.
  assert (Hexp : exp c <> 0) by (pose proof (exp_pos c); lra).
  assert (Hinr : INR n <> 0) by (apply not_0_INR; lia).
  field. split; assumption.
Qed.

(** The mask [forward] builds marks position [j] of example [i] as valid
    when [j] is below the effective length, whatever its sign. *)
Lemma forward_mask_value (tokens lengths : tensor Z) (f : tensor R)
      (b t l : nat) (rest frest : list nat) :
  shape tokens = b :: t :: rest ->
  shape lengths = [b] ->
  shape f = b :: l :: frest ->
  exists mask,
    forward_mask tokens lengths f = Ok mask
    /\ shape mask = [b; l]
    /\ forall i j,
        item mask [i; j]
        = (Z.of_nat j <? item lengths [i] - (Z.of_nat t - Z.of_nat l))%Z.
Proof.
  intros Htokens Hlengths Hf.
  unfold forward_mask, effective_lengths. rewrite Htokens, Hf.
  cbn [rbind]. unfold seqlen_mask. cbn [shape]. rewrite Hf, Hlengths.
  eexists. split; [reflexivity|]. split; reflexivity.
Qed.

(** The scores at the masked positions are -10000. *)
Lemma masked_scores_value (self : FluorescencePredictor)
      (tokens lengths : tensor Z) (f : tensor R) (mask : tensor bool)
      (b l : nat) :
  shape f = [b; l; embedding_dim self] ->
  forward_mask tokens lengths f = Ok mask ->
  shape mask = [b; l] ->
  exists scores,
    masked_scores self tokens lengths f = Ok scores
    /\ shape scores = [b; l; 1%nat]
    /\ forall i j r, item mask [i; j] = false ->
                     item scores (i :: j :: r) = -10000.
Proof.
  intros Hf Hmask Hmshape.
  unfold masked_scores, compute_attention_weights. rewrite Hf.
  rewrite Nat.eqb_refl. cbn [rbind]. rewrite Hmask. cbn [rbind].
  unfold masked_fill_invalid. cbn [shape div_scalar]. rewrite Hmshape.
  rewrite !Nat.eqb_refl. cbn [andb].
  eexists. split; [reflexivity|]. split; [reflexivity|].
  intros i j r Hfalse. cbn [item]. rewrite Hfalse. reflexivity.
Qed.

(** Where all scores of an example are equal, its weights are uniform. *)
Lemma softmax1_uniform (scores : tensor R) (b l i : nat) (c : R) :
  shape scores = [b; l; 1%nat] ->
  (forall j, item scores [i; j; 0%nat] = c) ->
  forall j, (j < l)%nat -> item (softmax1 scores) [i; j; 0%nat] = 1 / INR l.
Proof.
  intros Hshape Hconst j Hj. cbn [item softmax1]. rewrite Hshape. cbn [nth].
  rewrite Hconst.
  rewrite (sum_upto_ext l _ (fun _ => exp c))
    by (intro j'; rewrite Hconst; reflexivity).
  apply softmax_of_constant. lia.
Qed.

End PredictorFacts.

(** C8, amended.  An example whose effective length is not positive is
    neither clamped nor rejected by [forward]: every position of the example
    is masked and filled with -10000, the softmax weights are uniform over the
    feature positions, and the prediction is computed from them. *)
Theorem forward_degenerate_mask_is_silent
        (self : Predictor.FluorescencePredictor)
        (tokens lengths : tensor Z) (f : tensor R)
        (b t l i : nat) (rest : list nat) :
  shape tokens = b :: t :: rest ->
  shape lengths = [b] ->
  shape f = [b; l; Predictor.embedding_dim self] ->
  (item lengths [i] - (Z.of_nat t - Z.of_nat l) <= 0)%Z ->
  exists mask scores weights,
    Predictor.forward_mask tokens lengths f = Ok mask
    /\ (forall j, item mask [i; j] = false)
    /\ Predictor.masked_scores self tokens lengths f = Ok scores
    /\ (forall j, item scores [i; j; 0] = (-10000)%R)
    /\ Predictor.attention self tokens lengths f = Ok weights
    /\ (forall j, j < l -> item weights [i; j; 0] = (1 / INR l)%R)
    /\ Predictor.forward self tokens lengths (Some f)
       = Ok (Predictor.mlp self
               (Predictor.pool f (Predictor.dropout self weights))).
Proof.
  intros Htokens Hlengths Hf Heff.
  destruct (PredictorFacts.forward_mask_value tokens lengths f b t l rest
              [Predictor.embedding_dim self] Htokens Hlengths Hf)
    as (mask & Hmask & Hmshape & Hmitem).
  assert (Hfalse : forall j, item mask [i; j] = false).
  { intro j. rewrite Hmitem. apply Z.ltb_ge. lia. }
  destruct (PredictorFacts.masked_scores_value self tokens lengths f mask b l
              Hf Hmask Hmshape) as (scores & Hscores & Hsshape & Hsitem).
  assert (Hattention : Predictor.attention self tokens lengths f
                       = Ok (Predictor.softmax1 scores)).
  { unfold Predictor.attention. rewrite Hscores. reflexivity. }
  exists mask, scores, (Predictor.softmax1 scores).
  split; [exact Hmask|]. split; [exact Hfalse|].
  split; [exact Hscores|].
  split; [intro j; apply Hsitem, Hfalse|].
  split; [exact Hattention|]. split.
  - apply (PredictorFacts.softmax1_uniform scores b l i (-10000)%R Hsshape).
    intro j. apply Hsitem, Hfalse.
  - unfold Predictor.forward, Predictor.forward_features. cbn [rbind].
    rewrite Hattention. reflexivity.
Qed.

Lemma forward_degenerate_mask_is_silent_witness :
  exists mask weights,
    Predictor.forward_mask Demo.short_tokens Demo.short_lengths
                           Demo.short_features = Ok mask
    /\ item mask [0; 0] = false
    /\ Predictor.attention Demo.predictor Demo.short_tokens Demo.short_lengths
                           Demo.short_features = Ok weights
    /\ item weights [0; 0; 0] = (1 / INR 1)%R.
Proof.
  destruct (forward_degenerate_mask_is_silent
              Demo.predictor Demo.short_tokens Demo.short_lengths
              Demo.short_features 1 3 1 0 [])
    as (mask & scores & weights & Hmask & Hfalse & _ & _ & Hatt & Hw & _).
  - reflexivity.
  - reflexivity.
  - reflexivity.
  - vm_compute. discriminate.
  - exists mask, weights. split; [exact Hmask|]. split; [apply Hfalse|].
    split; [exact Hatt|]. apply Hw. lia.
Defined.

(** C8 as stated fails: for an example of two tokens in a batch padded to
    three, with features over one position, the effective length is 0;
    [forward] returns, the only position is masked, and it gets all the
    attention. *)
Lemma forward_degenerate_mask_counterexample :
  (item Demo.short_lengths [0%nat] - (3 - 1) <= 0)%Z
  /\ is_ok (Predictor.forward Demo.predictor Demo.short_tokens
                              Demo.short_lengths (Some Demo.short_features))
     = true
  /\ exists mask weights,
      Predictor.forward_mask Demo.short_tokens Demo.short_lengths
                             Demo.short_features = Ok mask
      /\ shape mask = [1; 1]
      /\ item mask [0; 0] = false
      /\ Predictor.attention Demo.predictor Demo.short_tokens
                             Demo.short_lengths Demo.short_features
         = Ok weights
      /\ item weights [0; 0; 0] = 1%R.
Proof.
  split; [vm_compute; discriminate|]. split; [reflexivity|].
  destruct (PredictorFacts.forward_mask_value
              Demo.short_tokens Demo.short_lengths Demo.short_features
              1 3 1 [] [2] eq_refl eq_refl eq_refl)
    as (mask & Hmask & Hmshape & Hmitem).
  assert (Hfalse : item mask [0; 0] = false) by (rewrite Hmitem; reflexivity).
  destruct (PredictorFacts.masked_scores_value
              Demo.predictor Demo.short_tokens Demo.short_lengths
              Demo.short_features mask 1 1 eq_refl Hmask Hmshape)
    as (scores & Hscores & Hsshape & Hsitem).
  exists mask, (Predictor.softmax1 scores).
  split; [exact Hmask|]. split; [exact Hmshape|]. split; [exact Hfalse|].
  split.
  - unfold Predictor.attention. rewrite Hscores. reflexivity.
  - cbn [item Predictor.softmax1]. rewrite Hsshape. cbn [nth].
    unfold Predictor.sum_upto. cbn [seq map fold_right].
    rewrite (Hsitem 0 0 [0] Hfalse).
    pose proof (exp_pos (-10000)) as Hpos.
    field. lra.
Qed.

(** * Further properties *)

(** ** The names of the cache files *)

Module Names.

Lemma append_cancel_l (p a b : string) :
  (p ++ a)%string = (p ++ b)%string -> a = b.
Proof.
  induction p as [|c p IH]; simpl; intro H.
  - exact H.
  - injection H as H. apply IH, H.
Qed.

Lemma append_length (a b : string) :
  String.length (a ++ b) = String.length a + String.length b.
Proof. induction a as [|c a IH]; simpl; congruence. Qed.

Lemma append_cancel_r (a b s : string) :
  (a ++ s)%string = (b ++ s)%string -> a = b.
Proof.
  revert b. induction a as [|c a IH]; intros [|c' b] H; simpl in H.
  - reflexivity.
  - apply (f_equal String.length) in H. simpl in H.
    rewrite append_length in H. lia.
  - apply (f_equal String.length) in H. simpl in H.
    rewrite append_length in H. lia.
  - injection H as -> H. f_equal. apply IH, H.
Qed.

Lemma append_assoc (a b c : string) :
  (a ++ (b ++ c))%string = ((a ++ b) ++ c)%string.
Proof. induction a as [|x a IH]; simpl; congruence. Qed.

Lemma all_decimal_append (a b : string) :
  all_decimal (a ++ b) = all_decimal a && all_decimal b.
Proof.
  induction a as [|c a IH]; simpl.
  - reflexivity.
  - rewrite IH, andb_assoc. reflexivity.
Qed.

Lemma all_decimal_uint (d : Decimal.uint) :
  all_decimal (NilEmpty.string_of_uint d) = true.
Proof. induction d; simpl; auto. Qed.

(** [str(index)] consists of digits and at most a sign. *)
Lemma all_decimal_str (index : Z) :
  all_decimal (NilZero.string_of_int (Z.to_int index)) = true.
Proof.
  assert (H : forall d, all_decimal (NilZero.string_of_uint d) = true).
  { intros []; try reflexivity;
      apply (all_decimal_uint (_ _)). }
  destruct index; simpl; auto.
Qed.

(** [str] is injective on the integers. *)
Lemma str_injective (i j : Z) :
  NilZero.string_of_int (Z.to_int i) = NilZero.string_of_int (Z.to_int j) ->
  i = j.
Proof.
  intro H. apply DecimalZ.to_int_inj.
  assert (Hnn : forall z, Z.to_int z <> Decimal.Pos Decimal.Nil
                          /\ Z.to_int z <> Decimal.Neg Decimal.Nil).
  { intros [|p|p]; simpl; split; try discriminate;
      intro E; injection E as E;
      exact (DecimalPos.Unsigned.to_uint_nonnil p E). }
  apply (f_equal NilZero.int_of_string) in H.
  rewrite !NilZero.isi in H by apply Hnn.
  injection H as H. exact H.
Qed.

Lemma embedding_name_injective (self : FluorescenceDataset) (i j : Z) :
  embedding_name self i = embedding_name self j -> i = j.
Proof.
  unfold embedding_name. intro H.
  apply append_cancel_l in H. apply (append_cancel_l "_") in H.
  apply append_cancel_r in H. apply str_injective, H.
Qed.

End Names.

(** X1.  Within one dataset, different indices have different cache files. *)
Theorem embedding_file_injective
        (self : FluorescenceDataset) (i j : Z) :
  i <> j -> embedding_file self i <> embedding_file self j.
Proof.
  unfold embedding_file. intros Hne H.
  apply app_inv_head in H. injection H as H.
  apply Hne, (Names.embedding_name_injective self i j H).
Qed.

Lemma embedding_file_injective_witness :
  embedding_file Demo.gfp_plain 10 <> embedding_file Demo.gfp_plain 1.
Proof.
  apply (embedding_file_injective Demo.gfp_plain 10 1). lia.
Defined.

(** X2.  A dataset in MSA mode and one without MSA, over the same data path
    and split, never share a cache file, whatever the indices. *)
Theorem embedding_file_separates_modes
        (with_msa plain : FluorescenceDataset) (i j : Z) :
  use_msa with_msa = true ->
  use_msa plain = false ->
  data_path with_msa = data_path plain ->
  split with_msa = split plain ->
  embedding_file with_msa i <> embedding_file plain j.
Proof.
  intros Hon Hoff Hpath Hsplit H.
  unfold embedding_file, embedding_dir in H. rewrite Hpath in H.
  apply app_inv_head in H. injection H as H.
  unfold embedding_name in H. rewrite Hon, Hoff, Hsplit in H.
  apply Names.append_cancel_l in H. apply (Names.append_cancel_l "_") in H.
  cbn [append] in H.
  change (NilZero.string_of_int (Z.to_int i) ++ "_msa.pt")%string
    with (NilZero.string_of_int (Z.to_int i) ++ ("_msa" ++ ".pt"))%string in H.
  rewrite Names.append_assoc in H. apply Names.append_cancel_r in H.
  pose proof (Names.all_decimal_str j) as Hj.
  rewrite <- H, Names.all_decimal_append, Names.all_decimal_str in Hj.
  discriminate Hj.
Qed.

Lemma embedding_file_separates_modes_witness :
  embedding_file Demo.gfp_msa 0 <> embedding_file Demo.gfp_plain 0.
Proof.
  apply embedding_file_separates_modes; reflexivity.
Defined.

(** ** __getitem__ without cached embeddings *)

Module GetItem.

(** Without cached embeddings, [__getitem__] neither changes nor reads the
    world. *)
Lemma uncached (self : FluorescenceDataset) (index : Z) (w w0 : world) :
  return_cached_embeddings self = false ->
  getitem self index w = (fst (getitem self index w0), w).
Proof.
  intro Hoff. unfold getitem, bind, lift, ret. rewrite Hoff.
  destruct (data_at self index) as [item|e]; [|reflexivity].
  destruct (maybe_align_sequence self (primary item)) as [sequence|e];
    [|reflexivity].
  destruct (use_msa self).
  - destruct (rbind (attr self msa) _) as [tokens|e]; [|reflexivity].
    destruct (py_index (log_fluorescence item) 0); reflexivity.
  - destruct (py_index (log_fluorescence item) 0); reflexivity.
Qed.

(** With cached embeddings and no cached file, [__getitem__] raises and
    leaves the disk as it is, once the embeddings directory exists. *)
Lemma cache_miss (self : FluorescenceDataset) (index : Z) (w : world) :
  return_cached_embeddings self = true ->
  has_embedding_dir self w ->
  resolve (disk w) (embedding_file self index) = None ->
  exists e w',
    getitem self index w = (Raise e, w') /\ disk w' = disk w.
Proof.
  intros Hon Hdir Habsent.
  assert (Hraise : exists e, fst (getitem self index w) = Raise e).
  { destruct (load_cached_embedding_absent self index w Habsent)
      as (e & w' & Hload & _).
    unfold getitem, bind, lift, ret. rewrite Hon.
    destruct (data_at self index) as [item|e0]; [|eexists; reflexivity].
    destruct (maybe_align_sequence self (primary item)) as [sequence|e0];
      [|eexists; reflexivity].
    destruct (use_msa self).
    - destruct (rbind (attr self msa) _) as [tokens|e0];
        [|eexists; reflexivity].
      destruct (py_index (log_fluorescence item) 0);
        [|eexists; reflexivity].
      rewrite Hload. eexists; reflexivity.
    - destruct (py_index (log_fluorescence item) 0);
        [|eexists; reflexivity].
      rewrite Hload. eexists; reflexivity. }
  destruct Hraise as [e He].
  destruct (Frame.getitem_same_disk self index w Hdir) as [Hd _].
  exists e, (snd (getitem self index w)). split; [|exact Hd].
  rewrite <- He. apply surjective_pairing.
Qed.

End GetItem.

(** X3.  With [return_cached_embeddings] off, [__getitem__] has no effect on
    the world, returns the same result in every world, and attaches no
    features. *)
Theorem getitem_uncached_is_pure
        (self : FluorescenceDataset) (index : Z) (w w0 : world) :
  return_cached_embeddings self = false ->
  snd (getitem self index w) = w
  /\ fst (getitem self index w) = fst (getitem self index w0)
  /\ (forall b, fst (getitem self index w) = Ok b -> b_features b = None).
Proof.
  intro Hoff. rewrite (GetItem.uncached self index w w0 Hoff).
  split; [reflexivity|]. split; [reflexivity|].
  cbn [fst]. intros b Hb.
  unfold getitem, bind, lift, ret in Hb. rewrite Hoff in Hb.
  destruct (data_at self index) as [item|e]; [|discriminate].
  destruct (maybe_align_sequence self (primary item)) as [sequence|e];
    [|discriminate].
  destruct (use_msa self).
  - destruct (rbind (attr self msa) _) as [tokens|e]; [|discriminate].
    destruct (py_index (log_fluorescence item) 0); [|discriminate].
    cbn [fst] in Hb. injection Hb as <-. reflexivity.
  - destruct (py_index (log_fluorescence item) 0); [|discriminate].
    cbn [fst] in Hb. injection Hb as <-. reflexivity.
Qed.

Lemma getitem_uncached_is_pure_witness :
  snd (getitem Demo.gfp_plain 0 Demo.cached_world) = Demo.cached_world
  /\ fst (getitem Demo.gfp_plain 0 Demo.cached_world)
     = fst (getitem Demo.gfp_plain 0 Demo.bare_world).
Proof.
  destruct (getitem_uncached_is_pure Demo.gfp_plain 0 Demo.cached_world
              Demo.bare_world eq_refl) as (H1 & H2 & _).
  split; [exact H1 | exact H2].
Defined.

(** ** Populating the cache *)

Module Populate.

(** Below an existing embeddings directory, a save over anything but a
    directory completes. *)
Lemma torch_save_runs (self : FluorescenceDataset) (index : Z)
      (t : tensor R) (w : world) :
  has_embedding_dir self w ->
  (forall es, resolve (disk w) (embedding_file self index) <> Some (Dir es)) ->
  exists w',
    torch_save t (embedding_file self index) w = (Ok tt, w')
    /\ resolve (disk w') (embedding_file self index) = Some (File (Saved t))
    /\ log w' = Written (embedding_file self index)
                :: OpenForWriting (embedding_file self index) :: log w.
Proof.
  intros [es Hdir] Hnodir.
  destruct (CacheFacts.write_node_below w (embedding_dir self)
              (embedding_name self index) (File (Torn t)) es Hdir)
    as (dT & HdT & HwT).
  destruct (DiskFacts.put_keeps_dir (disk w) (embedding_dir self)
              (embedding_name self index) _ dT es Hdir HdT) as [es' Hdir'].
  set (w1 := logged (changed w dT) (OpenForWriting (embedding_file self index))).
  destruct (CacheFacts.write_node_below w1 (embedding_dir self)
              (embedding_name self index) (File (Saved t)) es' Hdir')
    as (dS & HdS & HwS).
  exists (logged (changed w1 dS) (Written (embedding_file self index))).
  split; [|split; [|reflexivity]].
  - unfold torch_save. erewrite Steps.bind_run by reflexivity.
    assert (Hrun : bind (write_node (embedding_file self index) (File (Torn t)))
                     (fun _ => bind (emit (OpenForWriting (embedding_file self index)))
                        (fun _ => bind (write_node (embedding_file self index)
                                                   (File (Saved t)))
                           (fun _ => emit (Written (embedding_file self index))))) w
                   = (Ok tt, logged (changed w1 dS)
                                    (Written (embedding_file self index)))).
    { erewrite Steps.bind_run by exact HwT.
      erewrite Steps.bind_run by reflexivity.
      erewrite Steps.bind_run by exact HwS. reflexivity. }
    destruct (resolve (disk w) (embedding_file self index)) as [[f|es0]|] eqn:E;
      [exact Hrun | exfalso; exact (Hnodir es0 eq_refl) | exact Hrun].
  - cbn [disk logged changed].
    apply (DiskFacts.put_resolve dT _ _ dS HdS).
Qed.

(** The world after a path derivation that returned, when the cache entry
    was absent before. *)
Lemma path_then_absent (self : FluorescenceDataset) (index : Z)
      (w w1 : world) (p : path) :
  cached_embedding_path self index w = (Ok p, w1) ->
  resolve (disk w) (embedding_file self index) = None ->
  p = embedding_file self index
  /\ has_embedding_dir self w1
  /\ resolve (disk w1) (embedding_file self index) = None
  /\ (log w1 = log w \/ log w1 = Mkdir (embedding_dir self) :: log w).
Proof.
  intros Hp Habsent.
  apply Steps.cached_embedding_path_ok_inv in Hp as (-> & Hdir & Hw1).
  split; [reflexivity|]. split; [exact Hdir|].
  destruct Hw1 as [-> | (d' & _ & Hput & ->)].
  - split; [exact Habsent | left; reflexivity].
  - split; [|right; reflexivity].
    cbn [disk logged changed].
    apply (fresh_dir_is_empty (disk w) d' _ _ Hput).
Qed.

End Populate.

(** X4.  With [return_cached_embeddings] on, [make_embedding] cannot fill the
    cache: whenever the entry of the index is absent, the call raises (it
    reads the entry through [__getitem__] before computing it) and the entry
    is still absent afterwards. *)
Theorem make_embedding_needs_uncached_dataset
        (self : FluorescenceDataset) (model : ProteinModel) (index : Z)
        (w : world) :
  return_cached_embeddings self = true ->
  resolve (disk w) (embedding_file self index) = None ->
  exists e w',
    make_embedding self model index w = (Raise e, w')
    /\ resolve (disk w') (embedding_file self index) = None.
Proof.
  intros Hon Habsent. unfold make_embedding.
  destruct (parameters model) as [|dev rest].
  { exists StopIteration, w. split; [reflexivity | exact Habsent]. }
  erewrite Steps.bind_run by reflexivity.
  destruct (cached_embedding_path self index w) as [[p|e] w1] eqn:Hp.
  - destruct (Populate.path_then_absent self index w w1 p Hp Habsent)
      as (-> & Hdir & Habsent1 & Hlog).
    erewrite Steps.bind_run by exact Hp.
    erewrite Steps.bind_run
      by (unfold path_exists, bind, get_disk, ret; rewrite Habsent1;
          reflexivity).
    cbn [negb].
    destruct (GetItem.cache_miss self index w1 Hon Hdir Habsent1)
      as (e & w' & Hget & Hdisk).
    exists e, w'. erewrite Steps.bind_raise by exact Hget.
    split; [reflexivity|]. rewrite Hdisk. exact Habsent1.
  - exists e, w1. erewrite Steps.bind_raise by exact Hp.
    split; [reflexivity|].
    destruct (CacheFacts.cached_embedding_path_cases self index w)
      as [(es & _ & E) | [(d' & _ & _ & E) | (e' & _ & E)]];
      rewrite E in Hp; try discriminate.
    injection Hp as _ <-. exact Habsent.
Qed.

Lemma make_embedding_needs_uncached_dataset_witness :
  exists e w',
    make_embedding Demo.gfp_cached Demo.model 1 Demo.cached_world
    = (Raise e, w')
    /\ resolve (disk w') (embedding_file Demo.gfp_cached 1) = None.
Proof.
  apply (make_embedding_needs_uncached_dataset
           Demo.gfp_cached Demo.model 1 Demo.cached_world);
    reflexivity.
Defined.

(** X5.  With [return_cached_embeddings] off, a model with parameters, the
    task directory in place and no entry for the index, [make_embedding]
    returns and stores the first row of the features the model extracts from
    the collated single-example batch, moved to the CPU;
    [load_cached_embedding] then returns that tensor with gradient tracking
    off. *)
Theorem make_embedding_then_load
        (self : FluorescenceDataset) (model : ProteinModel) (index : Z)
        (w : world) (es : list (string * node))
        (dev : device) (rest : list device)
        (el : Bundle) (batch : Batch) (out embed : tensor R) :
  return_cached_embeddings self = false ->
  parameters model = dev :: rest ->
  resolve (disk w) (data_path self ++ [task_name]) = Some (Dir es) ->
  (forall c, resolve (disk w) (embedding_dir self) <> Some (File c)) ->
  resolve (disk w) (embedding_file self index) = None ->
  fst (getitem self index w) = Ok el ->
  collate_fn self [el] = Ok batch ->
  extract_features model (net_input_to dev (net_input batch)) = Ok out ->
  select0 out = Ok embed ->
  exists w',
    make_embedding self model index w = (Ok tt, w')
    /\ resolve (disk w') (embedding_file self index)
       = Some (File (Saved (cpu_clone embed)))
    /\ load_cached_embedding self index w'
       = (Ok (requires_grad_false (cpu_clone embed)),
          logged w' (Loaded (embedding_file self index))).
Proof.
  intros Hoff Hparams Htask Hnofile Habsent Hel Hbatch Hout Hembed.
  destruct (DirFacts.cached_embedding_path_in_task_dir self index w es
              Htask Hnofile) as (w1 & Hpath & _ & _).
  destruct (Populate.path_then_absent self index w w1 _ Hpath Habsent)
    as (_ & Hdir & Habsent1 & _).
  destruct (Populate.torch_save_runs self index (cpu_clone embed)
              (logged w1 Forward)) as (w' & Hsave & Hsaved & _).
  { exact Hdir. }
  { intros es' H. cbn [disk logged] in H. congruence. }
  exists w'. split; [|split; [exact Hsaved|]].
  - unfold make_embedding. rewrite Hparams.
    erewrite Steps.bind_run by reflexivity.
    erewrite Steps.bind_run by exact Hpath.
    erewrite Steps.bind_run
      by (unfold path_exists, bind, get_disk, ret; rewrite Habsent1;
          reflexivity).
    cbn [negb].
    erewrite Steps.bind_run
      by (rewrite (GetItem.uncached self index w1 w Hoff), Hel; reflexivity).
    erewrite Steps.bind_run by (unfold lift; rewrite Hbatch; reflexivity).
    erewrite Steps.bind_run
      by (unfold run_extract_features, bind, emit, lift; rewrite Hout;
          reflexivity).
    erewrite Steps.bind_run by (unfold lift; rewrite Hembed; reflexivity).
    exact Hsave.
  - apply load_cached_embedding_saved. exact Hsaved.
Qed.

Lemma make_embedding_then_load_witness :
  exists w' embed,
    make_embedding Demo.gfp_plain Demo.model 0 Demo.world0 = (Ok tt, w')
    /\ load_cached_embedding Demo.gfp_plain 0 w'
       = (Ok (requires_grad_false (cpu_clone embed)),
          logged w' (Loaded (embedding_file Demo.gfp_plain 0)))
    /\ shape embed = [5; 2].
Proof.
  edestruct (make_embedding_then_load
               Demo.gfp_plain Demo.model 0 Demo.world0
               [("wtGFP.a3m"%string, File (Text Demo.gfp_alignment))]
               CPU [])
    as (w' & Hrun & _ & Hload).
  - reflexivity.
  - reflexivity.
  - reflexivity.
  - intros c H. discriminate H.
  - reflexivity.
  - reflexivity.
  - reflexivity.
  - reflexivity.
  - reflexivity.
  - exists w'. eexists. split; [exact Hrun|]. split; [exact Hload|].
    reflexivity.
Defined.

(** ** Populating the whole cache *)

Module Corpus.

(** A call that returned removed no entry of the cache. *)
Lemma make_embedding_keeps_cached (self : FluorescenceDataset)
      (model : ProteinModel) (j : Z) (w w1 : world) (i : Z) :
  make_embedding self model j w = (Ok tt, w1) ->
  cached self i w -> cached self i w1.
Proof.
  intros Hrun Hi. destruct (Z.eq_dec i j) as [->|Hne].
  - apply (Steps.make_embedding_ok_present self model j w w1 Hrun).
  - assert (Hin : In (disk w1)
                     (states_since w (snd (make_embedding self model j w)))).
    { rewrite Hrun. unfold states_since. cbn [snd firstn]. left. reflexivity. }
    pose proof (History.make_embedding_keeps_others self model j w _ Hin
                  (embedding_name self i)) as Hkept.
    unfold cached, embedding_file in *. rewrite Hkept; [exact Hi|].
    intro E. apply Hne. apply (Names.embedding_name_injective self i j E).
Qed.

Lemma make_embeddings_from_ok (self : FluorescenceDataset)
      (model : ProteinModel) (count : nat) :
  forall (start : Z) (w w' : world),
    make_embeddings_from self model start count w = (Ok tt, w') ->
    (forall i, cached self i w -> cached self i w')
    /\ (forall i, (start <= i < start + Z.of_nat count)%Z -> cached self i w')
    /\ (0 < count -> parameters model <> []).
Proof.
  induction count as [|n IH]; intros start w w' Hrun.
  - cbn [make_embeddings_from] in Hrun. unfold ret in Hrun.
    injection Hrun as <-. split; [auto|]. split; [intros i Hi|]; lia.
  - cbn [make_embeddings_from] in Hrun.
    apply Steps.bind_ok_inv in Hrun as ([] & w1 & Hfirst & Hrest).
    destruct (IH (start + 1)%Z w1 w' Hrest) as (Hkeep & Hrange & _).
    split; [|split].
    + intros i Hi. apply Hkeep.
      apply (make_embedding_keeps_cached self model start w w1 i Hfirst Hi).
    + intros i Hi. destruct (Z.eq_dec i start) as [->|Hne].
      * apply Hkeep.
        apply (Steps.make_embedding_ok_present self model start w w1 Hfirst).
      * apply Hrange. lia.
    + intros _.
      apply (Steps.make_embedding_ok_present self model start w w1 Hfirst).
Qed.

(** Over a range that is cached already, the loop changes nothing. *)
Lemma make_embeddings_from_cached (self : FluorescenceDataset)
      (model : ProteinModel) (count : nat) :
  forall (start : Z) (w : world),
    parameters model <> [] ->
    (forall i, (start <= i < start + Z.of_nat count)%Z -> cached self i w) ->
    make_embeddings_from self model start count w = (Ok tt, w).
Proof.
  induction count as [|n IH]; intros start w Hparams Hall.
  - reflexivity.
  - cbn [make_embeddings_from].
    destruct (Hall start ltac:(lia)) as [nd Hnd].
    erewrite Steps.bind_run
      by (apply (Steps.make_embedding_present self model start w nd
                   Hparams Hnd)).
    apply IH; [exact Hparams|]. intros i Hi. apply Hall. lia.
Qed.

End Corpus.

(** X6.  When [make_all_embeddings] returns, every index of the data has its
    cache entry, no entry that was there before is gone, and running it again
    returns and leaves the world as it is. *)
Theorem make_all_embeddings_completes
        (self : FluorescenceDataset) (model : ProteinModel) (w w' : world) :
  make_all_embeddings self model w = (Ok tt, w') ->
  (forall i, (0 <= i < Z.of_nat (List.length (data self)))%Z ->
             cached self i w')
  /\ (forall i, cached self i w -> cached self i w')
  /\ make_all_embeddings self model w' = (Ok tt, w').
Proof.
  unfold make_all_embeddings. intro Hrun.
  destruct (Corpus.make_embeddings_from_ok self model _ 0%Z w w' Hrun)
    as (Hkeep & Hrange & Hparams).
  split; [exact Hrange|]. split; [exact Hkeep|].
  destruct (List.length (data self)) as [|n] eqn:Hlen.
  - reflexivity.
  - apply Corpus.make_embeddings_from_cached.
    + apply Hparams. lia.
    + exact Hrange.
Qed.

Lemma make_all_embeddings_completes_witness :
  cached Demo.gfp_plain 1
         (snd (make_all_embeddings Demo.gfp_plain Demo.model Demo.world0))
  /\ make_all_embeddings Demo.gfp_plain Demo.model
       (snd (make_all_embeddings Demo.gfp_plain Demo.model Demo.world0))
     = (Ok tt, snd (make_all_embeddings Demo.gfp_plain Demo.model Demo.world0)).
Proof.
  destruct (make_all_embeddings_completes
              Demo.gfp_plain Demo.model Demo.world0
              (snd (make_all_embeddings Demo.gfp_plain Demo.model Demo.world0)))
    as (Hall & _ & Hagain).
  - reflexivity.
  - split; [apply Hall; simpl; lia | exact Hagain].
Defined.

(** ** Collation without features *)

Lemma map_result_raise {A B : Type} (f : A -> result B) (e : exn)
      (l : list A) :
  (forall a, In a l -> f a = Raise e \/ exists b, f a = Ok b) ->
  (exists a, In a l /\ f a = Raise e) ->
  map_result f l = Raise e.
Proof.
  induction l as [|a l IH]; intros Hall (x & Hin & Hx).
  - contradiction.
  - cbn [map_result].
    destruct (Hall a (or_introl eq_refl)) as [Ha | [b Ha]]; rewrite Ha.
    + reflexivity.
    + cbn [rbind]. rewrite IH; [reflexivity | |].
      * intros a' Ha'. apply Hall. right. exact Ha'.
      * destruct Hin as [<-|Hin]; [congruence|]. exists x. auto.
Qed.

(** X7.  With [return_cached_embeddings] on, a batch in which some bundle
    carries no features makes [collate_fn] raise [KeyError], after the token
    arrays and targets were collated. *)
Theorem collate_fn_missing_features
        (self : FluorescenceDataset) (batch : list Bundle) (rank : nat) :
  return_cached_embeddings self = true ->
  (forall el, In el batch ->
              ndim (b_src_tokens el) = S rank
              /\ shape (b_log_fluorescence el) = []) ->
  (exists el, In el batch /\ b_features el = None) ->
  collate_fn self batch = Raise KeyError.
Proof.
  intros Hon Hok (missing & Hin & Hnone).
  assert (Hne : batch <> []) by (intro E; rewrite E in Hin; contradiction).
  destruct (TorchFacts.pad_sequences_ok (map b_src_tokens batch) (pad_idx self)
              rank) as (tokens & Htok & _).
  { destruct batch; [congruence | discriminate]. }
  { intros s Hs. apply in_map_iff in Hs as (el & <- & Hel).
    apply (Hok el Hel). }
  assert (Hwidths : map_result (fun el => size_last (b_src_tokens el)) batch
                    = Ok (map (fun el => width (b_src_tokens el)) batch)).
  { apply map_result_ok. intros el Hel. apply TorchFacts.size_last_width.
    destruct (Hok el Hel) as [Hnd _]. unfold ndim in Hnd.
    intro E. rewrite E in Hnd. discriminate. }
  destruct (TorchFacts.stack_scalars_column (map b_log_fluorescence batch))
    as (stacked & column & Hstack & Hcol & _).
  { destruct batch; [congruence | discriminate]. }
  { intros t Ht. apply in_map_iff in Ht as (el & <- & Hel).
    apply (Hok el Hel). }
  unfold collate_fn. rewrite Htok. cbn [rbind].
  rewrite Hwidths. cbn [rbind]. rewrite Hstack. cbn [rbind].
  rewrite Hcol. cbn [rbind]. rewrite Hon.
  rewrite (map_result_raise _ KeyError batch); [reflexivity | |].
  - intros el _. destruct (b_features el); eauto.
  - exists missing. rewrite Hnone. auto.
Qed.

Lemma collate_fn_missing_features_witness :
  collate_fn Demo.gfp_cached
             [Demo.bundle 10 1%R;
              {| b_src_tokens := from_list 0%Z [2%Z; 3%Z];
                 b_log_fluorescence := scalar 2%R;
                 b_features := None |}]
  = Raise KeyError.
Proof.
  apply (collate_fn_missing_features Demo.gfp_cached _ 0).
  - reflexivity.
  - intros el [<-|[<-|[]]]; split; reflexivity.
  - eexists. split; [right; left; reflexivity | reflexivity].
Defined.

(** ** The constructor: failures and invariants *)

Module InitFacts.

Lemma stack0_ok_inv {A : Type} (ts : list (tensor A)) (t : tensor A) :
  stack0 ts = Ok t ->
  exists t0 rest, ts = t0 :: rest /\ shape t = List.length ts :: shape t0.
Proof.
  unfold stack0. destruct ts as [|t0 rest]; [discriminate|].
  destruct (forallb _ (t0 :: rest)); [|discriminate].
  intro H. injection H as <-. eauto.
Qed.

(** What a constructor call that returned has done. *)
Lemma init_ok_inv (utils : Utils) (bio : Biopython) (base : TAPEDataset)
      (max_tokens_per_msa : Z) (cached : bool) (w w' : world)
      (self : FluorescenceDataset) :
  init utils bio base max_tokens_per_msa cached w = (Ok self, w') ->
  w' = w
  /\ super self = base
  /\ return_cached_embeddings self = cached
  /\ (use_msa base = false -> msa_attrs self = None)
  /\ (use_msa base = true ->
      exists headers ref seqs first rest block,
        parse_fasta utils (disk w) (msa_path base) true
        = Ok (headers, ref :: seqs)
        /\ data base = first :: rest
        /\ Z.of_nat (List.length (encode (tokenizer base) (primary first)))
           <> 0%Z
        /\ stack0 (map (fun hs : string * string =>
                          from_list 0%Z (encode (tokenizer base) (snd hs)))
                       (py_slice_to
                          (hhfilter_sequences utils (ref :: seqs)
                             (max_tokens_per_msa
                              / Z.of_nat (List.length
                                            (encode (tokenizer base)
                                                    (primary first))) - 1))
                          (max_tokens_per_msa
                           / Z.of_nat (List.length
                                         (encode (tokenizer base)
                                                 (primary first))) - 1)))
           = Ok block
        /\ msa_attrs self
           = Some {| reference := ref;
                     msa := block;
                     aligner := Align.make (align_algorithm bio)
                                           (BLOSUM62 bio) |}).
Proof.
  unfold init, msa_path. destruct (use_msa base) eqn:Hmsa; intro H.
  - apply Steps.bind_ok_inv in H as (d & w0 & Hd & H).
    unfold get_disk in Hd. injection Hd as <- <-.
    apply Steps.bind_ok_inv in H as ([headers seqs0] & w1 & Hparse & H).
    apply Crash.lift_ok_inv in Hparse as [Hparse ->].
    apply Steps.bind_ok_inv in H as (ref & w2 & Href & H).
    apply Crash.lift_ok_inv in Href as [Href ->].
    apply Steps.bind_ok_inv in H as (first & w3 & Hfirst & H).
    apply Crash.lift_ok_inv in Hfirst as [Hfirst ->].
    cbn [snd] in *.
    destruct seqs0 as [|ref' seqs]; [discriminate Href|].
    cbn in Href. injection Href as ->.
    destruct (data base) as [|first' rest] eqn:Hdata; [discriminate Hfirst|].
    cbn in Hfirst. injection Hfirst as ->.
    destruct (Z.of_nat (List.length (encode (tokenizer base) (primary first)))
              =? 0)%Z eqn:Hzero; [discriminate H|].
    apply Z.eqb_neq in Hzero.
    apply Steps.bind_ok_inv in H as (block & w4 & Hstack & H).
    apply Crash.lift_ok_inv in Hstack as [Hstack ->].
    unfold ret in H. injection H as <- <-.
    split; [reflexivity|]. split; [reflexivity|]. split; [reflexivity|].
    split; [discriminate|]. intros _.
    exists headers, ref, seqs, first, rest, block. auto.
  - unfold ret in H. injection H as <- <-.
    split; [reflexivity|]. split; [reflexivity|]. split; [reflexivity|].
    split; [reflexivity | discriminate].
Qed.

End InitFacts.

(** X8.  In MSA mode the constructor fails, before anything is stored, when
    the alignment file cannot be parsed, when the alignment or the data is
    empty ([IndexError]), when the first record encodes to no token
    ([ZeroDivisionError]), and when the budget admits exactly one sequence of
    the first record's token length ([RuntimeError]: no context row is left
    to stack). *)
Theorem init_failures
        (utils : Utils) (bio : Biopython) (base : TAPEDataset)
        (max_tokens_per_msa : Z) (cached : bool) (w : world) :
  use_msa base = true ->
  (forall e,
      parse_fasta utils (disk w) (msa_path base) true = Raise e ->
      init utils bio base max_tokens_per_msa cached w = (Raise e, w))
  /\ (forall headers,
         parse_fasta utils (disk w) (msa_path base) true = Ok (headers, []) ->
         init utils bio base max_tokens_per_msa cached w
         = (Raise IndexError, w))
  /\ (forall headers ref seqs,
         parse_fasta utils (disk w) (msa_path base) true
         = Ok (headers, ref :: seqs) ->
         (data base = [] ->
          init utils bio base max_tokens_per_msa cached w
          = (Raise IndexError, w))
         /\ (forall first rest,
                data base = first :: rest ->
                encode (tokenizer base) (primary first) = [] ->
                init utils bio base max_tokens_per_msa cached w
                = (Raise ZeroDivisionError, w))
         /\ (forall first rest,
                data base = first :: rest ->
                (0 < Z.of_nat (List.length (encode (tokenizer base)
                                                   (primary first)))
                 <= max_tokens_per_msa)%Z ->
                (max_tokens_per_msa
                 < 2 * Z.of_nat (List.length (encode (tokenizer base)
                                                     (primary first))))%Z ->
                init utils bio base max_tokens_per_msa cached w
                = (Raise RuntimeError, w))).
Proof.
  intro Hmsa. unfold msa_path.
  split; [|split].
  - intros e Hparse. unfold init. rewrite Hmsa. cbv zeta.
    erewrite Steps.bind_run by reflexivity.
    erewrite Steps.bind_raise by (unfold lift; rewrite Hparse; reflexivity).
    reflexivity.
  - intros headers Hparse. unfold init. rewrite Hmsa. cbv zeta.
    erewrite Steps.bind_run by reflexivity.
    erewrite Steps.bind_run by (unfold lift; rewrite Hparse; reflexivity).
    reflexivity.
  - intros headers ref seqs Hparse.
    split; [|split].
    + intro Hdata. unfold init. rewrite Hmsa. cbv zeta.
      erewrite Steps.bind_run by reflexivity.
      erewrite Steps.bind_run by (unfold lift; rewrite Hparse; reflexivity).
      erewrite Steps.bind_run by reflexivity.
      rewrite Hdata. reflexivity.
    + intros first rest Hdata Hempty. unfold init. rewrite Hmsa. cbv zeta.
      erewrite Steps.bind_run by reflexivity.
      erewrite Steps.bind_run by (unfold lift; rewrite Hparse; reflexivity).
      erewrite Steps.bind_run by reflexivity.
      rewrite Hdata.
      erewrite Steps.bind_run by reflexivity.
      rewrite Hempty. reflexivity.
    + intros first rest Hdata Hfit Htight. unfold init. rewrite Hmsa. cbv zeta.
      erewrite Steps.bind_run by reflexivity.
      erewrite Steps.bind_run by (unfold lift; rewrite Hparse; reflexivity).
      erewrite Steps.bind_run by reflexivity.
      rewrite Hdata.
      erewrite Steps.bind_run by reflexivity.
      set (seqlen := Z.of_nat (List.length (encode (tokenizer base)
                                                   (primary first)))) in *.
      assert (Hone : (max_tokens_per_msa / seqlen = 1)%Z).
      { symmetry.
        apply (Z.div_unique max_tokens_per_msa seqlen 1
                            (max_tokens_per_msa - seqlen)); lia. }
      destruct (seqlen =? 0)%Z eqn:E; [apply Z.eqb_eq in E; lia|].
      rewrite Hone. reflexivity.
Qed.

Lemma init_failures_witness :
  init Demo.utils Demo.bio (Demo.base true [Demo.record "MSKGE" 1%R])
       13 false Demo.world0
  = (Raise RuntimeError, Demo.world0)
  /\ init Demo.utils Demo.bio (Demo.base true []) 13 false Demo.world0
     = (Raise IndexError, Demo.world0)
  /\ init Demo.utils Demo.bio (Demo.base true []) 13 false Demo.bare_world
     = (Raise FileNotFoundError, Demo.bare_world).
Proof.
  destruct (init_failures Demo.utils Demo.bio
              (Demo.base true [Demo.record "MSKGE" 1%R]) 13 false
              Demo.world0 eq_refl) as (_ & _ & Hparsed).
  destruct (Hparsed [] "MSKGE"%string ["MSKGA"; "MTKGE"; "MSRGE"]%string
                    eq_refl) as (_ & _ & Htight).
  destruct (init_failures Demo.utils Demo.bio (Demo.base true []) 13 false
              Demo.world0 eq_refl) as (_ & _ & Hparsed').
  destruct (Hparsed' [] "MSKGE"%string ["MSKGA"; "MTKGE"; "MSRGE"]%string
                     eq_refl) as (Hnodata & _).
  destruct (init_failures Demo.utils Demo.bio (Demo.base true []) 13 false
              Demo.bare_world eq_refl) as (Hnoparse & _).
  split; [|split].
  - apply (Htight (Demo.record "MSKGE" 1%R) []); [reflexivity | |];
      vm_compute; split; discriminate || reflexivity.
  - apply Hnodata. reflexivity.
  - apply Hnoparse. reflexivity.
Defined.

(** X9.  A constructor call that returns has not changed the world.  Without
    MSA it stores no MSA attribute.  In MSA mode it stores the first sequence
    of the alignment as the reference, an aligner that may not open gaps in
    the target, and a block of at least one row; when the budget is at least
    the first record's token length, the query row and the block rows, at
    that token length each, fit in the budget. *)
Theorem init_invariants
        (utils : Utils) (bio : Biopython) (base : TAPEDataset)
        (max_tokens_per_msa : Z) (cached : bool) (w w' : world)
        (self : FluorescenceDataset) :
  init utils bio base max_tokens_per_msa cached w = (Ok self, w') ->
  w' = w
  /\ super self = base
  /\ return_cached_embeddings self = cached
  /\ (use_msa self = false -> msa_attrs self = None)
  /\ (use_msa self = true ->
      exists a headers seqs first rest rows width,
        msa_attrs self = Some a
        /\ parse_fasta utils (disk w) (msa_path base) true
           = Ok (headers, reference a :: seqs)
        /\ Align.forbids_target_gaps (Align.settings (aligner a))
        /\ data self = first :: rest
        /\ shape (msa a) = [rows; width]
        /\ 1 <= rows
        /\ ((Z.of_nat (List.length (encode (tokenizer self) (primary first)))
             <= max_tokens_per_msa)%Z ->
            ((1 + Z.of_nat rows)
             * Z.of_nat (List.length (encode (tokenizer self) (primary first)))
             <= max_tokens_per_msa)%Z)).
Proof.
  intro Hinit.
  destruct (InitFacts.init_ok_inv utils bio base max_tokens_per_msa cached
              w w' self Hinit) as (Hw & Hsuper & Hcached & Hoff & Hon).
  split; [exact Hw|]. split; [exact Hsuper|]. split; [exact Hcached|].
  rewrite Hsuper. split; [exact Hoff|].
  intro Hmsa.
  destruct (Hon Hmsa)
    as (headers & ref & seqs & first & rest & block
        & Hparse & Hdata & Hseqlen & Hstack & Hattrs).
  set (seqlen := Z.of_nat (List.length (encode (tokenizer base)
                                               (primary first)))) in *.
  set (wanted := (max_tokens_per_msa / seqlen - 1)%Z) in *.
  set (sequences := hhfilter_sequences utils (ref :: seqs) wanted) in *.
  destruct (InitFacts.stack0_ok_inv _ block Hstack)
    as (t0 & ts & Hrows & Hshape).
  rewrite length_map in Hshape.
  assert (Ht0 : exists hs : string * string,
             t0 = from_list 0%Z (encode (tokenizer base) (snd hs))).
  { destruct (py_slice_to sequences wanted) as [|hs l]; [discriminate Hrows|].
    cbn [map] in Hrows. injection Hrows as <- _. eauto. }
  destruct Ht0 as [hs ->]. cbn [shape from_list] in Hshape.
  exists {| reference := ref; msa := block;
            aligner := Align.make (align_algorithm bio) (BLOSUM62 bio) |},
         headers, seqs, first, rest,
         (List.length (py_slice_to sequences wanted)),
         (List.length (encode (tokenizer base) (snd hs))).
  split; [exact Hattrs|]. split; [exact Hparse|].
  split; [apply AlignFacts.make_forbids_target_gaps|].
  split; [exact Hdata|]. split; [exact Hshape|].
  assert (Hpos : 1 <= List.length (py_slice_to sequences wanted)).
  { destruct (py_slice_to sequences wanted); [discriminate Hrows|].
    cbn [List.length]. lia. }
  split; [exact Hpos|].
  intro Hfit.
  assert (Hseqpos : (0 < seqlen)%Z) by lia.
  assert (Hwanted : (0 <= wanted)%Z).
  { unfold wanted.
    pose proof (Z.div_le_lower_bound max_tokens_per_msa seqlen 1 Hseqpos).
    lia. }
  rewrite (py_slice_to_firstn sequences wanted Hwanted), length_firstn in *.
  pose proof (Z.mul_div_le max_tokens_per_msa seqlen Hseqpos) as Hmul.
  assert (Hrowsle : (Z.of_nat (Nat.min (Z.to_nat wanted)
                                       (List.length sequences))
                     <= wanted)%Z) by lia.
  unfold wanted in Hrowsle. nia.
Qed.

Lemma init_invariants_witness :
  exists self a rows width,
    fst (init Demo.utils Demo.bio (Demo.base true [Demo.record "MSKGE" 1%R])
              21 false Demo.world0) = Ok self
    /\ msa_attrs self = Some a
    /\ shape (msa a) = [rows; width]
    /\ ((1 + Z.of_nat rows) * 7 <= 21)%Z.
Proof.
  destruct (init Demo.utils Demo.bio (Demo.base true [Demo.record "MSKGE" 1%R])
                 21 false Demo.world0) as [[self|e] w'] eqn:Hinit;
    [|discriminate Hinit].
  destruct (init_invariants Demo.utils Demo.bio
              (Demo.base true [Demo.record "MSKGE" 1%R]) 21 false
              Demo.world0 w' self Hinit)
    as (_ & Hsuper & _ & _ & Hon).
  destruct Hon
    as (a & headers & seqs & first & rest & rows & width
        & Hattrs & _ & _ & Hdata & Hshape & _ & Hfit).
  { rewrite Hsuper. reflexivity. }
  exists self, a, rows, width. split; [reflexivity|].
  split; [exact Hattrs|]. split; [exact Hshape|].
  rewrite Hsuper in Hdata, Hfit. cbn in Hdata. injection Hdata as <- _.
  apply Hfit. vm_compute. discriminate.
Defined.

(** ** Alignment on a constructed dataset *)

Module Lines.

Lemma split_on_length (sep : ascii) (s : string) :
  List.length (split_on sep s) = S (occurrences sep s).
Proof.
  induction s as [|c s IH]; cbn [split_on occurrences].
  - reflexivity.
  - destruct (Ascii.eqb c sep).
    + cbn [List.length]. rewrite IH. reflexivity.
    + destruct (split_on sep s) as [|h t]; [discriminate IH|].
      cbn [List.length] in *. lia.
Qed.

Lemma occurrences_append (c : ascii) (a b : string) :
  occurrences c (a ++ b) = occurrences c a + occurrences c b.
Proof.
  induction a as [|x a IH]; cbn [append occurrences]; [reflexivity|].
  rewrite IH. lia.
Qed.

(** [str] of an alignment always has a third line. *)
Lemma str_has_third_line (a : Align.alignment) :
  exists line, py_index (split_on newline (Align.str a)) 2 = Ok line.
Proof.
  unfold py_index.
  destruct (nth_error (split_on newline (Align.str a)) 2) as [line|] eqn:E.
  - eauto.
  - apply nth_error_None in E. rewrite split_on_length in E.
    unfold Align.str in E.
    rewrite !occurrences_append in E. cbn [occurrences] in E.
    rewrite !occurrences_append in E. cbn [occurrences] in E.
    rewrite !occurrences_append in E. cbn [occurrences] in E.
    rewrite Ascii.eqb_refl in E. lia.
Qed.

End Lines.

(** X10.  On a dataset the constructor returned, [maybe_align_sequence]
    returns a string for every query unless the aligner finds no alignment,
    in which case it raises [IndexError]; it never raises for a missing
    attribute or a missing line. *)
Theorem maybe_align_sequence_after_init
        (utils : Utils) (bio : Biopython) (base : TAPEDataset)
        (max_tokens_per_msa : Z) (cached : bool) (w w' : world)
        (self : FluorescenceDataset) (sequence : string) :
  init utils bio base max_tokens_per_msa cached w = (Ok self, w') ->
  (exists s, maybe_align_sequence self sequence = Ok s)
  \/ (maybe_align_sequence self sequence = Raise IndexError
      /\ exists a,
          msa_attrs self = Some a
          /\ String.length sequence <> String.length (reference a)
          /\ Align.align (aligner a) (reference a) sequence = []).
Proof.
  intro Hinit.
  destruct (InitFacts.init_ok_inv utils bio base max_tokens_per_msa cached
              w w' self Hinit) as (_ & Hsuper & _ & Hoff & Hon).
  unfold maybe_align_sequence, attr.
  rewrite <- Hsuper in Hoff, Hon.
  destruct (use_msa self) eqn:Hmsa; cbn [negb].
  - destruct (Hon eq_refl)
      as (headers & ref & seqs & first & rest & block & _ & _ & _ & _ & Hattrs).
    rewrite Hattrs. cbn [rbind reference aligner].
    destruct (String.length sequence =? String.length ref) eqn:Hlen.
    + left. eauto.
    + apply Nat.eqb_neq in Hlen.
      destruct (Align.align (Align.make (align_algorithm bio) (BLOSUM62 bio))
                            ref sequence) as [|a0 others] eqn:Hal.
      * right. split; [reflexivity|]. eexists. split; [reflexivity|].
        cbn [reference aligner]. auto.
      * left. cbn [py_index nth_error rbind].
        destruct (Lines.str_has_third_line a0) as [line Hline].
        exists line. exact Hline.
  - left. eauto.
Qed.

Lemma maybe_align_sequence_after_init_witness :
  exists self,
    fst (init Demo.utils Demo.bio (Demo.base true [Demo.record "MSKGE" 1%R])
              21 false Demo.world0) = Ok self
    /\ ((exists s, maybe_align_sequence self "MSKGEGG" = Ok s)
        \/ maybe_align_sequence self "MSKGEGG" = Raise IndexError).
Proof.
  destruct (init Demo.utils Demo.bio (Demo.base true [Demo.record "MSKGE" 1%R])
                 21 false Demo.world0) as [[self|e] w'] eqn:Hinit;
    [|discriminate Hinit].
  exists self. split; [reflexivity|].
  destruct (maybe_align_sequence_after_init
              Demo.utils Demo.bio (Demo.base true [Demo.record "MSKGE" 1%R])
              21 false Demo.world0 w' self "MSKGEGG" Hinit)
    as [Hok | [Hraise _]]; [left; exact Hok | right; exact Hraise].
Defined.

(** ** The scores of the attention *)

Module AttentionFacts.
Import Predictor.

Local Open Scope R_scope.

(** The scores [forward] hands to the softmax: the scaled output of the
    attention layer below the effective length, -10000 from there on. *)
Lemma masked_scores_items (self : FluorescencePredictor)
      (tokens lengths : tensor Z) (f : tensor R)
      (b t l : nat) (rest : list nat) :
  shape tokens = b :: t :: rest ->
  shape lengths = [b] ->
  shape f = [b; l; embedding_dim self] ->
  exists scores,
    masked_scores self tokens lengths f = Ok scores
    /\ shape scores = [b; l; 1%nat]
    /\ forall i j,
        item scores [i; j; 0%nat]
        = if (Z.of_nat j <? item lengths [i] - (Z.of_nat t - Z.of_nat l))%Z
          then (sum_upto (embedding_dim self)
                         (fun k => attention_weight self k * item f [i; j; k])
                + attention_bias self)
               / sqrt (INR (embedding_dim self))
          else -10000.
Proof.
  intros Htokens Hlengths Hf.
  destruct (PredictorFacts.forward_mask_value tokens lengths f b t l rest
              [embedding_dim self] Htokens Hlengths Hf)
    as (mask & Hmask & Hmshape & Hmitem).
  unfold masked_scores, compute_attention_weights. rewrite Hf.
  rewrite Nat.eqb_refl. cbn [rbind]. rewrite Hmask. cbn [rbind].
  unfold masked_fill_invalid. cbn [shape div_scalar]. rewrite Hmshape.
  rewrite !Nat.eqb_refl. cbn [andb].
  eexists. split; [reflexivity|]. split; [reflexivity|].
  intros i j. cbn [item nth]. rewrite Hmitem.
  destruct (Z.of_nat j <? item lengths [i] - (Z.of_nat t - Z.of_nat l))%Z;
    reflexivity.
Qed.

Lemma attention_of_scores (self : FluorescencePredictor)
      (tokens lengths : tensor Z) (f scores : tensor R) :
  masked_scores self tokens lengths f = Ok scores ->
  attention self tokens lengths f = Ok (softmax1 scores).
Proof. intro H. unfold attention. rewrite H. reflexivity. Qed.

End AttentionFacts.

(** X12.  On tokens of at least two dimensions, one length per example and
    features laid out as batch x positions x embedding_dim, [forward] returns
    (with precomputed features, or with those of the base model when it
    returns them).  Before the softmax, a position below the effective length
    [src_lengths - (token_len - feat_len)] keeps the scaled output of the
    attention layer and every other position holds exactly -10000. *)
Theorem forward_scores
        (self : Predictor.FluorescencePredictor)
        (tokens lengths : tensor Z) (f : tensor R)
        (b t l : nat) (rest : list nat) :
  shape tokens = b :: t :: rest ->
  shape lengths = [b] ->
  shape f = [b; l; Predictor.embedding_dim self] ->
  exists scores,
    Predictor.masked_scores self tokens lengths f = Ok scores
    /\ (forall i j : nat,
           item scores [i; j; 0]
           = if (Z.of_nat j <? item lengths [i] - (Z.of_nat t - Z.of_nat l))%Z
             then ((Predictor.sum_upto
                      (Predictor.embedding_dim self)
                      (fun k => Predictor.attention_weight self k
                                * item f [i; j; k])
                    + Predictor.attention_bias self)
                   / sqrt (INR (Predictor.embedding_dim self)))%R
             else (-10000)%R)
    /\ Predictor.forward self tokens lengths (Some f)
       = Ok (Predictor.mlp self
               (Predictor.pool f
                  (Predictor.dropout self (Predictor.softmax1 scores))))
    /\ (extract_features (Predictor.base_model self)
          {| src_tokens := tokens; src_lengths := lengths; features := None |}
        = Ok f ->
        Predictor.forward self tokens lengths None
        = Predictor.forward self tokens lengths (Some f)).
Proof.
  intros Htokens Hlengths Hf.
  destruct (AttentionFacts.masked_scores_items self tokens lengths f b t l rest
              Htokens Hlengths Hf) as (scores & Hscores & _ & Hitems).
  exists scores. split; [exact Hscores|]. split; [exact Hitems|].
  split.
  - unfold Predictor.forward, Predictor.forward_features. cbn [rbind].
    rewrite (AttentionFacts.attention_of_scores self tokens lengths f scores
               Hscores).
    reflexivity.
  - intro Hbase. unfold Predictor.forward, Predictor.forward_features.
    rewrite Hbase. reflexivity.
Qed.

Lemma forward_scores_witness :
  exists scores,
    Predictor.masked_scores Demo.predictor Demo.short_tokens
                            Demo.short_lengths Demo.short_features = Ok scores
    /\ item scores [0; 0; 0] = (-10000)%R.
Proof.
  destruct (forward_scores Demo.predictor Demo.short_tokens Demo.short_lengths
                           Demo.short_features 1 3 1 [])
    as (scores & Hscores & Hitems & _);
    [reflexivity | reflexivity | reflexivity |].
  exists scores. split; [exact Hscores|].
  rewrite Hitems. reflexivity.
Defined.

(** ** Collation and the mask *)

Module CollateFacts.

Lemma shape_of_two (sh : list nat) :
  List.length sh = 2 -> sh = [hd 0 sh; last sh 0].
Proof.
  destruct sh as [|a [|b [|c sh]]]; simpl; intro H; try discriminate.
  reflexivity.
Qed.

(** What [collate_fn] returns for the network: the padded token arrays and
    the lengths. *)
Lemma collate_fn_net_input
      (self : FluorescenceDataset) (batch : list Bundle) (rank frank : nat) :
  batch <> [] ->
  (forall el, In el batch -> bundle_ok self rank frank el) ->
  exists out tokens,
    collate_fn self batch = Ok out
    /\ src_tokens (net_input out) = tokens
    /\ pad_sequences (map b_src_tokens batch) (pad_idx self) = Ok tokens
    /\ src_lengths (net_input out)
       = from_list 0%Z (map Z.of_nat
                            (map (fun el => width (b_src_tokens el)) batch)).
Proof.
  intros Hne Hok.
  destruct (TorchFacts.pad_sequences_ok (map b_src_tokens batch) (pad_idx self)
              rank) as (tokens & Htok & _).
  { destruct batch; [congruence | discriminate]. }
  { intros s Hs. apply in_map_iff in Hs as (el & <- & Hel).
    apply (Hok el Hel). }
  assert (Hwidths : map_result (fun el => size_last (b_src_tokens el)) batch
                    = Ok (map (fun el => width (b_src_tokens el)) batch)).
  { apply map_result_ok. intros el Hel. apply TorchFacts.size_last_width.
    destruct (Hok el Hel) as [Hnd _]. unfold ndim in Hnd.
    intro E. rewrite E in Hnd. discriminate. }
  destruct (TorchFacts.stack_scalars_column (map b_log_fluorescence batch))
    as (stacked & column & Hstack & Hcol & _).
  { destruct batch; [congruence | discriminate]. }
  { intros t Ht. apply in_map_iff in Ht as (el & <- & Hel).
    apply (Hok el Hel). }
  unfold collate_fn. rewrite Htok. cbn [rbind].
  rewrite Hwidths. cbn [rbind]. rewrite Hstack. cbn [rbind].
  rewrite Hcol. cbn [rbind].
  destruct (return_cached_embeddings self) eqn:Hcached.
  - assert (Hfeats :
              map_result (fun el => match b_features el with
                                    | Some f => Ok f
                                    | None => Raise KeyError
                                    end) batch
              = Ok (map (fun el => match b_features el with
                                   | Some f => f
                                   | None => scalar 0%R
                                   end) batch)).
    { apply map_result_ok. intros el Hel.
      destruct (Hok el Hel) as (_ & _ & Hf).
      destruct (Hf Hcached) as (f & -> & _). reflexivity. }
    rewrite Hfeats. cbn [rbind].
    destruct (TorchFacts.pad_sequences_ok
                (map (fun el => match b_features el with
                                | Some f => f
                                | None => scalar 0%R
                                end) batch) 0%R frank)
      as (padded & Hpad & _).
    { destruct batch; [congruence | discriminate]. }
    { intros s Hs. apply in_map_iff in Hs as (el & <- & Hel).
      destruct (Hok el Hel) as (_ & _ & Hf).
      destruct (Hf Hcached) as (f & -> & Hnd). exact Hnd. }
    rewrite Hpad. cbn [rbind].
    eexists. exists tokens. split; [reflexivity|]. auto.
  - eexists. exists tokens. split; [reflexivity|]. auto.
Qed.

End CollateFacts.

(** X14.  For a collated batch of one-dimensional token arrays and features
    as long as the padded tokens, the mask of [forward] leaves position [j] of
    example [i] unmasked exactly when [j] is below the example's own token
    width; every masked position of the collated tokens holds the padding
    index. *)
Theorem collate_fn_then_forward_mask
        (self : FluorescenceDataset) (batch : list Bundle) (frank : nat) :
  batch <> [] ->
  (forall el, In el batch -> bundle_ok self 0 frank el) ->
  exists out,
    collate_fn self batch = Ok out
    /\ forall (f : tensor R) (d : nat),
        shape f = [List.length batch; width (src_tokens (net_input out)); d] ->
        exists mask,
          Predictor.forward_mask (src_tokens (net_input out))
                                 (src_lengths (net_input out)) f = Ok mask
          /\ forall i el j,
              nth_error batch i = Some el ->
              (item mask [i; j] = true <-> j < width (b_src_tokens el))
              /\ (item mask [i; j] = false ->
                  item (src_tokens (net_input out)) [i; j] = pad_idx self).
Proof.
  intros Hne Hok.
  destruct (CollateFacts.collate_fn_net_input self batch 0 frank Hne Hok)
    as (out & tokens & Hout & Htokens & Hpad & Hlengths).
  destruct (TorchFacts.pad_sequences_ok (map b_src_tokens batch) (pad_idx self)
              0) as (tokens' & Hpad' & Hhd & Hndim & Hwidth & Hitem).
  { destruct batch; [congruence | discriminate]. }
  { intros s Hs. apply in_map_iff in Hs as (el & <- & Hel).
    apply (Hok el Hel). }
  rewrite Hpad in Hpad'. injection Hpad' as <-.
  rewrite length_map in Hhd.
  exists out. split; [exact Hout|]. rewrite Htokens, Hlengths.
  intros f d Hf.
  pose proof (CollateFacts.shape_of_two (shape tokens) Hndim) as Hshape.
  rewrite Hhd in Hshape. fold (width tokens) in Hshape.
  destruct (PredictorFacts.forward_mask_value tokens
              (from_list 0%Z (map Z.of_nat
                                  (map (fun el => width (b_src_tokens el))
                                       batch)))
              f (List.length batch) (width tokens) (width tokens) [] [d]
              Hshape)
    as (mask & Hmask & _ & Hmitem).
  { cbn [shape from_list]. rewrite !length_map. reflexivity. }
  { exact Hf. }
  exists mask. split; [exact Hmask|].
  intros i el j Hi.
  assert (Hlen : item (from_list 0%Z
                         (map Z.of_nat
                              (map (fun el => width (b_src_tokens el)) batch)))
                      [i]
                 = Z.of_nat (width (b_src_tokens el))).
  { cbn [item from_list]. apply nth_error_nth. rewrite map_map.
    exact (map_nth_error (fun x => Z.of_nat (width (b_src_tokens x)))
                         i batch Hi). }
  rewrite Hmitem, Hlen. split.
  - rewrite Z.ltb_lt. lia.
  - intro Hfalse. apply Z.ltb_ge in Hfalse.
    rewrite (Hitem i (b_src_tokens el) [j]) by (apply map_nth_error, Hi).
    destruct (in_bounds [j] (shape (b_src_tokens el))) eqn:Hin; [|reflexivity].
    apply TorchFacts.in_bounds_last in Hin.
    + cbn [last] in Hin. unfold width in Hfalse. lia.
    + destruct (Hok el (nth_error_In _ _ Hi)) as [Hnd _]. unfold ndim in Hnd.
      intro E. rewrite E in Hnd. discriminate.
Qed.

Lemma collate_fn_then_forward_mask_witness :
  exists out mask,
    collate_fn Demo.gfp_cached Demo.batch3 = Ok out
    /\ Predictor.forward_mask (src_tokens (net_input out))
                              (src_lengths (net_input out))
                              {| shape := [3; 15; 2]; item := fun _ => 0%R;
                                 requires_grad := false; on_device := CPU |}
       = Ok mask
    /\ item mask [0; 9] = true
    /\ item (src_tokens (net_input out)) [0; 10] = 0%Z.
Proof.
  destruct (collate_fn_then_forward_mask Demo.gfp_cached Demo.batch3 1)
    as (out & Hout & Hmask).
  - discriminate.
  - intros el Hel. unfold bundle_ok.
    destruct Hel as [<-|[<-|[<-|[]]]];
      (split; [reflexivity|]; split; [reflexivity|]; intros _;
       eexists; split; reflexivity).
  - destruct (Hmask {| shape := [3; 15; 2]; item := fun _ => 0%R;
                       requires_grad := false; on_device := CPU |} 2)
      as (mask & Hm & Hitems).
    { assert (Hw : width (src_tokens (net_input out)) = 15).
      { vm_compute in Hout. injection Hout as <-. reflexivity. }
      rewrite Hw. reflexivity. }
    exists out, mask. split; [exact Hout|]. split; [exact Hm|].
    destruct (Hitems 0 (Demo.bundle 10 1%R) 9 eq_refl) as [Hvalid _].
    destruct (Hitems 0 (Demo.bundle 10 1%R) 10 eq_refl) as [Hiff Hpadded].
    split; [apply Hvalid; unfold width; simpl; lia|].
    apply Hpadded.
    apply Bool.not_true_is_false. intro E.
    apply Hiff in E. unfold width in E. simpl in E. lia.
Defined.

Module MsaBatch.

Lemma fold_max_shape_rows {A : Type} (rest : list (tensor A)) (r w0 : nat) :
  (forall s, In s rest -> exists w, shape s = [r; w]) ->
  fold_left (fun acc s => max_shape acc (shape s)) rest [r; w0]
  = [r; Nat.max w0 (list_max (map width rest))].
Proof.
  revert w0. induction rest as [|s rest IH]; intros w0 H.
  - simpl. rewrite Nat.max_0_r. reflexivity.
  - destruct (H s (or_introl eq_refl)) as (w & Hs).
    cbn [fold_left map]. rewrite Hs. cbn [max_shape].
    rewrite Nat.max_id, IH by (intros s' Hs'; apply H; right; exact Hs').
    change (list_max (width s :: map width rest))
      with (Nat.max (width s) (list_max (map width rest))).
    unfold width at 2. rewrite Hs. cbn [last]. f_equal. f_equal. lia.
Qed.

(** Arrays of [rows] rows each are padded to one array of shape
    (batch, rows, largest width). *)
Lemma pad_sequences_rows {A : Type} (sequences : list (tensor A)) (c : A)
      (rows : nat) :
  sequences <> [] ->
  (forall s, In s sequences -> exists w, shape s = [rows; w]) ->
  exists out,
    pad_sequences sequences c = Ok out
    /\ shape out = [List.length sequences; rows;
                    list_max (map width sequences)].
Proof.
  intros Hne Hrows. destruct sequences as [|s0 rest]; [congruence|].
  unfold pad_sequences.
  destruct (Hrows s0 (or_introl eq_refl)) as (w0 & Hs0).
  assert (Hall : forallb (fun s => ndim s =? ndim s0) rest = true).
  { apply forallb_forall. intros s Hs. apply Nat.eqb_eq.
    destruct (Hrows s (or_intror Hs)) as (w & Hw).
    unfold ndim. rewrite Hw, Hs0. reflexivity. }
  rewrite Hall. eexists. split; [reflexivity|]. cbn [shape].
  rewrite Hs0, fold_max_shape_rows
    by (intros s Hs; apply Hrows; right; exact Hs).
  cbn [map list_max]. unfold width at 2. rewrite Hs0. reflexivity.
Qed.

End MsaBatch.

(** X15.  For a collated batch of MSA-mode bundles (token arrays of [rows]
    rows each), the collated tokens have shape (batch, rows, width), and the
    mask of [forward] subtracts [rows - feat_len] from the token width of each
    example: [src_tokens.size(1)] is the number of rows there, not the token
    length.  Position [j] of example [i] is unmasked exactly when
    [j < width_i - (rows - feat_len)]. *)
Theorem collate_fn_msa_rows_enter_mask
        (self : FluorescenceDataset) (batch : list Bundle)
        (rows frank : nat) :
  batch <> [] ->
  (forall el, In el batch ->
              bundle_ok self 1 frank el
              /\ exists w, shape (b_src_tokens el) = [rows; w]) ->
  exists out,
    collate_fn self batch = Ok out
    /\ shape (src_tokens (net_input out))
       = [List.length batch; rows;
          list_max (map (fun el => width (b_src_tokens el)) batch)]
    /\ forall (f : tensor R) (l : nat) (frest : list nat),
        shape f = List.length batch :: l :: frest ->
        exists mask,
          Predictor.forward_mask (src_tokens (net_input out))
                                 (src_lengths (net_input out)) f = Ok mask
          /\ forall i el j,
              nth_error batch i = Some el ->
              item mask [i; j]
              = (Z.of_nat j <? Z.of_nat (width (b_src_tokens el))
                               - (Z.of_nat rows - Z.of_nat l))%Z.
Proof.
  intros Hne Hok.
  destruct (CollateFacts.collate_fn_net_input self batch 1 frank Hne)
    as (out & tokens & Hout & Htokens & Hpad & Hlengths).
  { intros el Hel. apply (Hok el Hel). }
  destruct (MsaBatch.pad_sequences_rows (map b_src_tokens batch) (pad_idx self)
              rows) as (tokens' & Hpad' & Hshape).
  { destruct batch; [congruence | discriminate]. }
  { intros s Hs. apply in_map_iff in Hs as (el & <- & Hel).
    apply (Hok el Hel). }
  rewrite Hpad in Hpad'. injection Hpad' as <-.
  rewrite length_map, map_map in Hshape.
  exists out. split; [exact Hout|]. rewrite Htokens, Hlengths.
  split; [exact Hshape|].
  intros f l frest Hf.
  destruct (PredictorFacts.forward_mask_value tokens
              (from_list 0%Z (map Z.of_nat
                                  (map (fun el => width (b_src_tokens el))
                                       batch)))
              f (List.length batch) rows l
              [list_max (map (fun el => width (b_src_tokens el)) batch)]
              frest Hshape)
    as (mask & Hmask & _ & Hmitem).
  { cbn [shape from_list]. rewrite !length_map. reflexivity. }
  { exact Hf. }
  exists mask. split; [exact Hmask|].
  intros i el j Hi. rewrite Hmitem. cbn [item from_list].
  rewrite map_map.
  rewrite (nth_error_nth _ _ _
             (map_nth_error (fun x => Z.of_nat (width (b_src_tokens x)))
                            i batch Hi)).
  reflexivity.
Qed.

Lemma collate_fn_msa_rows_enter_mask_witness :
  exists out mask,
    collate_fn Demo.gfp_msa [Demo2.msa_bundle 5 1%R; Demo2.msa_bundle 3 2%R]
    = Ok out
    /\ shape (src_tokens (net_input out)) = [2; 2; 5]
    /\ Predictor.forward_mask (src_tokens (net_input out))
                              (src_lengths (net_input out))
                              {| shape := [2; 5; 2]; item := fun _ => 0%R;
                                 requires_grad := false; on_device := CPU |}
       = Ok mask
    /\ item mask [0; 4] = true
    /\ item mask [1; 2] = true.
Proof.
  destruct (collate_fn_msa_rows_enter_mask
              Demo.gfp_msa [Demo2.msa_bundle 5 1%R; Demo2.msa_bundle 3 2%R]
              2 0)
    as (out & Hout & Hshape & Hmask).
  - discriminate.
  - intros el Hel.
    destruct Hel as [<-|[<-|[]]];
      (split; [split; [reflexivity|]; split; [reflexivity|];
               intro H; discriminate H
              | eexists; reflexivity]).
  - destruct (Hmask {| shape := [2; 5; 2]; item := fun _ => 0%R;
                       requires_grad := false; on_device := CPU |} 5 [2]
                    eq_refl)
      as (mask & Hm & Hitems).
    exists out, mask. split; [exact Hout|]. split; [exact Hshape|].
    split; [exact Hm|].
    rewrite (Hitems 0 _ 4 eq_refl), (Hitems 1 _ 2 eq_refl).
    split; reflexivity.
Defined.

(** ** The loss of a step *)

Module LossFacts.
Import Predictor Training.

Local Open Scope R_scope.

Lemma broadcast_rev_same (s : list nat) : broadcast_rev s s = Ok s.
Proof.
  induction s as [|n s IH]; [reflexivity|].
  cbn [broadcast_rev]. rewrite IH. cbn [rbind]. rewrite Nat.eqb_refl.
  reflexivity.
Qed.

Lemma broadcast_shapes_same (s : list nat) : broadcast_shapes s s = Ok s.
Proof.
  unfold broadcast_shapes. rewrite broadcast_rev_same. cbn [rbind].
  rewrite rev_involutive. reflexivity.
Qed.

Lemma indices_column_from (a b : nat) :
  flat_map (fun i => map (cons i) (indices [1%nat])) (seq a b)
  = map (fun i => [i; 0%nat]) (seq a b).
Proof.
  revert a. induction b as [|b IH]; intro a; [reflexivity|].
  cbn [seq flat_map map]. rewrite IH. reflexivity.
Qed.

Lemma indices_column (b : nat) :
  indices [b; 1%nat] = map (fun i => [i; 0%nat]) (seq 0 b).
Proof. apply indices_column_from. Qed.

Lemma project_column (b i : nat) :
  (i < b)%nat -> project [b; 1%nat] [i; 0%nat] = [i; 0%nat].
Proof.
  intro Hi. unfold project. cbn [rev app project_rev].
  destruct (b =? 1)%nat eqn:E; [|reflexivity].
  apply Nat.eqb_eq in E. replace i with 0%nat by lia. reflexivity.
Qed.

Lemma sum_list_ext_in (l : list nat) (f g : nat -> R) :
  (forall j, In j l -> f j = g j) ->
  fold_right Rplus 0 (map f l) = fold_right Rplus 0 (map g l).
Proof.
  intro H. f_equal. apply map_ext_in. exact H.
Qed.

(** The loss of two columns of one length: the mean of the squared
    differences of the rows. *)
Lemma mse_loss_columns (a y : tensor R) (b : nat) :
  shape a = [b; 1%nat] ->
  shape y = [b; 1%nat] ->
  mse_loss a y
  = Ok (sum_upto b (fun i => (item a [i; 0%nat] - item y [i; 0%nat]) ^ 2)
        / INR b).
Proof.
  intros Ha Hy. unfold mse_loss. rewrite Ha, Hy, broadcast_shapes_same.
  cbn [rbind]. rewrite indices_column, length_map, length_seq.
  unfold sum_over, sum_upto. rewrite map_map. f_equal. f_equal.
  apply sum_list_ext_in. intros i Hi. apply in_seq in Hi.
  rewrite project_column by lia. reflexivity.
Qed.

(** The head turns B x D into B x 1. *)
Lemma head_column (d : nat) (h : Head) (x : tensor R) (b : nat) :
  shape x = [b; d] ->
  exists out, head d h x = Ok out /\ shape out = [b; 1%nat].
Proof.
  intro Hx. unfold head. rewrite Hx. cbn [rev app]. rewrite Nat.eqb_refl.
  eexists. split; reflexivity.
Qed.

Lemma list_max_constant (l : list nat) (d : nat) :
  l <> [] -> (forall n, In n l -> n = d) -> list_max l = d.
Proof.
  intros Hne Hall. destruct l as [|a l]; [congruence|]. clear Hne.
  revert a Hall. induction l as [|c l IH]; intros a Hall.
  - cbn. rewrite (Hall a) by (left; reflexivity). lia.
  - change (list_max (a :: c :: l)) with (Nat.max a (list_max (c :: l))).
    rewrite IH by (intros n Hn; apply Hall; right; exact Hn).
    rewrite (Hall a) by (left; reflexivity). lia.
Qed.

Lemma shape_of_three (sh : list nat) :
  List.length sh = 3%nat -> sh = [hd 0%nat sh; nth 1 sh 0%nat; last sh 0%nat].
Proof.
  destruct sh as [|a [|b [|c [|e sh]]]]; simpl; intro H; try discriminate.
  reflexivity.
Qed.

Lemma shape_from_two (sh : list nat) (n : nat) :
  List.length sh = S (S n) ->
  exists t rest, sh = hd 0%nat sh :: t :: rest.
Proof.
  destruct sh as [|a [|b sh]]; simpl; intro H; try discriminate.
  eauto.
Qed.

(** What [collate_fn] returns for bundles with cached features of [d]
    channels. *)
Lemma collate_fn_cached (self : FluorescenceDataset) (batch : list Bundle)
      (rank d : nat) :
  batch <> [] ->
  return_cached_embeddings self = true ->
  (forall el, In el batch ->
              ndim (b_src_tokens el) = S rank
              /\ shape (b_log_fluorescence el) = []
              /\ exists f l, b_features el = Some f /\ shape f = [l; d]) ->
  exists tokens lengths padded column (t l : nat) (rest : list nat),
    collate_fn self batch
    = Ok {| net_input := {| src_tokens := tokens; src_lengths := lengths;
                            features := Some padded |};
            target := column |}
    /\ shape tokens = List.length batch :: t :: rest
    /\ shape lengths = [List.length batch]
    /\ shape padded = [List.length batch; l; d]
    /\ shape column = [List.length batch; 1%nat]
    /\ forall i el, nth_error batch i = Some el ->
                    item column [i; 0%nat] = item (b_log_fluorescence el) [].
Proof.
  intros Hne Hcached Hok.
  assert (Hmap : forall {X} (g : Bundle -> X), map g batch <> []).
  { intros X g. destruct batch; [congruence | discriminate]. }
  destruct (TorchFacts.pad_sequences_ok (map b_src_tokens batch) (pad_idx self)
              rank (Hmap _ _)) as (tokens & Htok & Hhd & Hnd & _).
  { intros s Hs. apply in_map_iff in Hs as (el & <- & Hel).
    apply (Hok el Hel). }
  assert (Hwidths : map_result (fun el => size_last (b_src_tokens el)) batch
                    = Ok (map (fun el => width (b_src_tokens el)) batch)).
  { apply map_result_ok. intros el Hel. apply TorchFacts.size_last_width.
    destruct (Hok el Hel) as [Hn _]. unfold ndim in Hn.
    intro E. rewrite E in Hn. discriminate. }
  destruct (TorchFacts.stack_scalars_column (map b_log_fluorescence batch)
              (Hmap _ _))
    as (stacked & column & Hstack & Hcol & Hcshape & Hcitem).
  { intros t Ht. apply in_map_iff in Ht as (el & <- & Hel).
    apply (Hok el Hel). }
  pose (feat := fun el : Bundle => match b_features el with
                                   | Some f => f
                                   | None => scalar 0
                                   end).
  assert (Hfeats :
            map_result (fun el => match b_features el with
                                  | Some f => Ok f
                                  | None => Raise KeyError
                                  end) batch
            = Ok (map feat batch)).
  { apply map_result_ok. intros el Hel.
    destruct (Hok el Hel) as (_ & _ & f & l & Hf & _).
    unfold feat. rewrite Hf. reflexivity. }
  assert (Hfshape : forall el, In el batch ->
                               exists l, shape (feat el) = [l; d]).
  { intros el Hel. destruct (Hok el Hel) as (_ & _ & f & l & Hf & Hsh).
    exists l. unfold feat. rewrite Hf. exact Hsh. }
  destruct (TorchFacts.pad_sequences_ok (map feat batch) 0 1 (Hmap _ _))
    as (padded & Hpad & Hphd & Hpnd & Hpw & _).
  { intros s Hs. apply in_map_iff in Hs as (el & <- & Hel).
    destruct (Hfshape el Hel) as (l & Hl). unfold ndim. rewrite Hl.
    reflexivity. }
  rewrite list_max_constant with (d := d) in Hpw.
  2:{ rewrite map_map. apply Hmap. }
  2:{ intros n Hn. apply in_map_iff in Hn as (s & <- & Hs).
      apply in_map_iff in Hs as (el & <- & Hel).
      destruct (Hfshape el Hel) as (l & Hl). unfold width. rewrite Hl.
      reflexivity. }
  destruct (shape_from_two (shape tokens) rank Hnd) as (t & rest & Hts).
  rewrite Hhd, length_map in Hts.
  pose proof (shape_of_three (shape padded) Hpnd) as Hps.
  unfold width in Hpw. rewrite Hphd, Hpw, length_map in Hps.
  exists tokens,
    (from_list 0%Z (map Z.of_nat
                        (map (fun el => width (b_src_tokens el)) batch))),
    padded, column, t, (nth 1 (shape padded) 0%nat), rest.
  split.
  { unfold collate_fn. rewrite Htok. cbn [rbind].
    rewrite Hwidths. cbn [rbind]. rewrite Hstack. cbn [rbind].
    rewrite Hcol. cbn [rbind]. rewrite Hcached, Hfeats. cbn [rbind].
    rewrite Hpad. reflexivity. }
  split; [exact Hts|].
  split. { cbn [shape from_list]. rewrite !length_map. reflexivity. }
  split; [exact Hps|].
  rewrite length_map in Hcshape. split; [exact Hcshape|].
  intros i el Hi. apply (Hcitem i (b_log_fluorescence el)).
  apply map_nth_error. exact Hi.
Qed.

(** [forward] on features B x L x D with a two-layer head: a column. *)
Lemma forward_column (self : FluorescencePredictor) (h : Head)
      (tokens lengths : tensor Z) (f : tensor R)
      (b t l : nat) (rest : list nat) :
  has_head self h ->
  shape tokens = b :: t :: rest ->
  shape lengths = [b] ->
  shape f = [b; l; embedding_dim self] ->
  exists pred,
    forward self tokens lengths (Some f) = Ok pred
    /\ shape pred = [b; 1%nat].
Proof.
  intros Hhead Htokens Hlengths Hf.
  destruct (AttentionFacts.masked_scores_items self tokens lengths f b t l rest
              Htokens Hlengths Hf) as (scores & Hscores & _).
  pose proof (AttentionFacts.attention_of_scores self tokens lengths f scores
                Hscores) as Hatt.
  unfold forward. cbn [forward_features rbind]. rewrite Hatt. cbn [rbind].
  destruct (head_column (embedding_dim self) h
              (pool f (dropout self (softmax1 scores))) b)
    as (out & Hout & Hshape).
  { cbn [shape pool]. rewrite Hf. reflexivity. }
  exists out. rewrite (Hhead _ _ Hout). split; [reflexivity | exact Hshape].
Qed.

End LossFacts.

(** X17.  On a collated batch of bundles with cached features, with the
    two-layer head of [__init__], [forward] returns one prediction per example
    in a column of the target's shape (batch, 1), so the loss of
    [compute_loss] is the mean over the examples of the squared difference
    between the example's prediction and its own [log_fluorescence]; it is
    logged under loss/<mode> and returned with the prediction and the
    batch. *)
Theorem compute_loss_is_batch_mean
        (ds : FluorescenceDataset) (self : Predictor.FluorescencePredictor)
        (h : Training.Head) (batch : list Bundle) (rank : nat)
        (mode : string) (l : Training.logs) :
  batch <> [] ->
  return_cached_embeddings ds = true ->
  has_head self h ->
  (forall el, In el batch ->
              ndim (b_src_tokens el) = S rank
              /\ shape (b_log_fluorescence el) = []
              /\ exists f n, b_features el = Some f
                             /\ shape f = [n; Predictor.embedding_dim self]) ->
  exists out pred,
    collate_fn ds batch = Ok out
    /\ Predictor.forward self (src_tokens (net_input out))
                         (src_lengths (net_input out))
                         (features (net_input out)) = Ok pred
    /\ shape pred = [List.length batch; 1]
    /\ shape (target out) = [List.length batch; 1]
    /\ Training.compute_loss self out mode l
       = (Ok {| Training.loss := batch_mean_squared_error pred batch;
                Training.o_log_fluorescence := pred;
                Training.o_target := out |},
          (("loss/" ++ mode)%string, batch_mean_squared_error pred batch)
            :: l).
Proof.
  intros Hne Hcached Hhead Hok.
  destruct (LossFacts.collate_fn_cached ds batch rank
              (Predictor.embedding_dim self) Hne Hcached Hok)
    as (tokens & lengths & padded & column & t & n & rest
        & Hout & Htokens & Hlengths & Hpadded & Hcolumn & Hitems).
  destruct (LossFacts.forward_column self h tokens lengths padded
              (List.length batch) t n rest Hhead Htokens Hlengths Hpadded)
    as (pred & Hpred & Hshape).
  eexists. exists pred. split; [exact Hout|].
  cbn [net_input src_tokens src_lengths features target].
  split; [exact Hpred|]. split; [exact Hshape|]. split; [exact Hcolumn|].
  unfold Training.compute_loss.
  cbn [net_input src_tokens src_lengths features target].
  rewrite Hpred, (LossFacts.mse_loss_columns pred column (List.length batch)
                    Hshape Hcolumn).
  assert (Hmean :
            (Predictor.sum_upto (List.length batch)
               (fun i : nat => (item pred [i; 0%nat]
                                - item column [i; 0%nat]) ^ 2)
             / INR (List.length batch))%R
            = batch_mean_squared_error pred batch).
  { unfold batch_mean_squared_error, Predictor.sum_upto. f_equal.
    apply LossFacts.sum_list_ext_in. intros i Hi. apply in_seq in Hi.
    destruct (nth_error batch i) as [el|] eqn:Hel.
    - rewrite (Hitems i el Hel), (nth_error_nth _ _ _ Hel). reflexivity.
    - apply nth_error_None in Hel. lia. }
  rewrite Hmean. reflexivity.
Qed.

Lemma compute_loss_is_batch_mean_witness :
  exists out pred,
    collate_fn Demo.gfp_cached Demo.batch3 = Ok out
    /\ shape pred = [3; 1]
    /\ Training.validation_step Demo2.head_predictor out 0 []
       = (Ok {| Training.loss := batch_mean_squared_error pred Demo.batch3;
                Training.o_log_fluorescence := pred;
                Training.o_target := out |},
          [("loss/valid"%string,
            batch_mean_squared_error pred Demo.batch3)]).
Proof.
  destruct (compute_loss_is_batch_mean
              Demo.gfp_cached Demo2.head_predictor Demo2.adding_head
              Demo.batch3 0 "valid" [])
    as (out & pred & Hout & _ & Hshape & _ & Hloss).
  - discriminate.
  - reflexivity.
  - intros x y Hy. cbn [Predictor.mlp Demo2.head_predictor].
    cbn [Predictor.embedding_dim Demo2.head_predictor] in Hy.
    rewrite Hy. reflexivity.
  - intros el Hel.
    destruct Hel as [<-|[<-|[<-|[]]]];
      (split; [reflexivity|]; split; [reflexivity|];
       eexists; eexists; split; reflexivity).
  - exists out, pred. split; [exact Hout|]. split; [exact Hshape|].
    exact Hloss.
Defined.

(** ** The end of an epoch *)

Module EpochFacts.
Import Training.

Lemma cat0_columns {A : Type} (a b : tensor A) (n m : nat) :
  shape a = [n; 1] -> shape b = [m; 1] ->
  exists out,
    cat0 a b = Ok out
    /\ shape out = [n + m; 1]
    /\ (forall i, i < n -> item out [i; 0] = item a [i; 0])
    /\ (forall i, item out [n + i; 0] = item b [i; 0]).
Proof.
  intros Ha Hb. unfold cat0. rewrite Ha, Hb.
  replace (shape_eqb [1] [1]) with true by reflexivity.
  eexists. split; [reflexivity|]. split; [reflexivity|]. split.
  - intros i Hi. cbn [item]. apply Nat.ltb_lt in Hi. rewrite Hi. reflexivity.
  - intro i. cbn [item].
    replace (n + i <? n) with false by (symmetry; apply Nat.ltb_ge; lia).
    replace (n + i - n) with i by lia. reflexivity.
Qed.

(** Columns concatenate to one column; the rows of the [k]-th array follow
    those of the arrays before it. *)
Lemma cat0_list_columns {A : Type} (ts : list (tensor A)) :
  ts <> [] ->
  (forall t, In t ts -> exists n, shape t = [n; 1]) ->
  exists out,
    cat0_list ts = Ok out
    /\ shape out = [fold_right Nat.add 0 (heights ts); 1]
    /\ forall k t i,
        nth_error ts k = Some t ->
        i < hd 0 (shape t) ->
        item out [fold_right Nat.add 0 (heights (firstn k ts)) + i; 0]
        = item t [i; 0].
Proof.
  intros Hne Hcols. destruct ts as [|t ts]; [congruence|]. clear Hne.
  revert t Hcols. induction ts as [|t' ts IH]; intros t Hcols.
  - destruct (Hcols t (or_introl eq_refl)) as (n & Hn).
    exists t. cbn [cat0_list]. rewrite Hn. split; [reflexivity|].
    split. { cbn. rewrite Hn. cbn. rewrite Nat.add_0_r. reflexivity. }
    intros k u i Hk Hi. destruct k as [|k].
    + injection Hk as <-. reflexivity.
    + destruct k; discriminate Hk.
  - destruct (IH t') as (rest & Hrest & Hrshape & Hritems).
    { intros u Hu. apply Hcols. right. exact Hu. }
    destruct (Hcols t (or_introl eq_refl)) as (n & Hn).
    destruct (cat0_columns t rest n _ Hn Hrshape)
      as (out & Hout & Hoshape & Hfirst & Hlater).
    exists out. split.
    { change (cat0_list (t :: t' :: ts))
        with (do r <- cat0_list (t' :: ts) ; cat0 t r).
      rewrite Hrest. exact Hout. }
    split.
    { rewrite Hoshape. unfold heights. cbn [map fold_right].
      rewrite Hn. reflexivity. }
    intros k u i Hk Hi. destruct k as [|k].
    + injection Hk as <-. cbn [firstn heights map fold_right].
      rewrite Hn in Hi. cbn [hd] in Hi. apply Hfirst. exact Hi.
    + change (nth_error (t' :: ts) k = Some u) in Hk.
      change (firstn (S k) (t :: t' :: ts))
        with (t :: firstn k (t' :: ts)).
      unfold heights. cbn [map fold_right]. rewrite Hn. cbn [hd].
      rewrite <- Nat.add_assoc. rewrite Hlater.
      apply (Hritems k u i Hk Hi).
Qed.

Lemma heights_map {X A : Type} (g h : X -> tensor A) (l : list X) :
  (forall x, In x l -> hd 0 (shape (g x)) = hd 0 (shape (h x))) ->
  heights (map g l) = heights (map h l).
Proof.
  intro H. unfold heights. rewrite !map_map. apply map_ext_in. exact H.
Qed.

Lemma in_firstn_list {X : Type} (k : nat) (l : list X) (x : X) :
  In x (firstn k l) -> In x l.
Proof.
  revert l. induction k as [|k IH]; intros [|a l] H; simpl in H;
    try contradiction.
  destruct H as [<-|H]; [left; reflexivity | right; apply IH, H].
Qed.

End EpochFacts.

(** X18.  At the end of an epoch whose steps each hold a column of
    predictions and a column of targets of one length, [validation_epoch_end]
    and [test_epoch_end] hand [spearmanr] two columns of one row per example
    of the epoch, and every row of the two holds the prediction and the
    target of one and the same example; the correlation is logged under
    spearmanr/valid or spearmanr/test, and an error of [spearmanr] is passed
    on with nothing logged.  Without any step the hooks raise. *)
Theorem epoch_end_pairs_examples
        (scipy : Training.Scipy) (outputs : list Training.Outputs)
        (l : Training.logs) :
  outputs <> [] ->
  (forall step, In step outputs ->
                exists n, shape (Training.o_log_fluorescence step) = [n; 1]
                          /\ shape (target (Training.o_target step)) = [n; 1]) ->
  exists predictions targets,
    shape predictions = [examples outputs; 1]
    /\ shape targets = [examples outputs; 1]
    /\ (forall k step i,
           nth_error outputs k = Some step ->
           i < hd 0 (shape (Training.o_log_fluorescence step)) ->
           item predictions [epoch_row outputs k i; 0]
           = item (Training.o_log_fluorescence step) [i; 0]
           /\ item targets [epoch_row outputs k i; 0]
              = item (target (Training.o_target step)) [i; 0])
    /\ Training.validation_epoch_end scipy outputs l
       = match Training.spearmanr scipy (to CPU predictions) (to CPU targets)
         with
         | Ok corr => (Ok tt, ("spearmanr/valid"%string, corr) :: l)
         | Raise e => (Raise e, l)
         end
    /\ Training.test_epoch_end scipy outputs l
       = match Training.spearmanr scipy (to CPU predictions) (to CPU targets)
         with
         | Ok corr => (Ok tt, ("spearmanr/test"%string, corr) :: l)
         | Raise e => (Raise e, l)
         end
    /\ Training.validation_epoch_end scipy [] l = (Raise RuntimeError, l)
    /\ Training.test_epoch_end scipy [] l = (Raise RuntimeError, l).
Proof.
  intros Hne Hsteps.
  assert (Hmap : forall {X} (g : Training.Outputs -> X), map g outputs <> []).
  { intros X g. destruct outputs; [congruence | discriminate]. }
  destruct (EpochFacts.cat0_list_columns
              (map Training.o_log_fluorescence outputs) (Hmap _ _))
    as (predictions & Hp & Hpshape & Hpitems).
  { intros t Ht. apply in_map_iff in Ht as (step & <- & Hstep).
    destruct (Hsteps step Hstep) as (n & Hn & _). eauto. }
  destruct (EpochFacts.cat0_list_columns
              (map (fun step => target (Training.o_target step)) outputs)
              (Hmap _ _))
    as (targets & Ht & Htshape & Htitems).
  { intros t Hin. apply in_map_iff in Hin as (step & <- & Hstep).
    destruct (Hsteps step Hstep) as (n & _ & Hn). eauto. }
  assert (Hsame : forall steps,
             (forall step, In step steps -> In step outputs) ->
             heights
               (map (fun step => target (Training.o_target step)) steps)
             = heights (map Training.o_log_fluorescence steps)).
  { intros steps Hsub. apply EpochFacts.heights_map. intros step Hstep.
    destruct (Hsteps step (Hsub step Hstep)) as (n & Hn & Hm).
    rewrite Hn, Hm. reflexivity. }
  assert (Hexamples : forall steps,
             fold_right Nat.add 0
               (heights (map Training.o_log_fluorescence steps))
             = examples steps).
  { intro steps. unfold heights, examples. rewrite map_map.
    reflexivity. }
  exists predictions, targets.
  split. { rewrite Hpshape, Hexamples. reflexivity. }
  split. { rewrite Htshape, Hsame, Hexamples by auto. reflexivity. }
  split.
  { intros k step i Hk Hi. unfold epoch_row. split.
    - rewrite <- Hexamples, <- firstn_map.
      apply (Hpitems k (Training.o_log_fluorescence step) i).
      + apply map_nth_error. exact Hk.
      + exact Hi.
    - rewrite <- Hexamples, <- Hsame, <- firstn_map
        by (intros s Hs; apply (EpochFacts.in_firstn_list k outputs s Hs)).
      apply (Htitems k (target (Training.o_target step)) i).
      + exact (map_nth_error (fun s => target (Training.o_target s))
                             k outputs Hk).
      + destruct (Hsteps step (nth_error_In _ _ Hk)) as (n & Hn & Hm).
        rewrite Hm. rewrite Hn in Hi. exact Hi. }
  unfold Training.validation_epoch_end, Training.test_epoch_end,
    Training.epoch_correlation.
  rewrite Hp, Ht. cbn [rbind map Training.cat0_list].
  repeat split; reflexivity.
Qed.

Lemma epoch_end_pairs_examples_witness :
  exists predictions targets : tensor R,
    shape predictions = [5; 1]
    /\ item predictions [3; 0] = 4%R
    /\ item targets [3; 0] = 6%R
    /\ Training.validation_epoch_end
         Demo2.first_difference
         [Demo2.step_outputs 2 1 2; Demo2.step_outputs 3 4 6] []
       = match Training.spearmanr Demo2.first_difference
                 (to CPU predictions) (to CPU targets) with
         | Ok corr => (Ok tt, [("spearmanr/valid"%string, corr)])
         | Raise e => (Raise e, [])
         end.
Proof.
  destruct (epoch_end_pairs_examples
              Demo2.first_difference
              [Demo2.step_outputs 2 1 2; Demo2.step_outputs 3 4 6] [])
    as (predictions & targets & Hshape & _ & Hrows & Hvalid & _).
  - discriminate.
  - intros step Hstep.
    destruct Hstep as [<-|[<-|[]]]; eexists; split; reflexivity.
  - exists predictions, targets. split; [exact Hshape|].
    destruct (Hrows 1 (Demo2.step_outputs 3 4 6) 1 eq_refl) as [Hp Ht].
    { simpl. lia. }
    split; [exact Hp|]. split; [exact Ht | exact Hvalid].
Defined.

(** ** __getitem__ on a constructed dataset *)

Module GetItemFacts.

Lemma py_slice_to_incl {A : Type} (l : list A) (n : Z) (x : A) :
  In x (py_slice_to l n) -> In x l.
Proof.
  unfold py_slice_to. destruct (0 <=? n)%Z; apply in_firstn.
Qed.

(** The context block the constructor stacks: at least one row, each as wide
    as the encoded reference. *)
Lemma init_block_shape
      (utils : Utils) (bio : Biopython) (base : TAPEDataset)
      (max_tokens_per_msa : Z) (cached : bool) (w0 w0' : world)
      (self : FluorescenceDataset) :
  init utils bio base max_tokens_per_msa cached w0 = (Ok self, w0') ->
  use_msa self = true ->
  (forall headers seqs,
      parse_fasta utils (disk w0) (msa_path base) true = Ok (headers, seqs) ->
      forall s1 s2, In s1 seqs -> In s2 seqs ->
                    String.length s1 = String.length s2) ->
  (forall seqs n h s, In (h, s) (hhfilter_sequences utils seqs n) ->
                      In s seqs) ->
  (forall s1 s2, String.length s1 = String.length s2 ->
                 List.length (encode (tokenizer self) s1)
                 = List.length (encode (tokenizer self) s2)) ->
  exists a n,
    msa_attrs self = Some a
    /\ aligner a = Align.make (align_algorithm bio) (BLOSUM62 bio)
    /\ shape (msa a)
       = [n; List.length (encode (tokenizer self) (reference a))]
    /\ 1 <= n.
Proof.
  intros Hinit Hon Haligned Hsub Htok.
  destruct (InitFacts.init_ok_inv utils bio base max_tokens_per_msa cached
              w0 w0' self Hinit) as (_ & Hsuper & _ & _ & Hmsa).
  assert (Hbase : use_msa base = true) by (rewrite <- Hsuper; exact Hon).
  destruct (Hmsa Hbase)
    as (headers & ref & seqs & first & rest & block
        & Hparse & _ & _ & Hstack & Hattrs).
  destruct (InitFacts.stack0_ok_inv _ block Hstack)
    as (t0 & rows & Hrows & Hshape).
  assert (Hin : In t0 (t0 :: rows)) by (left; reflexivity).
  rewrite <- Hrows in Hin. apply in_map_iff in Hin as ([h s] & Ht0 & Hin).
  apply py_slice_to_incl, Hsub in Hin.
  assert (Hlen : String.length s = String.length ref).
  { apply (Haligned headers (ref :: seqs) Hparse); [exact Hin|].
    left. reflexivity. }
  exists {| reference := ref; msa := block;
            aligner := Align.make (align_algorithm bio) (BLOSUM62 bio) |},
    (List.length (map (fun hs : string * string =>
                         from_list 0%Z (encode (tokenizer base) (snd hs)))
                      (py_slice_to
                         (hhfilter_sequences utils (ref :: seqs)
                            (max_tokens_per_msa
                             / Z.of_nat (List.length
                                           (encode (tokenizer base)
                                                   (primary first))) - 1))
                         (max_tokens_per_msa
                          / Z.of_nat (List.length
                                        (encode (tokenizer base)
                                                (primary first))) - 1)))).
  split; [exact Hattrs|]. split; [reflexivity|]. split.
  - cbn [msa reference]. rewrite Hshape, <- Ht0. cbn [shape from_list snd].
    rewrite <- Hsuper in *. rewrite (Htok s ref Hlen). reflexivity.
  - rewrite Hrows. cbn [List.length]. lia.
Qed.

(** A query no longer than the reference comes back with the reference's
    length. *)
Lemma maybe_align_sequence_fits
      (self : FluorescenceDataset) (a : MsaAttrs) (sequence : string) :
  use_msa self = true ->
  msa_attrs self = Some a ->
  Align.optimal_global (aligner a) ->
  Align.forbids_target_gaps (Align.settings (aligner a)) ->
  no_newline (reference a) = true ->
  no_newline sequence = true ->
  String.length sequence <= String.length (reference a) ->
  exists s,
    maybe_align_sequence self sequence = Ok s
    /\ String.length s = String.length (reference a).
Proof.
  intros Hon Ha Hopt Hforbid Hnr Hns Hlen.
  destruct (Nat.eq_dec (String.length sequence) (String.length (reference a)))
    as [Heq|Hne].
  - exists sequence. split; [|exact Heq].
    unfold maybe_align_sequence, attr. rewrite Hon, Ha. cbn [negb rbind].
    rewrite Heq, Nat.eqb_refl. reflexivity.
  - destruct (AlignFacts.first_alignment_fits (aligner a) (reference a)
                sequence Hopt Hforbid Hlen)
      as (first & rest & Hal & Hg & _ & Hrow).
    exists (Align.query_row first). split; [|exact Hrow].
    apply (maybe_align_sequence_first_row self a sequence first rest
             Hon Ha Hne Hal Hg Hnr Hns).
Qed.

End GetItemFacts.

(** C4, amended.  For a valid index whose record carries a fluorescence value
    and whose cached embedding, when cached embeddings are returned, is a
    completely saved tensor, [__getitem__] returns the scalar target together
    with a token array.  Without MSA the array has shape [(seq_len,)], the
    query's token length.  In MSA mode, on a dataset the constructor returned
    (over an aligned MSA, a filter that returns sequences of it, a tokenizer
    whose output length depends on the input length only and an aligner that
    returns optimal global alignments), the block has [num_msa_seqs >= 1] rows
    of the reference's token length, and for a query no longer than the
    reference the array has shape [(1 + num_msa_seqs, seq_len)], with
    [seq_len] the reference's token length: the token row of the aligned
    query, then the rows of the block. *)
Theorem getitem_token_shape
        (self : FluorescenceDataset) (index : Z) (w : world)
        (record : Item) (v : R) (others : list R) :
  data_at self index = Ok record ->
  log_fluorescence record = v :: others ->
  (return_cached_embeddings self = true ->
   exists t, resolve (disk w) (embedding_file self index)
             = Some (File (Saved t))) ->
  (use_msa self = false ->
   exists b w',
     getitem self index w = (Ok b, w')
     /\ shape (b_src_tokens b)
        = [List.length (encode (tokenizer self) (primary record))]
     /\ shape (b_log_fluorescence b) = []
     /\ item (b_log_fluorescence b) [] = v)
  /\ (use_msa self = true ->
      forall (utils : Utils) (bio : Biopython) (base : TAPEDataset)
             (max_tokens_per_msa : Z) (cached : bool) (w0 w0' : world),
        init utils bio base max_tokens_per_msa cached w0 = (Ok self, w0') ->
        (forall headers seqs,
            parse_fasta utils (disk w0) (msa_path base) true
            = Ok (headers, seqs) ->
            forall s1 s2, In s1 seqs -> In s2 seqs ->
                          String.length s1 = String.length s2) ->
        (forall seqs n h s, In (h, s) (hhfilter_sequences utils seqs n) ->
                            In s seqs) ->
        (forall s1 s2, String.length s1 = String.length s2 ->
                       List.length (encode (tokenizer self) s1)
                       = List.length (encode (tokenizer self) s2)) ->
        Align.optimal_global
          (Align.make (align_algorithm bio) (BLOSUM62 bio)) ->
        exists a n,
          msa_attrs self = Some a
          /\ shape (msa a)
             = [n; List.length (encode (tokenizer self) (reference a))]
          /\ 1 <= n
          /\ (no_newline (reference a) = true ->
              no_newline (primary record) = true ->
              String.length (primary record) <= String.length (reference a) ->
              exists sequence b w',
                maybe_align_sequence self (primary record) = Ok sequence
                /\ String.length sequence = String.length (reference a)
                /\ getitem self index w = (Ok b, w')
                /\ shape (b_src_tokens b)
                   = [1 + n;
                      List.length (encode (tokenizer self) (reference a))]
                /\ (forall j, item (b_src_tokens b) [0; j]
                              = nth j (encode (tokenizer self) sequence) 0%Z)
                /\ (forall i j, item (b_src_tokens b) [S i; j]
                                = item (msa a) [i; j])
                /\ shape (b_log_fluorescence b) = []
                /\ item (b_log_fluorescence b) [] = v)).
Proof.
  intros Hdata Hvalue Hcache.
  destruct (getitem_with_aligned_query self index w record v others
              Hdata Hvalue Hcache) as [Hplain Hrows].
  split; [exact Hplain|].
  intros Hon utils bio base max_tokens_per_msa cached w0 w0'
         Hinit Haligned Hsub Htok Hopt.
  destruct (GetItemFacts.init_block_shape utils bio base max_tokens_per_msa
              cached w0 w0' self Hinit Hon Haligned Hsub Htok)
    as (a & n & Ha & Haligner & Hshape & Hn).
  exists a, n. split; [exact Ha|]. split; [exact Hshape|].
  split; [exact Hn|].
  intros Hnr Hns Hlen.
  destruct (GetItemFacts.maybe_align_sequence_fits self a (primary record)
              Hon Ha) as (sequence & Halign & Hslen); try assumption.
  { rewrite Haligner. exact Hopt. }
  { rewrite Haligner. apply AlignFacts.make_forbids_target_gaps. }
  destruct (Hrows Hon a n
              (List.length (encode (tokenizer self) (reference a)))
              sequence Ha Hshape Halign (Htok _ _ Hslen))
    as (b & w' & Hb & Hrest).
  exists sequence, b, w'. split; [exact Halign|]. split; [exact Hslen|].
  split; [exact Hb | exact Hrest].
Qed.

Lemma getitem_token_shape_witness :
  (exists b w',
      getitem Demo.gfp_plain 1 Demo.world0 = (Ok b, w')
      /\ shape (b_src_tokens b) = [4])
  /\ (exists self b w',
         fst (init Demo.utils Demo.bio (Demo.base true Demo2.msa_records)
                   21 false Demo.world0) = Ok self
         /\ getitem self 1 Demo.world0 = (Ok b, w')
         /\ shape (b_src_tokens b) = [3; 7]).
Proof.
  split.
  - destruct (getitem_token_shape Demo.gfp_plain 1 Demo.world0
                (Demo.record "MK" 2%R) 2%R [])
      as [Hplain _]; [reflexivity | reflexivity | discriminate |].
    destruct (Hplain eq_refl) as (b & w' & Hb & Hshape & _).
    exists b, w'. split; [exact Hb | exact Hshape].
  - destruct (init Demo.utils Demo.bio (Demo.base true Demo2.msa_records)
                   21 false Demo.world0) as [[self|e] w0'] eqn:Hinit;
      [|discriminate Hinit].
    assert (Hsuper : super self = Demo.base true Demo2.msa_records).
    { apply (InitFacts.init_ok_inv _ _ _ _ _ _ _ _ Hinit). }
    assert (Hcached : return_cached_embeddings self = false).
    { apply (InitFacts.init_ok_inv _ _ _ _ _ _ _ _ Hinit). }
    destruct (getitem_token_shape self 1 Demo.world0
                (Demo.record "MSKG" 2%R) 2%R [])
      as [_ Hmsa].
    { unfold data_at. rewrite Hsuper. reflexivity. }
    { reflexivity. }
    { rewrite Hcached. discriminate. }
    destruct (Hmsa ltac:(rewrite Hsuper; reflexivity)
                   Demo.utils Demo.bio (Demo.base true Demo2.msa_records)
                   21%Z false Demo.world0 w0' Hinit)
      as (a & n & Ha & Hshape & Hn & Hitem).
    { intros headers seqs Hparse s1 s2 H1 H2.
      vm_compute in Hparse. injection Hparse as _ <-.
      destruct H1 as [<-|[<-|[<-|[<-|[]]]]];
        destruct H2 as [<-|[<-|[<-|[<-|[]]]]]; reflexivity. }
    { intros seqs k h s Hin. cbn [hhfilter_sequences Demo.utils] in Hin.
      apply in_map_iff in Hin as (s' & Heq & Hin). congruence. }
    { intros s1 s2 Hlen. rewrite Hsuper. cbn [tokenizer Demo.base].
      rewrite !char_tokenizer_length. congruence. }
    { apply DemoFacts.no_target_gap_algorithm_optimal. }
    vm_compute in Hinit. injection Hinit as <- <-.
    injection Ha as <-. cbn [reference msa] in *.
    injection Hshape as <-.
    destruct Hitem as (sequence & b & w' & _ & _ & Hb & Hbshape & _);
      [reflexivity | reflexivity | simpl; lia |].
    eexists. exists b, w'. split; [reflexivity|].
    split; [exact Hb | exact Hbshape].
Defined.

(** C4 as stated fails: with cached embeddings returned (the default) and no
    cached file, a valid index raises. *)
Lemma getitem_cache_miss_counterexample :
  data_at Demo.gfp_cached 0 = Ok (Demo.record "MSK" 1%R)
  /\ return_cached_embeddings Demo.gfp_cached = true
  /\ getitem Demo.gfp_cached 0 Demo.world0
     = (Raise FileNotFoundError,
        logged (changed Demo.world0
                        (disk (snd (cached_embedding_path Demo.gfp_cached 0
                                                          Demo.world0))))
               (Mkdir (embedding_dir Demo.gfp_cached))).
Proof. repeat split. Qed.

(** The other conditions are needed as well: a cached file that was only
    partly written makes [__getitem__] raise, and so does, in MSA mode, a
    query longer than the reference. *)
Example getitem_torn_cache :
  (exists n, resolve (disk Demo2.torn_world)
                     (embedding_file Demo.gfp_cached 0) = Some n)
  /\ getitem Demo.gfp_cached 0 Demo2.torn_world
     = (Raise RuntimeError, Demo2.torn_world).
Proof. split; [eexists; reflexivity | reflexivity]. Qed.

Example getitem_longer_query :
  exists self,
    fst (init Demo.utils Demo.bio (Demo.base true Demo2.msa_records)
              21 false Demo.world0) = Ok self
    /\ data_at self 2 = Ok (Demo.record "MSKGEEL" 3%R)
    /\ getitem self 2 Demo.world0 = (Raise IndexError, Demo.world0).
Proof.
  eexists. split; [reflexivity|]. split; [reflexivity|].
  vm_compute. reflexivity.
Qed.
